(** * Ciche Wzgórze: the sanity meter and the shared inventory

    A shallow embedding of [sanity.js] and [inventory.js].

    - JavaScript numbers are IEEE 754 binary64 values, modelled by the
      Standard Library's [spec_float] with its executable operations
      (round to nearest even, [prec = 53], [emax = 1024]).
    - JavaScript strings are sequences of UTF-16 code units.
    - A value is [undefined], [null], a boolean, a number, a string or an
      object (a function, a DOM element or another object); converting an
      object to a number or a string asks the host and does not throw.
      A Symbol, which [Number] refuses with a TypeError, is the other kind
      of [argument] that [set] and [add] can be given; BigInts are left
      out.
    - The two modules keep their state in closures ([STATE], [items],
      [listeners]); here every operation is a computation in a state and
      exception monad over that state paired with the host world: the
      trace of what the code did to its environment, [localStorage], and
      the number of [Math.random] calls so far.
    - What the host decides (string/number conversions, which callback
      calls throw, the rolls of [Math.random], whether a storage write
      fails, DOM queries) is a field of the [Host] class, so every theorem
      holds for every host.  A callback is an opaque host function: it
      returns or throws, and does not call back into the two modules.
    - [effect] of [sanity.js] acts on the page only (a CSS class and a
      timer) and has a state of its own, the module [Effect]; a timeout is
      a pending entry that fires as a step, with no clock.
    - Reading the items back from [localStorage] ([loadFromLS], the
      [storage] listener and the first read of [inventory.js]) is in the
      module [InventoryMore]; a stored entry is the list of strings the
      code writes, not its JSON text. *)

From Stdlib Require Import ZArith NArith Lia Floats.SpecFloat Strings.Ascii Strings.String.
From stdpp Require Import base option list gmap.

Local Open Scope Z_scope.

(* ================================================================== *)
(** * JavaScript numbers *)
(* ================================================================== *)

Module Num.

Definition prec : Z := 53.
Definition emax : Z := 1024.

Definition number : Type := spec_float.

Definition NaN : number := S754_nan.
Definition pos_zero : number := S754_zero false.
Definition neg_zero : number := S754_zero true.
Definition Infinity : number := S754_infinity false.

(** An integer literal. *)
Definition of_Z (z : Z) : number := binary_normalize prec emax z 0 false.

Definition add (x y : number) : number := SFadd prec emax x y.
Definition mul (x y : number) : number := SFmul prec emax x y.
Definition div (x y : number) : number := SFdiv prec emax x y.

(** A decimal literal [n / 10^k] with few digits: the literal denotes the
    double nearest to the quotient, which is what the correctly rounded
    division of the two (exact) integers gives. *)
Definition of_decimal (n : Z) (k : nat) : number :=
  div (of_Z n) (of_Z (10 ^ Z.of_nat k)).

Definition is_nan (x : number) : bool :=
  match x with S754_nan => true | _ => false end.

Definition is_zero (x : number) : bool :=
  match x with S754_zero _ => true | _ => false end.

Definition is_neg_zero (x : number) : bool :=
  match x with S754_zero true => true | _ => false end.

(** The relational operators; every comparison with NaN is false. *)
Definition lt (x y : number) : bool := SFltb x y.       (* x < y *)
Definition le (x y : number) : bool := SFleb x y.       (* x <= y *)
Definition gt (x y : number) : bool := SFltb y x.       (* x > y *)
Definition ge (x y : number) : bool := SFleb y x.       (* x >= y *)
Definition strict_eq (x y : number) : bool := SFeqb x y. (* x === y *)

(** ToBoolean on a number: [+0], [-0] and [NaN] are falsy. *)
Definition truthy (x : number) : bool := negb (is_zero x || is_nan x).

(** [Math.min(a, b)]: NaN if either is, and [-0] is below [+0]. *)
Definition Math_min (a b : number) : number :=
  match SFcompare a b with
  | None => NaN
  | Some Lt => a
  | Some Gt => b
  | Some Eq => if is_neg_zero a then a else b
  end.

(** [Math.max(a, b)]: NaN if either is, and [+0] is above [-0]. *)
Definition Math_max (a b : number) : number :=
  match SFcompare a b with
  | None => NaN
  | Some Lt => b
  | Some Gt => a
  | Some Eq => if is_neg_zero a then b else a
  end.

(** ToInt32, as applied by [x | 0]. *)
Definition ToInt32 (x : number) : Z :=
  match x with
  | S754_finite s m e =>
      let t := if 0 <=? e then Z.shiftl (Zpos m) e
               else Z.shiftr (Zpos m) (- e) in
      let i := (if s then - t else t) mod 2 ^ 32 in
      if 2 ^ 31 <=? i then i - 2 ^ 32 else i
  | _ => 0
  end.

End Num.
Import Num.

(* ================================================================== *)
(** * JavaScript strings and values *)
(* ================================================================== *)

(** A string is its sequence of UTF-16 code units. *)
Abbreviation jsstring := (list N).

(** The string of an ASCII literal. *)
Definition str (s : string) : jsstring :=
  List.map N_of_ascii (list_ascii_of_string s).

(** Function objects and DOM elements are known by their identity. *)
Abbreviation callback := nat.
Abbreviation element := nat.

Inductive object :=
| OFunction (f : callback)
| OElement (e : element)      (* an object whose [nodeType] is 1 *)
| OOther (id : nat).

Inductive jsval :=
| VUndefined
| VNull
| VBool (b : bool)
| VNumber (x : number)
| VString (s : jsstring)
| VObject (o : object).

(** Whatever a caller can pass where a number is expected: a value of the
    kinds above, which [Number] converts, or a Symbol, which it refuses. *)
Inductive argument :=
| Value (v : jsval)
| SymbolValue.

(** What a subscriber or a window event receives. *)
Inductive detail :=
| DNumber (x : number)            (* the sanity value *)
| DList (l : list jsstring)       (* the array made by [list()] *)
| DItem (item : jsstring)         (* the object [{ item }] *)
| DString (s : jsstring).         (* the text handed to a render function *)

Inductive exn :=
| Thrown (by_cb : callback)       (* whatever a callback threw *)
| ReferenceError                  (* [CustomEvent] is not defined *)
| SyntaxError                     (* a selector that does not parse *)
| QuotaExceededError              (* [localStorage.setItem] refused *)
| TypeError.                      (* [Number] applied to a Symbol *)

(** Everything the two modules do to their environment, in order. *)
Inductive event :=
| EvCall (cb : callback) (arg : detail)
| EvWindow (type : jsstring) (d : detail)
| EvAppendChild (container pill : element)
| EvTextContent (el : element) (text : jsstring)
| EvConsoleError (e : exn).

Global Instance object_eq_dec : EqDecision object.
Proof. solve_decision. Defined.
Global Instance spec_float_eq_dec : EqDecision spec_float.
Proof. solve_decision. Defined.
Global Instance jsval_eq_dec : EqDecision jsval.
Proof. solve_decision. Defined.
Global Instance detail_eq_dec : EqDecision detail.
Proof. solve_decision. Defined.
Global Instance exn_eq_dec : EqDecision exn.
Proof. solve_decision. Defined.
Global Instance event_eq_dec : EqDecision event.
Proof. solve_decision. Defined.

Inductive result (A : Type) :=
| Ok (a : A)
| Throw (e : exn).
Arguments Ok {A} a.
Arguments Throw {A} e.

(** ** The host *)

(** The parts of the browser the code relies on and does not define.  The
    oracles that answer about the environment see the trace so far, so
    their answers may depend on everything that happened before. *)
Class Host := {
  (** [Number(s)] on a string, [String(x)] on a number, and both on an
      object (through its [valueOf] / [toString]). *)
  StringToNumber : jsstring -> number;
  NumberToString : number -> jsstring;
  ObjectToNumber : object -> number;
  ObjectToString : object -> jsstring;
  (** Does this call of the callback throw? *)
  callback_throws : list event -> callback -> detail -> bool;
  (** The result of the n-th call of [Math.random()]. *)
  Math_random : nat -> number;
  (** Is the [CustomEvent] constructor there? *)
  CustomEvent_defined : bool;
  (** Does [localStorage.setItem(key, _)] throw? *)
  setItem_throws : list event -> jsstring -> bool;
  (** [document.querySelector(selector)]. *)
  document_querySelector : list event -> jsstring -> result (option element);
  (** In [ensureBadge]: the [.pill] around an existing badge node of the
      container, when there is one. *)
  existing_pill : list event -> element -> option element;
  (** The element made by [document.createElement("span")]. *)
  createElement : list event -> element;
  (** [badge.querySelector("#sanToolbarVal")]. *)
  badge_value_node : list event -> element -> option element
}.

(** ** Coercions *)

Section Coercions.
Context `{Host}.

Definition ToNumber (v : jsval) : number :=
  match v with
  | VUndefined => NaN
  | VNull => pos_zero
  | VBool b => if b then of_Z 1 else pos_zero
  | VNumber x => x
  | VString s => StringToNumber s
  | VObject o => ObjectToNumber o
  end.

Definition ToString (v : jsval) : jsstring :=
  match v with
  | VUndefined => str "undefined"
  | VNull => str "null"
  | VBool b => if b then str "true" else str "false"
  | VNumber x => NumberToString x
  | VString s => s
  | VObject o => ObjectToString o
  end.

Definition ToBoolean (v : jsval) : bool :=
  match v with
  | VUndefined | VNull => false
  | VBool b => b
  | VNumber x => truthy x
  | VString s => negb (bool_decide (s = []))
  | VObject _ => true
  end.

Definition is_function (v : jsval) : option callback :=
  match v with
  | VObject (OFunction f) => Some f
  | _ => None
  end.

(** [a || b] on numbers. *)
Definition or_number (a b : number) : number := if truthy a then a else b.

(** [a ?? b]. *)
Definition nullish (a b : jsval) : jsval :=
  match a with
  | VUndefined | VNull => b
  | _ => a
  end.

End Coercions.

(* ================================================================== *)
(** * Computations: state, exceptions and the host world *)
(* ================================================================== *)

Record World := {
  trace : list event;
  localStorage : gmap jsstring (list jsstring);
  random_calls : nat
}.

(** A module's private state [T] next to the world it runs in. *)
Record cfg (T : Type) := Cfg { mod_state : T; world : World }.
Arguments Cfg {T} mod_state world.
Arguments mod_state {T} c.
Arguments world {T} c.

Definition M (T A : Type) : Type := cfg T -> cfg T * result A.

Section Monad.
Context {T : Type}.

Definition ret {A} (a : A) : M T A := fun c => (c, Ok a).

Definition bind {A B} (m : M T A) (k : A -> M T B) : M T B :=
  fun c =>
    match m c with
    | (c', Ok a) => k a c'
    | (c', Throw e) => (c', Throw e)
    end.

Definition throw {A} (e : exn) : M T A := fun c => (c, Throw e).

(** [try { m } catch (e) { h e }]. *)
Definition try_catch {A} (m : M T A) (h : exn -> M T A) : M T A :=
  fun c =>
    match m c with
    | (c', Ok a) => (c', Ok a)
    | (c', Throw e) => h e c'
    end.

Definition get_state : M T T := fun c => (c, Ok (mod_state c)).

Definition put_state (t : T) : M T unit :=
  fun c => (Cfg t (world c), Ok tt).

Definition get_world : M T World := fun c => (c, Ok (world c)).

Definition put_world (w : World) : M T unit :=
  fun c => (Cfg (mod_state c) w, Ok tt).

End Monad.

Notation "'let*' x ':=' m 'in' k" := (bind m (fun x => k))
  (at level 10, x name, m at level 100, k at level 200).
Notation "m ';;' k" := (bind m (fun _ => k))
  (at level 100, k at level 200, right associativity).

Definition add_trace (evs : list event) (w : World) : World :=
  {| trace := trace w ++ evs;
     localStorage := localStorage w;
     random_calls := random_calls w |}.

Definition set_localStorage (ls : gmap jsstring (list jsstring)) (w : World) : World :=
  {| trace := trace w; localStorage := ls; random_calls := random_calls w |}.

Definition count_random (w : World) : World :=
  {| trace := trace w;
     localStorage := localStorage w;
     random_calls := S (random_calls w) |}.

Section Primitives.
Context `{Host} {T : Type}.

(** [for (const x of l) body(x)]: an exception leaves the loop. *)
Fixpoint for_of {A} (l : list A) (body : A -> M T unit) : M T unit :=
  match l with
  | [] => ret tt
  | x :: l' => body x ;; for_of l' body
  end.

Definition emit (ev : event) : M T unit :=
  let* w := get_world in put_world (add_trace [ev] w).

(** [cb(d)]: the call happens, and it may throw. *)
Definition call (cb : callback) (d : detail) : M T unit :=
  let* w := get_world in
  emit (EvCall cb d) ;;
  if callback_throws (trace w) cb d then throw (Thrown cb) else ret tt.

(** [window.dispatchEvent(new CustomEvent(type, { detail }))]. *)
Definition window_dispatchEvent (type : jsstring) (d : detail) : M T unit :=
  if CustomEvent_defined then emit (EvWindow type d)
  else throw ReferenceError.

(** [Math.random()]. *)
Definition random : M T number :=
  let* w := get_world in
  put_world (count_random w) ;;
  ret (Math_random (random_calls w)).

(** [localStorage.setItem(key, JSON.stringify(doc))]; the cell holds the
    array that the JSON text denotes. *)
Definition setItem (key : jsstring) (doc : list jsstring) : M T unit :=
  let* w := get_world in
  if setItem_throws (trace w) key then throw QuotaExceededError
  else put_world (set_localStorage (<[key := doc]> (localStorage w)) w).

End Primitives.

(* ================================================================== *)
(** * sanity.js *)
(* ================================================================== *)

Module Sanity.

Record Options := { start : jsval; mount : jsval }.

Record SanityState := {
  value : number;
  min : number;
  max : number;
  subscribers : list callback;
  mountedBadge : option element;
  options : Options;
  effectTimer : option nat
}.

(** The [STATE] literal the module starts with. *)
Definition STATE0 : SanityState :=
  {| value := of_Z 100;
     min := of_Z 0;
     max := of_Z 100;
     subscribers := [];
     mountedBadge := None;
     options := {| start := VNumber (of_Z 100); mount := VNull |};
     effectTimer := None |}.

Definition set_value (v : number) (s : SanityState) : SanityState :=
  {| value := v; min := min s; max := max s;
     subscribers := subscribers s; mountedBadge := mountedBadge s;
     options := options s; effectTimer := effectTimer s |}.

Definition set_subscribers (l : list callback) (s : SanityState) : SanityState :=
  {| value := value s; min := min s; max := max s;
     subscribers := l; mountedBadge := mountedBadge s;
     options := options s; effectTimer := effectTimer s |}.

Definition set_mountedBadge (b : option element) (s : SanityState) : SanityState :=
  {| value := value s; min := min s; max := max s;
     subscribers := subscribers s; mountedBadge := b;
     options := options s; effectTimer := effectTimer s |}.

Definition set_options (o : Options) (s : SanityState) : SanityState :=
  {| value := value s; min := min s; max := max s;
     subscribers := subscribers s; mountedBadge := mountedBadge s;
     options := o; effectTimer := effectTimer s |}.

(** The argument of [init]: an object that may or may not have the keys
    [start] and [mount]. *)
Record InitOptions := { opt_start : option jsval; opt_mount : option jsval }.

(** [Object.assign({}, old, opts)]. *)
Definition assign (old : Options) (opts : InitOptions) : Options :=
  {| start := default (start old) (opt_start opts);
     mount := default (mount old) (opt_mount opts) |}.

Definition clamp (v lo hi : number) : number := Math_max lo (Math_min hi v).

Definition tierFor (v : number) : Z :=
  if ge v (of_Z 80) then 1
  else if ge v (of_Z 60) then 2
  else if ge v (of_Z 40) then 3
  else if ge v (of_Z 20) then 4
  else 5.

(** The expression bound to [intensity] in [wrapped]. *)
Definition intensity_of_tier (t : Z) : number :=
  if t <=? 2 then of_Z 0
  else if t =? 3 then of_decimal 3 2
  else if t =? 4 then of_decimal 8 2
  else of_decimal 14 2.

(** The character class [[A-Za-zÀ-ž0-9,.…\-!?]] on one code unit. *)
Definition glitchable (ch : N) : bool :=
  ((65 <=? ch) && (ch <=? 90)         (* A-Z *)
   || (97 <=? ch) && (ch <=? 122)     (* a-z *)
   || (192 <=? ch) && (ch <=? 382)    (* U+00C0 - U+017E *)
   || (48 <=? ch) && (ch <=? 57)      (* 0-9 *)
   || (ch =? 44) || (ch =? 46)        (* , . *)
   || (ch =? 8230)                    (* U+2026 *)
   || (ch =? 45) || (ch =? 33) || (ch =? 63))%N.   (* - ! ? *)

Inductive kind := dup | swap | dot | tilde | space.

Definition kinds : list kind := [dup; swap; dot; tilde; space].

(** [a[i]] for an int32 [i]: undefined outside the array. *)
Definition index {A} (a : list A) (i : Z) : option A :=
  if i <? 0 then None else a !! Z.to_nat i.

(** [a.indexOf(x)]. *)
Fixpoint indexOf (x : callback) (a : list callback) : Z :=
  match a with
  | [] => -1
  | y :: a' =>
      if bool_decide (y = x) then 0
      else let i := indexOf x a' in if i <? 0 then -1 else i + 1
  end.

(** [a.splice(i, 1)] for [0 <= i]. *)
Definition splice1 {A} (i : Z) (a : list A) : list A :=
  take (Z.to_nat i) a ++ drop (S (Z.to_nat i)) a.

Section Operations.
Context `{Host}.

Definition modify (f : SanityState -> SanityState) : M SanityState unit :=
  let* s := get_state in put_state (f s).

Definition notify : M SanityState unit :=
  let* s := get_state in
  let val := value s in
  (* classic callback subscribers, over a copy of the array *)
  for_of (subscribers s)
    (fun cb => try_catch (call cb (DNumber val)) (fun _ => ret tt)) ;;
  (* DOM CustomEvent *)
  try_catch (window_dispatchEvent (str "sanity:change") (DNumber val))
    (fun _ => ret tt) ;;
  (* the mounted badge, if present *)
  let* s := get_state in
  match mountedBadge s with
  | Some badge =>
      let* w := get_world in
      match badge_value_node (trace w) badge with
      | Some el => emit (EvTextContent el (NumberToString val ++ str "/100"))
      | None => ret tt
      end
  | None => ret tt
  end.

Definition ensureBadge (container : option element)
  : M SanityState (option element) :=
  match container with
  | None => ret None
  | Some c =>
      let* w := get_world in
      match existing_pill (trace w) c with
      | Some pill =>
          modify (set_mountedBadge (Some pill)) ;;
          notify ;;
          ret (Some pill)
      | None =>
          let pill := createElement (trace w) in
          emit (EvAppendChild c pill) ;;
          modify (set_mountedBadge (Some pill)) ;;
          notify ;;
          ret (Some pill)
      end
  end.

(** [init(opts)]; [None] is a missing (or falsy) argument. *)
Definition init (opts : option InitOptions) : M SanityState unit :=
  modify (fun s =>
    set_options
      (assign (options s)
         (default {| opt_start := None; opt_mount := None |} opts)) s) ;;
  modify (fun s =>
    set_value
      (clamp
         (or_number
            (ToNumber (nullish (start (options s)) (VNumber (of_Z 100))))
            (of_Z 100))
         (min s) (max s)) s) ;;
  let* s := get_state in
  let mount := mount (options s) in
  (if ToBoolean mount then
     let* container :=
       match mount with
       | VString selector =>
           let* w := get_world in
           match document_querySelector (trace w) selector with
           | Ok r => ret r
           | Throw e => throw e
           end
       | VObject (OElement e) => ret (Some e)
       | _ => ret None
       end in
     match container with
     | Some c => ensureBadge (Some c) ;; ret tt
     | None => ret tt
     end
   else ret tt) ;;
  notify.

Definition get : M SanityState number :=
  let* s := get_state in ret (value s).

Definition set (v : jsval) : M SanityState number :=
  let* s := get_state in
  let nv := clamp (or_number (ToNumber v) (of_Z 0)) (min s) (max s) in
  if strict_eq nv (value s) then ret (value s)
  else
    modify (set_value nv) ;;
    notify ;;
    let* s := get_state in ret (value s).

Definition add (delta : jsval) : M SanityState number :=
  let* s := get_state in
  let nv := clamp (Num.add (value s) (or_number (ToNumber delta) (of_Z 0)))
              (min s) (max s) in
  if strict_eq nv (value s) then ret (value s)
  else
    modify (set_value nv) ;;
    notify ;;
    let* s := get_state in ret (value s).

Definition change (delta : jsval) : M SanityState number := add delta.

(** [set] and [add] on whatever a caller passes.  [Number(v)] is evaluated
    before [STATE] is written or anybody is notified, and applied to a
    Symbol it throws a TypeError, which neither function catches. *)
Definition set_any (a : argument) : M SanityState number :=
  match a with
  | Value v => set v
  | SymbolValue => throw TypeError
  end.

Definition add_any (a : argument) : M SanityState number :=
  match a with
  | Value delta => add delta
  | SymbolValue => throw TypeError
  end.

(** The closure returned by [subscribe(cb)]. *)
Definition unsubscribe (cb : callback) : M SanityState unit :=
  let* s := get_state in
  let i := indexOf cb (subscribers s) in
  if 0 <=? i then modify (set_subscribers (splice1 i (subscribers s)))
  else ret tt.

Definition subscribe (cb : jsval) : M SanityState (M SanityState unit) :=
  match is_function cb with
  | None => ret (ret tt)
  | Some f =>
      modify (fun s => set_subscribers (subscribers s ++ [f]) s) ;;
      (* initial push *)
      let* s := get_state in
      try_catch (call f (DNumber (value s))) (fun _ => ret tt) ;;
      ret (unsubscribe f)
  end.

Definition onChange (cb : jsval) : M SanityState (M SanityState unit) :=
  subscribe cb.

Definition addEventListener (type handler : jsval)
  : M SanityState (M SanityState unit) :=
  if bool_decide (type = VString (str "change")) then subscribe handler
  else ret (ret tt).

(** The closure [mutate] of [wrapped]; the result is a string of one or
    two code units. *)
Definition mutate (intensity : number) (ch : N) : M SanityState jsstring :=
  if negb (glitchable ch) then ret [ch]
  else
    let* roll := random in
    if gt roll intensity then ret [ch]
    else
      let* r := random in
      match index kinds (ToInt32 (mul r (of_Z (Z.of_nat (length kinds))))) with
      | Some dup => ret [ch; ch]
      | Some swap =>
          let* r2 := random in
          ret (if lt r2 (of_decimal 5 1) then [172%N] else [167%N])
      | Some dot => ret [183%N]
      | Some tilde => ret [126%N]
      | Some space => ret [ch; 8202%N]
      | None => ret [ch]
      end.

(** [s.split("").map(f).join("")]. *)
Fixpoint map_join (f : N -> M SanityState jsstring) (s : jsstring)
  : M SanityState jsstring :=
  match s with
  | [] => ret []
  | ch :: s' =>
      let* a := f ch in
      let* b := map_join f s' in
      ret (a ++ b)
  end.

(** The function returned by [wrapTypeText(typeFn)] for a function
    [typeFn].  The call of [typeFn] is in the trace with the text it is
    given; an exception stands for the rejection of the promise. *)
Definition wrapped (typeFn : callback) (text : jsval) : M SanityState unit :=
  let* v := get in
  let t := tierFor v in
  let intensity := intensity_of_tier t in
  let* glitched := map_join (mutate intensity) (ToString text) in
  let* r := random in
  let finalOut :=
    if lt r (mul intensity (of_decimal 5 1)) then glitched ++ [8205%N]
    else glitched in
  call typeFn (DString finalOut).

Definition wrapTypeText (typeFn : jsval) : jsval -> M SanityState unit :=
  match is_function typeFn with
  | None => fun _ => ret tt
  | Some f => wrapped f
  end.

End Operations.

End Sanity.

(* ================================================================== *)
(** * inventory.js *)
(* ================================================================== *)

(** A JavaScript [Set] keeps its members in insertion order, without
    duplicates. *)
Section JsSet.
Context {A : Type} `{EqDecision A}.

Definition Set_has (x : A) (s : list A) : bool := bool_decide (x ∈ s).

Definition Set_add (x : A) (s : list A) : list A :=
  if Set_has x s then s else s ++ [x].

Definition Set_delete (x : A) (s : list A) : list A :=
  filter (fun y => y ≠ x) s.

End JsSet.

Module Inventory.

Definition LS_KEY : jsstring := str "cw.inventory.v1".

Definition change_type : jsstring := str "inventory:change".
Definition use_type : jsstring := str "inventory:use".

(** The two variables of the module's closure. *)
Record InventoryState := {
  items : list jsstring;                      (* Set<string> *)
  listeners : gmap jsstring (list callback)   (* Map<type, Set<cb>> *)
}.

Definition set_items (l : list jsstring) (s : InventoryState) : InventoryState :=
  {| items := l; listeners := listeners s |}.

Definition set_listeners (m : gmap jsstring (list callback)) (s : InventoryState)
  : InventoryState :=
  {| items := items s; listeners := m |}.

Section Operations.
Context `{Host}.

Definition modify (f : InventoryState -> InventoryState) : M InventoryState unit :=
  let* s := get_state in put_state (f s).

(** [list()], the array [[...items]]. *)
Definition list_items : M InventoryState (list jsstring) :=
  let* s := get_state in ret (items s).

Definition dispatch (type : jsstring) (d : detail) : M InventoryState unit :=
  let* s := get_state in
  match listeners s !! type with
  | Some set =>
      for_of set
        (fun cb => try_catch (call cb d) (fun e => emit (EvConsoleError e)))
  | None => ret tt
  end ;;
  (* the native CustomEvent *)
  try_catch (window_dispatchEvent type d) (fun _ => ret tt).

Definition save : M InventoryState unit :=
  try_catch
    (let* l := list_items in setItem LS_KEY l)
    (fun _ => ret tt) ;;
  let* l := list_items in
  dispatch change_type (DList l).

(** [on(type, cb, { immediateValue })]; [None] is an absent (undefined)
    [immediateValue]. *)
Definition on (type : jsstring) (cb : jsval) (immediateValue : option detail)
  : M InventoryState (M InventoryState unit) :=
  match is_function cb with
  | None => ret (ret tt)
  | Some f =>
      modify (fun s =>
        if bool_decide (is_Some (listeners s !! type)) then s
        else set_listeners (<[type := []]> (listeners s)) s) ;;
      modify (fun s =>
        set_listeners
          (<[type := Set_add f (default [] (listeners s !! type))]>
             (listeners s)) s) ;;
      match immediateValue with
      | Some d => try_catch (call f d) (fun _ => ret tt)
      | None => ret tt
      end ;;
      ret (modify (fun s =>
             match listeners s !! type with
             | Some set =>
                 set_listeners (<[type := Set_delete f set]> (listeners s)) s
             | None => s
             end))
  end.

Definition add (name : jsval) : M InventoryState unit :=
  if negb (ToBoolean name) then ret tt
  else
    modify (fun s => set_items (Set_add (ToString name) (items s)) s) ;;
    save.

Definition remove (name : jsval) : M InventoryState unit :=
  modify (fun s => set_items (Set_delete (ToString name) (items s)) s) ;;
  save.

Definition has (name : jsval) : M InventoryState bool :=
  let* s := get_state in ret (Set_has (ToString name) (items s)).

Definition clear : M InventoryState unit :=
  modify (set_items []) ;;
  save.

Definition use (name : jsval) : M InventoryState unit :=
  let* s := get_state in
  if negb (Set_has (ToString name) (items s)) then ret tt
  else dispatch use_type (DItem (ToString name)).

Definition onChange (cb : jsval) : M InventoryState (M InventoryState unit) :=
  let* l := list_items in
  on change_type cb (Some (DList l)).

Definition onUse (cb : jsval) : M InventoryState (M InventoryState unit) :=
  on use_type cb None.

Definition subscribe (cb : jsval) : M InventoryState (M InventoryState unit) :=
  onChange cb.

End Operations.

End Inventory.

(* ================================================================== *)
(** * A host for examples *)
(* ================================================================== *)

(** A browser in which the listed callbacks throw on every call and
    [Math.random] follows [rolls]; strings of decimal digits convert to the
    integer they spell, no other string or object is numeric, no storage
    write fails, and the document has no element for any selector. *)
Definition digits_value (s : jsstring) : option Z :=
  foldl (fun acc ch =>
           match acc with
           | Some n => if ((48 <=? ch) && (ch <=? 57))%N
                       then Some (10 * n + Z.of_N (ch - 48)) else None
           | None => None
           end) (Some 0) s.

Definition example_host (throwing : list callback) (rolls : nat -> number) : Host :=
  {| StringToNumber := fun s => from_option of_Z NaN (digits_value s);
     NumberToString := fun x => if is_nan x then str "NaN" else str "0";
     ObjectToNumber := fun _ => NaN;
     ObjectToString := fun _ => str "[object Object]";
     callback_throws := fun _ cb _ => bool_decide (cb ∈ throwing);
     Math_random := rolls;
     CustomEvent_defined := true;
     setItem_throws := fun _ _ => false;
     document_querySelector := fun _ _ => Ok None;
     existing_pill := fun _ _ => None;
     createElement := fun tr => length tr;
     badge_value_node := fun _ _ => None |}.

Definition World0 : World :=
  {| trace := []; localStorage := ∅; random_calls := 0 |}.

(* ================================================================== *)
(** * Facts about numbers *)
(* ================================================================== *)

Section NumberFacts.

Lemma of_Z_0 : of_Z 0 = pos_zero.
Proof. reflexivity. Qed.

Lemma of_Z_20 : of_Z 20 = S754_finite false 5629499534213120 (-48).
Proof. vm_compute. reflexivity. Qed.

Lemma of_Z_40 : of_Z 40 = S754_finite false 5629499534213120 (-47).
Proof. vm_compute. reflexivity. Qed.

Lemma of_Z_60 : of_Z 60 = S754_finite false 8444249301319680 (-47).
Proof. vm_compute. reflexivity. Qed.

Lemma of_Z_80 : of_Z 80 = S754_finite false 5629499534213120 (-46).
Proof. vm_compute. reflexivity. Qed.

Lemma of_Z_100 : of_Z 100 = S754_finite false 7036874417766400 (-46).
Proof. vm_compute. reflexivity. Qed.

(** Swapping the operands of a comparison reverses its outcome. *)
Lemma SFcompare_swap (x y : number) :
  SFcompare y x = CompOpp <$> SFcompare x y.
Proof.
  destruct x as [[]|[]| |[] m1 e1], y as [[]|[]| |[] m2 e2]; try reflexivity;
    cbn [SFcompare fmap option_fmap option_map];
    rewrite (Z.compare_antisym e1 e2);
    change (Pos.compare_cont Eq m2 m1) with (Pos.compare m2 m1);
    change (Pos.compare_cont Eq m1 m2) with (Pos.compare m1 m2);
    rewrite (Pos.compare_antisym m1 m2);
    destruct (e1 ?= e2); cbn; try reflexivity;
    destruct (m1 ?= m2)%positive; reflexivity.
Qed.

Lemma lt_not_ge (x y : number) : lt x y = true -> ge x y = false.
Proof.
  unfold lt, ge, SFltb, SFleb. rewrite (SFcompare_swap x y).
  destruct (SFcompare x y) as [[]|]; cbn; congruence.
Qed.

Lemma SFcompare_total (x y : number) :
  is_nan x = false -> is_nan y = false -> is_Some (SFcompare x y).
Proof.
  destruct x as [[]|[]| |[]], y as [[]|[]| |[]]; cbn; try discriminate; eauto.
Qed.

Lemma ge_false_lt (x y : number) :
  is_nan x = false -> is_nan y = false -> ge x y = false -> lt x y = true.
Proof.
  intros Hx Hy. destruct (SFcompare_total x y Hx Hy) as [c Hc].
  unfold lt, ge, SFltb, SFleb. rewrite (SFcompare_swap x y), Hc.
  destruct c; cbn; congruence.
Qed.

(** Below a positive finite number, every larger one. *)
Lemma le_trans_pos (ma mb : positive) (ea eb : Z) (v : number) :
  le (S754_finite false ma ea) (S754_finite false mb eb) = true ->
  le (S754_finite false mb eb) v = true ->
  le (S754_finite false ma ea) v = true.
Proof.
  unfold le, SFleb.
  destruct v as [[]|[]| |[] m e]; cbn [SFcompare]; try congruence.
  change (Pos.compare_cont Eq ma mb) with (Pos.compare ma mb).
  change (Pos.compare_cont Eq mb m) with (Pos.compare mb m).
  change (Pos.compare_cont Eq ma m) with (Pos.compare ma m).
  destruct (Z.compare_spec ea eb), (Z.compare_spec eb e), (Z.compare_spec ea e);
    try lia; try congruence; subst;
    destruct (Pos.compare_spec ma mb), (Pos.compare_spec mb m),
      (Pos.compare_spec ma m); try lia; congruence.
Qed.

(** [x === y] is Leibniz equality, except between the two zeros. *)
Lemma strict_eq_eq (x y : number) :
  strict_eq x y = true -> is_zero y = false -> x = y.
Proof.
  unfold strict_eq, SFeqb.
  destruct x as [[]|[]| |[] m1 e1], y as [[]|[]| |[] m2 e2];
    cbn [SFcompare is_zero]; try congruence; intros Hc _;
    change (Pos.compare_cont Eq m1 m2) with (Pos.compare m1 m2) in Hc;
    destruct (Z.compare_spec e1 e2); try congruence;
    destruct (Pos.compare_spec m1 m2); cbn in Hc; congruence.
Qed.

Lemma strict_eq_zero (x y : number) :
  strict_eq x y = true -> is_zero y = true -> is_zero x = true.
Proof.
  unfold strict_eq, SFeqb.
  destruct x as [[]|[]| |[] m1 e1], y as [[]|[]| |[]]; cbn; congruence.
Qed.

Lemma strict_eq_not_nan (x y : number) :
  strict_eq x y = true -> is_nan x = false /\ is_nan y = false.
Proof.
  unfold strict_eq, SFeqb. destruct x, y; cbn; try congruence; auto.
Qed.

(** ** [a || b] *)

Lemma or_number_not_nan `{Host} (a b : number) :
  is_nan b = false -> is_nan (or_number a b) = false.
Proof.
  unfold or_number, truthy. destruct a as [[]|[]| |[]]; cbn; auto.
Qed.

Lemma or_number_nan `{Host} (b : number) : or_number NaN b = b.
Proof. reflexivity. Qed.

Lemma or_number_zero `{Host} (a : number) :
  or_number a pos_zero = if is_nan a || is_zero a then pos_zero else a.
Proof. destruct a as [[]|[]| |[]]; reflexivity. Qed.

(** ** Clamping *)

Definition in_range (x : number) : Prop :=
  le (of_Z 0) x = true /\ le x (of_Z 100) = true.

Lemma in_range_not_nan (x : number) : in_range x -> is_nan x = false.
Proof. intros [H0 _]. destruct x; auto; discriminate. Qed.

Lemma clamp_nan (lo hi : number) : Sanity.clamp NaN lo hi = NaN.
Proof.
  unfold Sanity.clamp, Math_min, Math_max.
  destruct hi; cbn; destruct lo; reflexivity.
Qed.

Lemma Math_max_zero (y : number) :
  Math_max pos_zero y =
  match y with
  | S754_finite false _ _ | S754_infinity false => y
  | S754_nan => NaN
  | _ => pos_zero
  end.
Proof. destruct y as [[]|[]| |[]]; reflexivity. Qed.

Lemma clamp_in_range (x : number) :
  is_nan x = false ->
  in_range (Sanity.clamp x (of_Z 0) (of_Z 100))
  /\ is_neg_zero (Sanity.clamp x (of_Z 0) (of_Z 100)) = false.
Proof.
  intros Hx. unfold in_range. rewrite of_Z_0, of_Z_100.
  unfold Sanity.clamp, Math_min.
  destruct (SFcompare (S754_finite false 7036874417766400 (-46)) x)
    as [c|] eqn:Hc.
  2:{ destruct x as [[]|[]| |[]]; discriminate. }
  assert (Hle : c <> Lt ->
                le x (S754_finite false 7036874417766400 (-46)) = true).
  { intros Hne. unfold le, SFleb. rewrite SFcompare_swap, Hc.
    destruct c; cbn; congruence. }
  change (is_neg_zero (S754_finite false 7036874417766400 (-46))) with false.
  destruct c; cycle 1.
  - vm_compute. auto.
  - specialize (Hle ltac:(congruence)). rewrite Math_max_zero.
    destruct x as [[]|[]| |[] m e]; try discriminate; repeat split; auto.
  - specialize (Hle ltac:(congruence)). rewrite Math_max_zero.
    destruct x as [[]|[]| |[] m e]; try discriminate; repeat split; auto.
Qed.

(** The clamp of a number is never NaN, so it is NaN only for NaN. *)
Lemma clamp_range_not_nan (x : number) :
  is_nan x = false -> is_nan (Sanity.clamp x (of_Z 0) (of_Z 100)) = false.
Proof. intros Hx. apply in_range_not_nan, clamp_in_range, Hx. Qed.

Lemma SFcompare_refl (x : number) : is_nan x = false -> SFcompare x x = Some Eq.
Proof.
  destruct x as [[]|[]| |[] m e]; try reflexivity; try discriminate; intros _;
    cbn [SFcompare]; rewrite Z.compare_refl;
    change (Pos.compare_cont Eq m m) with (Pos.compare m m);
    by rewrite Pos.compare_refl.
Qed.

Lemma strict_eq_refl (x : number) : is_nan x = false -> strict_eq x x = true.
Proof. intros Hx. unfold strict_eq, SFeqb. by rewrite SFcompare_refl. Qed.

(** A value already in range is its own clamp. *)
Lemma clamp_in_range_id (x : number) :
  in_range x -> is_neg_zero x = false -> Sanity.clamp x (of_Z 0) (of_Z 100) = x.
Proof.
  intros [H0 H100] Hz. revert H0 H100. rewrite of_Z_0, of_Z_100.
  unfold Sanity.clamp, Math_min, le, SFleb. intros H0.
  rewrite (SFcompare_swap x (S754_finite false 7036874417766400 (-46))).
  destruct (SFcompare x (S754_finite false 7036874417766400 (-46)))
    as [[]|] eqn:Hc; cbn [fmap option_fmap option_map CompOpp];
    try discriminate; intros _.
  - change (is_neg_zero (S754_finite false 7036874417766400 (-46))) with false.
    cbv iota. rewrite Math_max_zero.
    destruct x as [[]|[]| |[]]; try reflexivity; discriminate.
  - rewrite Math_max_zero.
    destruct x as [[]|[]| |[]]; try reflexivity; discriminate.
Qed.

(** In range, the clamp is the number itself as far as [===] can tell
    (the negative zero becomes the positive one). *)
Lemma clamp_in_range_eq (x : number) :
  in_range x -> strict_eq (Sanity.clamp x (of_Z 0) (of_Z 100)) x = true.
Proof.
  intros Hr. destruct (is_neg_zero x) eqn:Hz.
  - destruct x as [[]|[]| |[]]; try discriminate. reflexivity.
  - rewrite clamp_in_range_id by done.
    by apply strict_eq_refl, in_range_not_nan.
Qed.

(** Below the range the clamp is the lower bound, above it the upper. *)
Lemma clamp_below (x : number) :
  lt x (of_Z 0) = true -> Sanity.clamp x (of_Z 0) (of_Z 100) = of_Z 0.
Proof.
  rewrite of_Z_0, of_Z_100.
  destruct x as [[]|[]| |[] m e]; try discriminate; reflexivity.
Qed.

Lemma clamp_above (x : number) :
  lt (of_Z 100) x = true -> Sanity.clamp x (of_Z 0) (of_Z 100) = of_Z 100.
Proof.
  rewrite of_Z_0, of_Z_100. unfold lt, SFltb, Sanity.clamp, Math_min.
  destruct (SFcompare (S754_finite false 7036874417766400 (-46)) x)
    as [[]|]; try discriminate.
  intros _. reflexivity.
Qed.

(** A number is in the range, below it or above it. *)
Lemma range_cases (x : number) :
  is_nan x = false ->
  in_range x \/ lt x (of_Z 0) = true \/ lt (of_Z 100) x = true.
Proof.
  intros Hx. unfold in_range.
  destruct (le (of_Z 0) x) eqn:H0; cycle 1.
  { right; left. apply ge_false_lt; [done|reflexivity|exact H0]. }
  destruct (le x (of_Z 100)) eqn:H100; [by left|].
  right; right. apply ge_false_lt; [reflexivity|done|exact H100].
Qed.

(** ** Addition *)

(** Rounding never produces NaN: the mantissa stays non-negative through
    the shifts. *)
Lemma shr_1_nonneg (mrs : shr_record) :
  0 <= shr_m mrs -> 0 <= shr_m (shr_1 mrs).
Proof.
  destruct mrs as [m r s']. cbn [shr_m shr_1].
  destruct m as [|[p|p|]|p]; cbn [shr_m]; lia.
Qed.

Lemma iter_pos_preserves {A} (P : A -> Prop) (f : A -> A) :
  (forall a, P a -> P (f a)) -> forall n a, P a -> P (SpecFloat.iter_pos f n a).
Proof.
  intros Hf. induction n as [n IH|n IH|]; intros a Ha; cbn [SpecFloat.iter_pos]; auto.
Qed.

Lemma shr_nonneg (mrs : shr_record) (e n : Z) :
  0 <= shr_m mrs -> 0 <= shr_m (fst (shr mrs e n)).
Proof.
  intros Hm. destruct n as [|p|p]; cbn [shr fst]; auto.
  apply (iter_pos_preserves (fun r => 0 <= shr_m r)); auto using shr_1_nonneg.
Qed.

Lemma shr_fexp_nonneg (m e : Z) (l : location) :
  0 <= m -> 0 <= shr_m (fst (shr_fexp prec emax m e l)).
Proof.
  intros Hm. unfold shr_fexp. apply shr_nonneg.
  destruct l as [|[]]; cbn [shr_record_of_loc shr_m]; exact Hm.
Qed.

Lemma round_nearest_even_nonneg (m : Z) (l : location) :
  0 <= m -> 0 <= round_nearest_even m l.
Proof.
  intros Hm. unfold round_nearest_even.
  destruct l as [|[]]; try destruct (Z.even m); lia.
Qed.

Lemma binary_round_aux_not_nan (sx : bool) (m e : Z) (l : location) :
  0 <= m -> is_nan (binary_round_aux prec emax sx m e l) = false.
Proof.
  intros Hm. unfold binary_round_aux.
  pose proof (shr_fexp_nonneg m e l Hm) as H1.
  destruct (shr_fexp prec emax m e l) as [mrs1 e1]. cbn [fst] in H1.
  pose proof (shr_fexp_nonneg _ e1 loc_Exact
                (round_nearest_even_nonneg _ (loc_of_shr_record mrs1) H1)) as H2.
  destruct (shr_fexp prec emax _ e1 loc_Exact) as [mrs2 e2]. cbn [fst] in H2.
  destruct (shr_m mrs2) as [|p|p]; try lia; try reflexivity.
  destruct (e2 <=? emax - prec); reflexivity.
Qed.

Lemma binary_normalize_not_nan (m e : Z) (szero : bool) :
  is_nan (binary_normalize prec emax m e szero) = false.
Proof.
  unfold binary_normalize, binary_round.
  destruct m as [|p|p]; try reflexivity;
    destruct (shl_align _ _ _) as [mz ez];
    apply binary_round_aux_not_nan; lia.
Qed.

Definition is_finite (x : number) : bool :=
  match x with
  | S754_zero _ | S754_finite _ _ _ => true
  | _ => false
  end.

Lemma add_not_nan (x y : number) :
  is_finite x = true -> is_nan y = false -> is_nan (add x y) = false.
Proof.
  unfold add.
  destruct x as [[]|[]| |sx mx ex], y as [[]|[]| |sy my ey];
    cbn [is_finite is_nan SFadd]; try congruence; intros _ _.
  apply binary_normalize_not_nan.
Qed.

Lemma in_range_finite (x : number) : in_range x -> is_finite x = true.
Proof.
  intros [H0 H1]. destruct x as [[]|[]| |[]]; try reflexivity; discriminate.
Qed.

End NumberFacts.

(* ================================================================== *)
(** * Facts about computations *)
(* ================================================================== *)

Definition log_events {T} (evs : list event) (c : cfg T) : cfg T :=
  Cfg (mod_state c) (add_trace evs (world c)).

Definition is_call (ev : event) : bool :=
  match ev with EvCall _ _ => true | _ => false end.

Definition is_window (ev : event) : bool :=
  match ev with EvWindow _ _ => true | _ => false end.

(** The calls in a trace, in order. *)
Definition calls (tr : list event) : list (callback * detail) :=
  omap (fun ev => match ev with EvCall cb d => Some (cb, d) | _ => None end) tr.

(** What a run from [c] to [c'] added to the trace. *)
Definition new_events {T} (c c' : cfg T) : list event :=
  drop (length (trace (world c))) (trace (world c')).

(** The calls made to one callback, in order. *)
Definition calls_to (cb : callback) (tr : list event) : list detail :=
  omap (fun ev => match ev with
                  | EvCall cb' d => if bool_decide (cb' = cb) then Some d else None
                  | _ => None
                  end) tr.

Section ComputationFacts.
Context `{Host} {T : Type}.
Implicit Types (c : cfg T) (w : World).

Lemma add_trace_nil w : add_trace [] w = w.
Proof. destruct w. unfold add_trace. cbn. by rewrite app_nil_r. Qed.

Lemma add_trace_app evs1 evs2 w :
  add_trace evs2 (add_trace evs1 w) = add_trace (evs1 ++ evs2) w.
Proof. unfold add_trace. cbn. by rewrite app_assoc. Qed.

Lemma log_events_nil c : log_events [] c = c.
Proof. destruct c. unfold log_events. cbn. by rewrite add_trace_nil. Qed.

Lemma log_events_app evs1 evs2 c :
  log_events evs2 (log_events evs1 c) = log_events (evs1 ++ evs2) c.
Proof. unfold log_events. cbn. by rewrite add_trace_app. Qed.

Lemma bind_Ok {A B} (m : M T A) (k : A -> M T B) c c' a :
  m c = (c', Ok a) -> bind m k c = k a c'.
Proof. unfold bind. by intros ->. Qed.

Lemma bind_Throw {A B} (m : M T A) (k : A -> M T B) c c' e :
  m c = (c', Throw e) -> bind m k c = (c', Throw e).
Proof. unfold bind. by intros ->. Qed.

Lemma emit_spec ev c : emit ev c = (log_events [ev] c, Ok tt).
Proof. reflexivity. Qed.

Lemma call_spec cb d c :
  call cb d c =
  (log_events [EvCall cb d] c,
   if callback_throws (trace (world c)) cb d then Throw (Thrown cb) else Ok tt).
Proof.
  unfold call, bind, get_world, emit, put_world, throw, ret. cbn.
  by destruct (callback_throws _ _ _).
Qed.

(** A call in a [try] with an empty [catch]. *)
Lemma try_call_spec cb d c :
  try_catch (call cb d) (fun _ => ret tt) c = (log_events [EvCall cb d] c, Ok tt).
Proof.
  unfold try_catch. rewrite call_spec.
  by destruct (callback_throws _ _ _).
Qed.

(** The loop of [notify]: every subscriber is called, whoever throws. *)
Lemma for_of_try_call (l : list callback) d c :
  for_of l (fun cb => try_catch (call cb d) (fun _ => ret tt)) c =
  (log_events ((fun cb => EvCall cb d) <$> l) c, Ok tt).
Proof.
  revert c. induction l as [|cb l IH]; intros c; cbn [for_of fmap list_fmap].
  - by rewrite log_events_nil.
  - erewrite bind_Ok by apply try_call_spec.
    rewrite IH, log_events_app. reflexivity.
Qed.

(** Without the [try], the first callback that throws ends the loop. *)
Lemma for_of_call_throws (cb : callback) (l : list callback) d c :
  callback_throws (trace (world c)) cb d = true ->
  for_of (cb :: l) (fun cb => call cb d) c =
  (log_events [EvCall cb d] c, Throw (Thrown cb)).
Proof.
  intros Hthrow. cbn [for_of]. erewrite bind_Throw; [reflexivity|].
  by rewrite call_spec, Hthrow.
Qed.

Definition window_events (type : jsstring) (d : detail) : list event :=
  if CustomEvent_defined then [EvWindow type d] else [].

Lemma try_window_spec type d c :
  try_catch (window_dispatchEvent type d) (fun _ => ret tt) c =
  (log_events (window_events type d) c, Ok tt).
Proof.
  unfold try_catch, window_dispatchEvent, window_events.
  destruct CustomEvent_defined.
  - by rewrite emit_spec.
  - cbn. by rewrite log_events_nil.
Qed.

Lemma new_events_log evs c : new_events c (log_events evs c) = evs.
Proof. unfold new_events. cbn. apply drop_app_length. Qed.

Lemma new_events_log_world evs c (t : T) w :
  trace w = trace (world c) ->
  new_events c (log_events evs (Cfg t w)) = evs.
Proof. intros Hw. unfold new_events. cbn. rewrite Hw. apply drop_app_length. Qed.

Lemma calls_app tr1 tr2 : calls (tr1 ++ tr2) = calls tr1 ++ calls tr2.
Proof. unfold calls. apply omap_app. Qed.

Lemma calls_fmap_call (l : list callback) d :
  calls ((fun cb => EvCall cb d) <$> l) = (fun cb => (cb, d)) <$> l.
Proof. induction l as [|cb l IH]; [done|]. cbn. by rewrite <- IH. Qed.

Lemma calls_window_events type d : calls (window_events type d) = [].
Proof. unfold window_events. by destruct CustomEvent_defined. Qed.

Lemma calls_to_app cb tr1 tr2 :
  calls_to cb (tr1 ++ tr2) = calls_to cb tr1 ++ calls_to cb tr2.
Proof. unfold calls_to. apply omap_app. Qed.

End ComputationFacts.

(* ================================================================== *)
(** * sanity.js: what the operations do *)
(* ================================================================== *)

Module SanityFacts.
Import Sanity.

Section Facts.
Context `{Host}.
Implicit Types (c : cfg SanityState) (s : SanityState).

(** What [notify] writes on the mounted badge. *)
Definition badge_events s (tr : list event) : list event :=
  match mountedBadge s with
  | Some badge =>
      match badge_value_node tr badge with
      | Some el => [EvTextContent el (NumberToString (value s) ++ str "/100")]
      | None => []
      end
  | None => []
  end.

(** Everything [notify] does, from the state and the trace so far. *)
Definition notify_events s (tr : list event) : list event :=
  let fanout :=
    ((fun cb => EvCall cb (DNumber (value s))) <$> subscribers s)
    ++ window_events (str "sanity:change") (DNumber (value s)) in
  fanout ++ badge_events s (tr ++ fanout).

Lemma notify_spec c :
  notify c =
  (log_events (notify_events (mod_state c) (trace (world c))) c, Ok tt).
Proof.
  unfold notify, notify_events, badge_events.
  rewrite (bind_Ok _ _ c c (mod_state c)) by reflexivity.
  erewrite bind_Ok by apply for_of_try_call.
  erewrite bind_Ok by apply try_window_spec.
  rewrite log_events_app.
  erewrite bind_Ok by reflexivity.
  cbn [mod_state log_events].
  destruct (mountedBadge (mod_state c)) as [badge|].
  - erewrite bind_Ok by reflexivity. cbn [world log_events add_trace trace].
    destruct (badge_value_node _ badge) as [el|].
    + by rewrite emit_spec, log_events_app.
    + by rewrite app_nil_r.
  - by rewrite app_nil_r.
Qed.

Lemma sanity_modify_spec (f : SanityState -> SanityState) c :
  modify f c = (Cfg (f (mod_state c)) (world c), Ok tt).
Proof. reflexivity. Qed.

(** The state and result of [set] and [add] once the new value [nv] is
    computed. *)
Definition store (nv : number) c : cfg SanityState * result number :=
  if strict_eq nv (value (mod_state c)) then (c, Ok (value (mod_state c)))
  else
    let s' := set_value nv (mod_state c) in
    (log_events (notify_events s' (trace (world c))) (Cfg s' (world c)),
     Ok nv).

Lemma store_spec (nv : number) c :
  (if strict_eq nv (value (mod_state c)) then ret (value (mod_state c))
   else
     modify (set_value nv) ;;
     notify ;;
     let* s := get_state in ret (value s)) c
  = store nv c.
Proof.
  unfold store. destruct (strict_eq nv _); [reflexivity|].
  erewrite bind_Ok by apply sanity_modify_spec.
  erewrite bind_Ok by apply notify_spec.
  reflexivity.
Qed.

Lemma sanity_set_spec (v : jsval) c :
  set v c =
  store (clamp (or_number (ToNumber v) (of_Z 0))
           (min (mod_state c)) (max (mod_state c))) c.
Proof.
  unfold set. rewrite (bind_Ok _ _ c c (mod_state c)) by reflexivity.
  apply store_spec.
Qed.

Lemma sanity_add_spec (delta : jsval) c :
  add delta c =
  store (clamp (Num.add (value (mod_state c))
                  (or_number (ToNumber delta) (of_Z 0)))
           (min (mod_state c)) (max (mod_state c))) c.
Proof.
  unfold add. rewrite (bind_Ok _ _ c c (mod_state c)) by reflexivity.
  apply store_spec.
Qed.

Lemma get_spec c : get c = (c, Ok (value (mod_state c))).
Proof. reflexivity. Qed.

(** ** The invariant of [STATE] *)

(** The bounds are the constants 0 and 100 and the value is a number
    between them (and not the negative zero). *)
Definition wf s : Prop :=
  min s = of_Z 0 /\ max s = of_Z 100 /\
  in_range (value s) /\ is_neg_zero (value s) = false.

Lemma wf_STATE0 : wf STATE0.
Proof. repeat split; vm_compute; reflexivity. Qed.

Lemma wf_set_value (x : number) s :
  wf s -> is_nan x = false ->
  wf (set_value (clamp x (min s) (max s)) s).
Proof.
  intros (Hmin & Hmax & _) Hx. unfold wf. cbn.
  rewrite Hmin, Hmax. pose proof (clamp_in_range x Hx) as [? ?]. auto.
Qed.

Lemma wf_store (x : number) c :
  wf (mod_state c) -> is_nan x = false ->
  wf (mod_state (store (clamp x (min (mod_state c)) (max (mod_state c))) c).1).
Proof.
  intros Hwf Hx. unfold store. destruct (strict_eq _ _); [exact Hwf|].
  cbn. by apply wf_set_value.
Qed.

Lemma or_zero_not_nan (v : jsval) :
  is_nan (or_number (ToNumber v) (of_Z 0)) = false.
Proof. by apply or_number_not_nan. Qed.

Lemma sum_not_nan (v : jsval) s :
  wf s -> is_nan (Num.add (value s) (or_number (ToNumber v) (of_Z 0))) = false.
Proof.
  intros (_ & _ & Hr & _). apply add_not_nan.
  - by apply in_range_finite.
  - apply or_zero_not_nan.
Qed.

Lemma wf_set (v : jsval) c : wf (mod_state c) -> wf (mod_state (set v c).1).
Proof. intros Hwf. rewrite sanity_set_spec. apply wf_store; auto using or_zero_not_nan. Qed.

Lemma wf_add (v : jsval) c : wf (mod_state c) -> wf (mod_state (add v c).1).
Proof. intros Hwf. rewrite sanity_add_spec. apply wf_store; auto using sum_not_nan. Qed.

(** What [store] leaves in [STATE.value]. *)
Lemma store_value (x : number) c :
  wf (mod_state c) -> is_nan x = false ->
  let nv := clamp x (of_Z 0) (of_Z 100) in
  store nv c = (((store nv c).1), Ok nv)
  /\ value (mod_state (store nv c).1) = nv.
Proof.
  intros (Hmin & Hmax & Hr & Hz) Hx nv. unfold store.
  destruct (strict_eq nv (value (mod_state c))) eqn:Heq; cbn; [|done].
  assert (nv = value (mod_state c)) as <-; [|done].
  destruct (is_zero (value (mod_state c))) eqn:Hzero.
  - pose proof (strict_eq_zero _ _ Heq Hzero) as Hnv.
    pose proof (clamp_in_range x Hx) as [_ Hnz]. fold nv in Hnz.
    destruct nv as [[]|[]| |[]], (value (mod_state c)) as [[]|[]| |[]];
      cbn in *; congruence.
  - by apply strict_eq_eq.
Qed.

(** ** Subscribing *)

Lemma indexOf_absent (f : callback) (l : list callback) :
  f ∉ l -> indexOf f l = -1.
Proof.
  induction l as [|y l IH]; intros Hf; cbn [indexOf]; [done|].
  apply not_elem_of_cons in Hf as [Hne Hf].
  rewrite bool_decide_false by congruence.
  rewrite (IH Hf). reflexivity.
Qed.

Lemma indexOf_first (f : callback) (l1 l2 : list callback) :
  f ∉ l1 -> indexOf f (l1 ++ f :: l2) = Z.of_nat (length l1).
Proof.
  induction l1 as [|y l1 IH]; intros Hf; cbn [indexOf app length].
  - by rewrite bool_decide_true.
  - apply not_elem_of_cons in Hf as [Hne Hf].
    rewrite bool_decide_false by congruence.
    rewrite (IH Hf).
    destruct (Z.ltb_spec (Z.of_nat (length l1)) 0); lia.
Qed.

Lemma splice1_middle {A} (l1 l2 : list A) (x : A) :
  splice1 (Z.of_nat (length l1)) (l1 ++ x :: l2) = l1 ++ l2.
Proof.
  unfold splice1. rewrite Nat2Z.id.
  rewrite take_app_length.
  replace (S (length l1)) with (length l1 + 1)%nat by lia.
  by rewrite drop_app_add.
Qed.

Lemma unsubscribe_absent (f : callback) c :
  f ∉ subscribers (mod_state c) -> unsubscribe f c = (c, Ok tt).
Proof.
  intros Hf. unfold unsubscribe.
  rewrite (bind_Ok _ _ c c (mod_state c)) by reflexivity.
  by rewrite (indexOf_absent _ _ Hf).
Qed.

Lemma unsubscribe_first (f : callback) (l1 l2 : list callback) c :
  subscribers (mod_state c) = l1 ++ f :: l2 -> f ∉ l1 ->
  unsubscribe f c =
  (Cfg (set_subscribers (l1 ++ l2) (mod_state c)) (world c), Ok tt).
Proof.
  intros Hl Hf. unfold unsubscribe.
  rewrite (bind_Ok _ _ c c (mod_state c)) by reflexivity.
  rewrite Hl, (indexOf_first _ _ _ Hf), splice1_middle.
  destruct (Z.leb_spec 0 (Z.of_nat (length l1))); [reflexivity|lia].
Qed.

Lemma subscribe_spec (f : callback) c :
  subscribe (VObject (OFunction f)) c =
  (Cfg (set_subscribers (subscribers (mod_state c) ++ [f]) (mod_state c))
     (add_trace [EvCall f (DNumber (value (mod_state c)))] (world c)),
   Ok (unsubscribe f)).
Proof.
  unfold subscribe. cbn [is_function].
  erewrite bind_Ok by apply sanity_modify_spec.
  erewrite bind_Ok by reflexivity.
  erewrite bind_Ok by apply try_call_spec.
  reflexivity.
Qed.

(** ** What leaves [STATE.value] alone *)

Definition keeps_value {A} (m : M SanityState A) : Prop :=
  forall c, value (mod_state (m c).1) = value (mod_state c).

Lemma keeps_value_bind {A B} (m : M SanityState A) (k : A -> M SanityState B) :
  keeps_value m -> (forall a, keeps_value (k a)) -> keeps_value (bind m k).
Proof.
  intros Hm Hk c. unfold bind. specialize (Hm c).
  destruct (m c) as [c' [a|e]]; cbn [fst] in *; [|done].
  by rewrite Hk.
Qed.

Lemma keeps_value_ret {A} (a : A) : keeps_value (ret a).
Proof. done. Qed.

Lemma keeps_value_throw {A} (e : exn) : keeps_value (throw (A := A) e).
Proof. done. Qed.

Lemma keeps_value_get_world : keeps_value get_world.
Proof. done. Qed.

Lemma keeps_value_get_state : keeps_value get_state.
Proof. done. Qed.

Lemma keeps_value_emit ev : keeps_value (emit ev).
Proof. done. Qed.

Lemma keeps_value_notify : keeps_value notify.
Proof. intros c. by rewrite notify_spec. Qed.

Lemma keeps_value_mount b : keeps_value (modify (set_mountedBadge b)).
Proof. done. Qed.

Lemma keeps_value_ensureBadge o : keeps_value (ensureBadge o).
Proof.
  destruct o as [container|]; [|done]. unfold ensureBadge.
  apply keeps_value_bind; [done|]. intros w.
  destruct (existing_pill _ _).
  - apply keeps_value_bind; [apply keeps_value_mount|intros _].
    apply keeps_value_bind; [apply keeps_value_notify|done].
  - apply keeps_value_bind; [apply keeps_value_emit|intros _].
    apply keeps_value_bind; [apply keeps_value_mount|intros _].
    apply keeps_value_bind; [apply keeps_value_notify|done].
Qed.

(** [init] leaves in [STATE.value] the clamped start value, whether or
    not the mount point can be found. *)
Lemma init_value (opts : option InitOptions) c :
  let o := assign (options (mod_state c))
             (default {| opt_start := None; opt_mount := None |} opts) in
  value (mod_state (init opts c).1) =
  clamp (or_number (ToNumber (nullish (start o) (VNumber (of_Z 100))))
           (of_Z 100))
    (min (mod_state c)) (max (mod_state c)).
Proof.
  intros o. unfold init.
  erewrite bind_Ok by apply sanity_modify_spec.
  erewrite bind_Ok by apply sanity_modify_spec.
  match goal with
  | |- value (mod_state (bind ?m ?k ?c').1) = _ =>
      assert (Hk : keeps_value (bind m k)); [|exact (Hk c')]
  end.
  apply keeps_value_bind; [done|]. intros s.
  apply keeps_value_bind; [|intros; apply keeps_value_notify].
  destruct (ToBoolean _); [|done].
  apply keeps_value_bind.
  - destruct (mount (options s)) as [| | | | selector|[| |]]; try done.
    apply keeps_value_bind; [done|]. intros w.
    by destruct (document_querySelector _ _).
  - intros [container|]; [|done].
    apply keeps_value_bind; [apply keeps_value_ensureBadge|done].
Qed.

(** ** Randomness *)

Fixpoint count_randoms (n : nat) (w : World) : World :=
  match n with
  | O => w
  | S n' => count_randoms n' (count_random w)
  end.

Lemma random_spec c :
  random c =
  (Cfg (mod_state c) (count_random (world c)),
   Ok (Math_random (random_calls (world c)))).
Proof. reflexivity. Qed.

Lemma gt_not_lt (x y : number) : gt x y = true -> lt x y = false.
Proof.
  unfold gt, lt, SFltb. rewrite (SFcompare_swap x y).
  destruct (SFcompare x y) as [[]|]; cbn; congruence.
Qed.

(** At intensity 0 a character survives a roll above 0. *)
Lemma mutate_zero_positive (ch : N) c :
  gt (Math_random (random_calls (world c))) (of_Z 0) = true ->
  mutate (of_Z 0) ch c =
  (if glitchable ch then Cfg (mod_state c) (count_random (world c)) else c,
   Ok [ch]).
Proof.
  intros Hroll. unfold mutate. destruct (glitchable ch); cbn [negb].
  - erewrite bind_Ok by apply random_spec. by rewrite Hroll.
  - by destruct c.
Qed.

Lemma map_join_zero_positive (text : jsstring) c :
  (forall n, gt (Math_random n) (of_Z 0) = true) ->
  map_join (mutate (of_Z 0)) text c =
  (Cfg (mod_state c)
     (count_randoms (length (filter (fun ch => glitchable ch = true) text))
        (world c)),
   Ok text).
Proof.
  intros Hrolls. revert c.
  induction text as [|ch text IH]; intros c; cbn [map_join].
  - by destruct c.
  - erewrite bind_Ok by (apply mutate_zero_positive, Hrolls).
    rewrite filter_cons. destruct (glitchable ch) eqn:Hg.
    + rewrite decide_True by done.
      erewrite bind_Ok by apply IH. reflexivity.
    + rewrite decide_False by done.
      erewrite bind_Ok by apply IH. reflexivity.
Qed.

(** ** Every state the interface can reach is well formed *)

Definition keeps_state {A} (m : M SanityState A) : Prop :=
  forall c, mod_state (m c).1 = mod_state c.

Definition keeps_wf {A} (m : M SanityState A) : Prop :=
  forall c, wf (mod_state c) -> wf (mod_state (m c).1).

Lemma keeps_state_bind {A B} (m : M SanityState A) (k : A -> M SanityState B) :
  keeps_state m -> (forall a, keeps_state (k a)) -> keeps_state (bind m k).
Proof.
  intros Hm Hk c. unfold bind. specialize (Hm c).
  destruct (m c) as [c' [a|e]]; cbn [fst] in *; [|done].
  by rewrite Hk.
Qed.

Lemma keeps_wf_bind {A B} (m : M SanityState A) (k : A -> M SanityState B) :
  keeps_wf m -> (forall a, keeps_wf (k a)) -> keeps_wf (bind m k).
Proof.
  intros Hm Hk c Hwf. unfold bind. specialize (Hm c Hwf).
  destruct (m c) as [c' [a|e]]; cbn [fst] in *; [|done].
  by apply Hk.
Qed.

Lemma keeps_state_wf {A} (m : M SanityState A) : keeps_state m -> keeps_wf m.
Proof. intros Hm c Hwf. by rewrite Hm. Qed.

Lemma keeps_wf_modify (f : SanityState -> SanityState) :
  (forall s, wf s -> wf (f s)) -> keeps_wf (modify f).
Proof. intros Hf c Hwf. by apply Hf. Qed.

Lemma keeps_state_notify : keeps_state notify.
Proof. intros c. by rewrite notify_spec. Qed.

Lemma keeps_state_random : keeps_state random.
Proof. done. Qed.

Lemma keeps_state_call cb d : keeps_state (call cb d).
Proof. intros c. by rewrite call_spec. Qed.

Lemma keeps_state_mutate intensity ch : keeps_state (mutate intensity ch).
Proof.
  unfold mutate. destruct (negb _); [done|].
  apply keeps_state_bind; [done|]. intros roll. destruct (gt _ _); [done|].
  apply keeps_state_bind; [done|]. intros r.
  destruct (index _ _) as [[]|]; done.
Qed.

Lemma keeps_state_map_join intensity text :
  keeps_state (map_join (mutate intensity) text).
Proof.
  induction text as [|ch text IH]; [done|]. cbn [map_join].
  apply keeps_state_bind; [apply keeps_state_mutate|]. intros a.
  by apply keeps_state_bind.
Qed.

Lemma keeps_state_wrapTypeText typeFn text : keeps_state (wrapTypeText typeFn text).
Proof.
  unfold wrapTypeText. destruct (is_function typeFn) as [f|]; [|done].
  unfold wrapped. apply keeps_state_bind; [done|]. intros v.
  apply keeps_state_bind; [apply keeps_state_map_join|]. intros glitched.
  apply keeps_state_bind; [done|]. intros r. apply keeps_state_call.
Qed.

Lemma wf_set_mountedBadge b s : wf s -> wf (set_mountedBadge b s).
Proof. done. Qed.

Lemma wf_set_options o s : wf s -> wf (set_options o s).
Proof. done. Qed.

Lemma wf_set_subscribers l s : wf s -> wf (set_subscribers l s).
Proof. done. Qed.

Lemma keeps_wf_ensureBadge o : keeps_wf (ensureBadge o).
Proof.
  destruct o as [container|]; [|by intros ? ?]. unfold ensureBadge.
  apply keeps_wf_bind; [by intros ? ?|]. intros w.
  pose proof (keeps_state_wf _ keeps_state_notify) as Hnotify.
  destruct (existing_pill _ _).
  - apply keeps_wf_bind; [by apply keeps_wf_modify|intros _].
    apply keeps_wf_bind; [apply Hnotify|by intros ? ?].
  - apply keeps_wf_bind; [by intros ? ?|intros _].
    apply keeps_wf_bind; [by apply keeps_wf_modify|intros _].
    apply keeps_wf_bind; [apply Hnotify|by intros ? ?].
Qed.

Lemma keeps_wf_init opts : keeps_wf (init opts).
Proof.
  unfold init.
  apply keeps_wf_bind; [by apply keeps_wf_modify|intros _].
  apply keeps_wf_bind.
  { apply keeps_wf_modify. intros s Hwf. apply wf_set_value; [done|].
    by apply or_number_not_nan. }
  intros _. apply keeps_wf_bind; [by intros ? ?|]. intros s.
  apply keeps_wf_bind; [|intros; apply keeps_state_wf, keeps_state_notify].
  destruct (ToBoolean _); [|by intros ? ?].
  apply keeps_wf_bind.
  - destruct (mount (options s)) as [| | | | selector|[| |]]; try (by intros ? ?).
    apply keeps_wf_bind; [by intros ? ?|]. intros w.
    destruct (document_querySelector _ _); by intros ? ?.
  - intros [container|]; [|by intros ? ?].
    apply keeps_wf_bind; [apply keeps_wf_ensureBadge|by intros ? ?].
Qed.

Lemma keeps_wf_unsubscribe f : keeps_wf (unsubscribe f).
Proof.
  unfold unsubscribe. apply keeps_wf_bind; [by intros ? ?|]. intros s.
  destruct (0 <=? _); [|by intros ? ?]. by apply keeps_wf_modify.
Qed.

Lemma keeps_wf_subscribe cb : keeps_wf (subscribe cb).
Proof.
  unfold subscribe. destruct (is_function cb) as [f|]; [|by intros ? ?].
  apply keeps_wf_bind; [by apply keeps_wf_modify|intros _].
  apply keeps_wf_bind; [by intros ? ?|]. intros s.
  apply keeps_wf_bind; [|by intros ? ?].
  apply keeps_state_wf. intros c. by rewrite try_call_spec.
Qed.

(** One use of the interface. *)
Inductive api_call :=
| CallInit (opts : option InitOptions)
| CallGet
| CallSet (v : jsval)
| CallAdd (delta : jsval)
| CallChange (delta : jsval)
| CallSubscribe (cb : jsval)
| CallOnChange (cb : jsval)
| CallUnsubscribe (f : callback)      (* a function [subscribe] returned *)
| CallWrapped (typeFn text : jsval).  (* [wrapTypeText(typeFn)(text)] *)

Definition perform (a : api_call) (c : cfg SanityState) : cfg SanityState :=
  match a with
  | CallInit opts => (init opts c).1
  | CallGet => (get c).1
  | CallSet v => (set v c).1
  | CallAdd delta => (add delta c).1
  | CallChange delta => (change delta c).1
  | CallSubscribe cb => (subscribe cb c).1
  | CallOnChange cb => (onChange cb c).1
  | CallUnsubscribe f => (unsubscribe f c).1
  | CallWrapped typeFn text => (wrapTypeText typeFn text c).1
  end.

(** The states reached from the loaded module, in any world. *)
Definition reachable (c : cfg SanityState) : Prop :=
  exists (w : World) (l : list api_call),
    c = foldl (fun c a => perform a c) (Cfg STATE0 w) l.

Lemma perform_wf (a : api_call) c : wf (mod_state c) -> wf (mod_state (perform a c)).
Proof.
  destruct a; cbn [perform].
  - apply keeps_wf_init.
  - done.
  - apply wf_set.
  - apply wf_add.
  - apply wf_add.
  - apply keeps_wf_subscribe.
  - apply keeps_wf_subscribe.
  - apply keeps_wf_unsubscribe.
  - apply keeps_state_wf, keeps_state_wrapTypeText.
Qed.

(** Whatever is called after the module is loaded, and in whatever world,
    the bounds stay 0 and 100 and the value stays a number between them,
    never NaN and never the negative zero. *)
Lemma reachable_wf c : reachable c -> wf (mod_state c).
Proof.
  intros (w & l & ->). revert w.
  assert (forall c0, wf (mod_state c0) ->
            wf (mod_state (foldl (fun c a => perform a c) c0 l))) as Hall.
  { induction l as [|a l IH]; intros c0 Hwf; [done|].
    cbn [foldl]. by apply IH, perform_wf. }
  intros w. apply Hall, wf_STATE0.
Qed.

End Facts.

End SanityFacts.

(* ================================================================== *)
(** * inventory.js: what the operations do *)
(* ================================================================== *)

Module InventoryFacts.
Import Inventory.

Section Facts.
Context `{Host}.
Implicit Types (c : cfg InventoryState) (s : InventoryState).

(** What one guarded call in [dispatch] leaves in the trace. *)
Definition guarded_call (tr : list event) (cb : callback) (d : detail)
  : list event :=
  EvCall cb d ::
  (if callback_throws tr cb d then [EvConsoleError (Thrown cb)] else []).

(** The loop of [dispatch] over the listeners [cbs]. *)
Fixpoint fanout_events (tr : list event) (d : detail) (cbs : list callback)
  : list event :=
  match cbs with
  | [] => []
  | cb :: rest =>
      guarded_call tr cb d ++ fanout_events (tr ++ guarded_call tr cb d) d rest
  end.

Definition dispatch_events (tr : list event) (type : jsstring) (d : detail)
    (ls : gmap jsstring (list callback)) : list event :=
  let fanout := fanout_events tr d (default [] (ls !! type)) in
  fanout ++ window_events type d.

Lemma guarded_call_spec cb d c :
  try_catch (call cb d) (fun e => emit (EvConsoleError e)) c =
  (log_events (guarded_call (trace (world c)) cb d) c, Ok tt).
Proof.
  unfold try_catch, guarded_call. rewrite call_spec.
  destruct (callback_throws _ _ _); [|reflexivity].
  by rewrite emit_spec, log_events_app.
Qed.

Lemma fanout_spec (cbs : list callback) d c :
  for_of cbs
    (fun cb => try_catch (call cb d) (fun e => emit (EvConsoleError e))) c =
  (log_events (fanout_events (trace (world c)) d cbs) c, Ok tt).
Proof.
  revert c. induction cbs as [|cb cbs IH]; intros c; cbn [for_of fanout_events].
  - by rewrite log_events_nil.
  - erewrite bind_Ok by apply guarded_call_spec.
    rewrite IH, log_events_app. reflexivity.
Qed.

Lemma dispatch_spec type d c :
  dispatch type d c =
  (log_events
     (dispatch_events (trace (world c)) type d (listeners (mod_state c))) c,
   Ok tt).
Proof.
  unfold dispatch, dispatch_events.
  rewrite (bind_Ok _ _ c c (mod_state c)) by reflexivity.
  destruct (listeners (mod_state c) !! type) as [set|]; cbn [default].
  - erewrite bind_Ok by apply fanout_spec.
    by rewrite try_window_spec, log_events_app.
  - erewrite bind_Ok by reflexivity.
    by rewrite try_window_spec.
Qed.

(** Every listener is called, in order, whoever throws. *)
Lemma calls_fanout tr d (cbs : list callback) :
  calls (fanout_events tr d cbs) = (fun cb => (cb, d)) <$> cbs.
Proof.
  revert tr. induction cbs as [|cb cbs IH]; intros tr; [done|].
  cbn [fanout_events]. rewrite calls_app, IH. unfold guarded_call.
  by destruct (callback_throws _ _ _).
Qed.

Lemma calls_dispatch tr type d ls :
  calls (dispatch_events tr type d ls) =
  (fun cb => (cb, d)) <$> default [] (ls !! type).
Proof.
  unfold dispatch_events.
  by rewrite calls_app, calls_fanout, calls_window_events, app_nil_r.
Qed.

Lemma windows_fanout tr d (cbs : list callback) :
  filter (fun ev => is_window ev = true) (fanout_events tr d cbs) = [].
Proof.
  revert tr. induction cbs as [|cb cbs IH]; intros tr; [done|].
  cbn [fanout_events]. rewrite filter_app, IH. unfold guarded_call.
  by destruct (callback_throws _ _ _).
Qed.

Lemma windows_dispatch tr type d ls :
  filter (fun ev => is_window ev = true) (dispatch_events tr type d ls) =
  window_events type d.
Proof.
  unfold dispatch_events. rewrite filter_app, windows_fanout.
  unfold window_events. by destruct CustomEvent_defined.
Qed.

(** ** Persisting *)

(** The world after the guarded [setItem] of [save]. *)
Definition saved (l : list jsstring) (w : World) : World :=
  if setItem_throws (trace w) LS_KEY then w
  else set_localStorage (<[LS_KEY := l]> (localStorage w)) w.

Lemma trace_saved l w : trace (saved l w) = trace w.
Proof. unfold saved. by destruct (setItem_throws _ _). Qed.

Lemma inventory_modify_spec (f : InventoryState -> InventoryState) c :
  modify f c = (Cfg (f (mod_state c)) (world c), Ok tt).
Proof. reflexivity. Qed.

Lemma save_spec c :
  save c =
  (log_events
     (dispatch_events (trace (world c)) change_type
        (DList (items (mod_state c))) (listeners (mod_state c)))
     (Cfg (mod_state c) (saved (items (mod_state c)) (world c))),
   Ok tt).
Proof.
  unfold save.
  assert (Hset : try_catch (let* l := list_items in setItem LS_KEY l)
                   (fun _ => ret tt) c =
                 (Cfg (mod_state c) (saved (items (mod_state c)) (world c)),
                  Ok tt)).
  { unfold try_catch, saved, setItem, list_items, bind, get_state, get_world,
      throw, ret, put_world. cbn.
    destruct (setItem_throws _ _); [by destruct c|reflexivity]. }
  erewrite bind_Ok by apply Hset.
  erewrite bind_Ok by reflexivity.
  rewrite dispatch_spec. cbn [mod_state world]. by rewrite trace_saved.
Qed.

(** The result of a mutation [f] of the items followed by [save]. *)
Definition mutated (f : list jsstring -> list jsstring) c
  : cfg InventoryState :=
  let l' := f (items (mod_state c)) in
  log_events
    (dispatch_events (trace (world c)) change_type (DList l')
       (listeners (mod_state c)))
    (Cfg (set_items l' (mod_state c)) (saved l' (world c))).

Lemma modify_save_spec (f : list jsstring -> list jsstring) c :
  (modify (fun s => set_items (f (items s)) s) ;; save) c =
  (mutated f c, Ok tt).
Proof.
  erewrite bind_Ok by apply inventory_modify_spec. by rewrite save_spec.
Qed.

(** ** The item set *)

Lemma Set_has_add (x : jsstring) (l : list jsstring) :
  Set_has x (Set_add x l) = true.
Proof.
  unfold Set_add, Set_has. destruct (bool_decide (x ∈ l)) eqn:Hin; [done|].
  apply bool_decide_eq_true, elem_of_app. right. by left.
Qed.

Lemma Set_add_present (x : jsstring) (l : list jsstring) :
  x ∈ l -> Set_add x l = l.
Proof. intros Hin. unfold Set_add, Set_has. by rewrite bool_decide_true. Qed.

Lemma Set_delete_absent (x : jsstring) (l : list jsstring) :
  x ∉ l -> Set_delete x l = l.
Proof.
  intros Hin. unfold Set_delete. induction l as [|y l IH]; [done|].
  apply not_elem_of_cons in Hin as [Hne Hin].
  rewrite filter_cons_True by congruence. by rewrite IH.
Qed.

Lemma Set_has_delete (x : jsstring) (l : list jsstring) :
  Set_has x (Set_delete x l) = false.
Proof.
  unfold Set_has, Set_delete. apply bool_decide_false.
  rewrite list_elem_of_filter. tauto.
Qed.

End Facts.

End InventoryFacts.


(* ================================================================== *)
(** * sanity.js: the properties *)
(* ================================================================== *)

Module SanityProps.
Import Sanity SanityFacts.

(** The module as loaded, in a browser where nothing has happened yet. *)
Definition loaded : cfg SanityState := Cfg STATE0 World0.

(** [r] is [y] clamped into [0,100], in the words of the specification:
    [y] itself when it lies in the range (as far as [===] can tell, and
    exactly unless [y] is the negative zero), 0 when it is below the
    range, 100 when it is above. *)
Definition clamped_into_range (y r : number) : Prop :=
  (in_range y /\ strict_eq r y = true /\ (is_neg_zero y = false -> r = y))
  \/ (lt y (of_Z 0) = true /\ r = of_Z 0)
  \/ (lt (of_Z 100) y = true /\ r = of_Z 100).

Lemma clamp_clamped (y : number) :
  is_nan y = false -> clamped_into_range y (clamp y (of_Z 0) (of_Z 100)).
Proof.
  intros Hy. destruct (range_cases y Hy) as [Hr|[Hlo|Hhi]].
  - left. split; [done|]. split; [by apply clamp_in_range_eq|].
    intros Hz. by apply clamp_in_range_id.
  - right; left. split; [done|]. by apply clamp_below.
  - right; right. split; [done|]. by apply clamp_above.
Qed.

(** [Number(v) || 0] is neither NaN nor the negative zero. *)
Lemma or_zero_not_neg_zero `{Host} (v : jsval) :
  is_neg_zero (or_number (ToNumber v) (of_Z 0)) = false.
Proof.
  unfold or_number, truthy. destruct (ToNumber v) as [[]|[]| |[]]; reflexivity.
Qed.

(** A quiet browser: no callback throws and every roll is one half. *)
Definition quiet : Host := example_host [] (fun _ => of_decimal 5 1).

(** C1. In a well-formed [STATE], for every input [v] that [Number]
    converts (every value but a Symbol): [set(v)] returns and stores
    [clamp(Number(v)||0, 0, 100)], which [get()] then returns.  That value
    is [Number(v)||0] itself when this lies in [0,100], 0 when it is
    below and 100 when it is above; a [v] that [Number] maps to NaN counts
    as 0 and so stores 0.  Likewise [add(v)] returns and stores
    [clamp(value + (Number(v)||0), 0, 100)]: the sum itself when it lies
    in [0,100], 0 when it is below and 100 when it is above.  For a
    Symbol both throw the TypeError of [Number] and change nothing. *)
Theorem set_add_clamp `{Host} (c : cfg SanityState) (v : jsval) :
  wf (mod_state c) ->
  let x := or_number (ToNumber v) (of_Z 0) in
  let sum := Num.add (value (mod_state c)) x in
  ((set_any (Value v) c).2 = Ok (clamp x (of_Z 0) (of_Z 100))
   /\ (get (set_any (Value v) c).1).2 = Ok (clamp x (of_Z 0) (of_Z 100))
   /\ in_range (clamp x (of_Z 0) (of_Z 100)))
  /\ (clamped_into_range x (clamp x (of_Z 0) (of_Z 100))
      /\ (in_range x -> clamp x (of_Z 0) (of_Z 100) = x))
  /\ (is_nan (ToNumber v) = true ->
      x = of_Z 0 /\ (get (set_any (Value v) c).1).2 = Ok (of_Z 0))
  /\ ((add_any (Value v) c).2 = Ok (clamp sum (of_Z 0) (of_Z 100))
      /\ (get (add_any (Value v) c).1).2 = Ok (clamp sum (of_Z 0) (of_Z 100))
      /\ in_range (clamp sum (of_Z 0) (of_Z 100)))
  /\ clamped_into_range sum (clamp sum (of_Z 0) (of_Z 100))
  /\ (set_any SymbolValue c = (c, Throw TypeError)
      /\ add_any SymbolValue c = (c, Throw TypeError)).
Proof.
  intros Hwf x sum. cbn [set_any add_any].
  pose proof Hwf as (Hmin & Hmax & _).
  assert (Hx : is_nan x = false) by apply or_zero_not_nan.
  assert (Hsum : is_nan sum = false) by (by apply sum_not_nan).
  assert (Hset : (set v c).2 = Ok (clamp x (of_Z 0) (of_Z 100))
                 /\ (get (set v c).1).2 = Ok (clamp x (of_Z 0) (of_Z 100))).
  { rewrite sanity_set_spec, Hmin, Hmax, get_spec. fold x.
    destruct (store_value x c Hwf Hx) as [-> ->]. done. }
  split; [|split; [|split; [|split; [|split]]]]; [| | | | |done].
  - destruct Hset. repeat split; auto; by apply clamp_in_range.
  - split; [by apply clamp_clamped|].
    intros Hr. apply clamp_in_range_id; [done|apply or_zero_not_neg_zero].
  - intros Hnan. assert (x = of_Z 0) as Hx0.
    { unfold x. destruct (ToNumber v); try discriminate. reflexivity. }
    split; [done|]. destruct Hset as [_ ->]. by rewrite Hx0.
  - rewrite sanity_add_spec, Hmin, Hmax, get_spec. fold x sum.
    destruct (store_value sum c Hwf Hsum) as [-> ->].
    repeat split; by apply clamp_in_range.
  - by apply clamp_clamped.
Qed.

Lemma set_add_clamp_witness :
  wf (mod_state loaded)
  /\ let v := VNumber (of_Z 250) in
     let x := or_number (@ToNumber quiet v) (of_Z 0) in
     let sum := Num.add (value (mod_state loaded)) x in
     ((@set_any quiet (Value v) loaded).2 = Ok (clamp x (of_Z 0) (of_Z 100))
      /\ (get (@set_any quiet (Value v) loaded).1).2
         = Ok (clamp x (of_Z 0) (of_Z 100))
      /\ in_range (clamp x (of_Z 0) (of_Z 100)))
     /\ (clamped_into_range x (clamp x (of_Z 0) (of_Z 100))
         /\ (in_range x -> clamp x (of_Z 0) (of_Z 100) = x))
     /\ (is_nan (@ToNumber quiet v) = true ->
         x = of_Z 0 /\ (get (@set_any quiet (Value v) loaded).1).2 = Ok (of_Z 0))
     /\ ((@add_any quiet (Value v) loaded).2 = Ok (clamp sum (of_Z 0) (of_Z 100))
         /\ (get (@add_any quiet (Value v) loaded).1).2
            = Ok (clamp sum (of_Z 0) (of_Z 100))
         /\ in_range (clamp sum (of_Z 0) (of_Z 100)))
     /\ clamped_into_range sum (clamp sum (of_Z 0) (of_Z 100))
     /\ (@set_any quiet SymbolValue loaded = (loaded, Throw TypeError)
         /\ @add_any quiet SymbolValue loaded = (loaded, Throw TypeError)).
Proof.
  assert (Hwf : wf (mod_state loaded)) by (repeat split; vm_compute; reflexivity).
  split; [exact Hwf|].
  exact (@set_add_clamp quiet loaded (VNumber (of_Z 250)) Hwf).
Defined.

(** C1, as the specification words it, fails for a Symbol: [set] and
    [add] throw the TypeError of [Number], nothing is stored, and the
    value stays 100 where an input treated as 0 would have made it 0. *)
Lemma symbol_is_not_treated_as_zero :
  (@set_any quiet SymbolValue loaded).2 = Throw TypeError
  /\ (get (@set_any quiet SymbolValue loaded).1).2 = Ok (of_Z 100)
  /\ (@add_any quiet SymbolValue loaded).2 = Throw TypeError
  /\ (get (@add_any quiet SymbolValue loaded).1).2 = Ok (of_Z 100)
  /\ clamp (of_Z 0) (of_Z 0) (of_Z 100) = of_Z 0
  /\ of_Z 100 <> of_Z 0.
Proof. repeat split; try reflexivity. vm_compute. discriminate. Qed.

(** C5. In a well-formed [STATE], when the clamped coerced value of [v]
    is (by [===]) the current value, [set(v)] returns it and changes
    nothing: [STATE], the trace (so no subscriber is called and no event
    is sent) and the rest of the world are what they were.  The same for
    [add(v)] when the clamped sum is the current value. *)
Theorem set_add_unchanged `{Host} (c : cfg SanityState) (v : jsval) :
  wf (mod_state c) ->
  let cur := value (mod_state c) in
  let x := or_number (ToNumber v) (of_Z 0) in
  (strict_eq (clamp x (of_Z 0) (of_Z 100)) cur = true ->
   set v c = (c, Ok cur))
  /\ (strict_eq (clamp (Num.add cur x) (of_Z 0) (of_Z 100)) cur = true ->
      add v c = (c, Ok cur)).
Proof.
  intros (Hmin & Hmax & _) cur x. split; intros Heq.
  - rewrite sanity_set_spec, Hmin, Hmax. unfold store. fold x cur. by rewrite Heq.
  - rewrite sanity_add_spec, Hmin, Hmax. unfold store. fold x cur. by rewrite Heq.
Qed.

Lemma set_add_unchanged_witness :
  wf (mod_state loaded)
  /\ strict_eq (clamp (or_number (@ToNumber quiet (VNumber (of_Z 250))) (of_Z 0))
                  (of_Z 0) (of_Z 100))
       (value (mod_state loaded)) = true
  /\ @set quiet (VNumber (of_Z 250)) loaded = (loaded, Ok (of_Z 100))
  /\ strict_eq (clamp (Num.add (value (mod_state loaded))
                         (or_number (@ToNumber quiet (VNumber (of_Z 7))) (of_Z 0)))
                  (of_Z 0) (of_Z 100))
       (value (mod_state loaded)) = true
  /\ @add quiet (VNumber (of_Z 7)) loaded = (loaded, Ok (of_Z 100)).
Proof.
  assert (Hwf : wf (mod_state loaded)) by (repeat split; vm_compute; reflexivity).
  split; [exact Hwf|].
  split; [vm_compute; reflexivity|].
  split; [apply (@set_add_unchanged quiet loaded (VNumber (of_Z 250)) Hwf);
          vm_compute; reflexivity|].
  split; [vm_compute; reflexivity|].
  apply (@set_add_unchanged quiet loaded (VNumber (of_Z 7)) Hwf).
  vm_compute; reflexivity.
Defined.

(** C4. For every function [f], [subscribe(f)] appends [f] to the
    subscribers, calls [f] once with the current value before it returns
    (that call is the only thing it adds to the trace, and it returns
    normally even when the call throws), leaves the value alone, and
    returns a function that, whenever it is called later, takes the first
    occurrence of [f] out of the subscribers and touches nothing else; if
    [f] is not subscribed then, it does nothing. *)
Theorem subscribe_calls_once `{Host} (c : cfg SanityState) (f : callback) :
  exists unsub : M SanityState unit,
    subscribe (VObject (OFunction f)) c =
      (Cfg (set_subscribers (subscribers (mod_state c) ++ [f]) (mod_state c))
         (add_trace [EvCall f (DNumber (value (mod_state c)))] (world c)),
       Ok unsub)
    /\ calls_to f (trace (world (subscribe (VObject (OFunction f)) c).1)) =
         calls_to f (trace (world c)) ++ [DNumber (value (mod_state c))]
    /\ forall c2 : cfg SanityState,
         (f ∉ subscribers (mod_state c2) -> unsub c2 = (c2, Ok tt))
         /\ (forall l1 l2,
               subscribers (mod_state c2) = l1 ++ f :: l2 -> f ∉ l1 ->
               unsub c2 =
               (Cfg (set_subscribers (l1 ++ l2) (mod_state c2)) (world c2),
                Ok tt)).
Proof.
  exists (unsubscribe f). rewrite subscribe_spec. split; [reflexivity|].
  split.
  - cbn [fst world add_trace trace]. rewrite calls_to_app.
    unfold calls_to at 3. cbn. by rewrite bool_decide_true.
  - intros c2. split.
    + apply unsubscribe_absent.
    + intros l1 l2. apply unsubscribe_first.
Qed.

(** Subscribing a callback that throws, then unsubscribing it. *)
Lemma subscribe_calls_once_witness :
  let h := example_host [5%nat] (fun _ => pos_zero) in
  let c1 := (@subscribe h (VObject (OFunction 5%nat)) loaded).1 in
  subscribers (mod_state c1) = [5%nat]
  /\ trace (world c1) = [EvCall 5%nat (DNumber (of_Z 100))]
  /\ forall unsub,
       (@subscribe h (VObject (OFunction 5%nat)) loaded).2 = Ok unsub ->
       subscribers (mod_state (unsub c1).1) = [].
Proof.
  intros h c1.
  destruct (@subscribe_calls_once h loaded 5%nat) as (unsub & Hsub & _ & Hun).
  split; [|split].
  - subst c1. rewrite Hsub. reflexivity.
  - subst c1. rewrite Hsub. reflexivity.
  - intros unsub' Heq. rewrite Hsub in Heq. cbn in Heq.
    injection Heq as <-.
    destruct (Hun c1) as [_ Hfirst].
    rewrite (Hfirst [] []); [reflexivity| |apply not_elem_of_nil].
    subst c1. rewrite Hsub. reflexivity.
Defined.

(** ** The glitch intensity *)

Lemma ge_80_60 (v : number) : ge v (of_Z 80) = true -> ge v (of_Z 60) = true.
Proof.
  unfold ge. rewrite of_Z_80, of_Z_60. apply le_trans_pos. reflexivity.
Qed.

Lemma ge_60_40 (v : number) : ge v (of_Z 60) = true -> ge v (of_Z 40) = true.
Proof.
  unfold ge. rewrite of_Z_60, of_Z_40. apply le_trans_pos. reflexivity.
Qed.

Lemma ge_40_20 (v : number) : ge v (of_Z 40) = true -> ge v (of_Z 20) = true.
Proof.
  unfold ge. rewrite of_Z_40, of_Z_20. apply le_trans_pos. reflexivity.
Qed.

Lemma not_ge_60_80 (v : number) : ge v (of_Z 60) = false -> ge v (of_Z 80) = false.
Proof.
  intros H60. destruct (ge v (of_Z 80)) eqn:H80; [|done].
  apply ge_80_60 in H80. congruence.
Qed.

Lemma not_ge_40_60 (v : number) : ge v (of_Z 40) = false -> ge v (of_Z 60) = false.
Proof.
  intros H40. destruct (ge v (of_Z 60)) eqn:H60; [|done].
  apply ge_60_40 in H60. congruence.
Qed.

Lemma not_ge_20_40 (v : number) : ge v (of_Z 20) = false -> ge v (of_Z 40) = false.
Proof.
  intros H20. destruct (ge v (of_Z 40)) eqn:H40; [|done].
  apply ge_40_20 in H40. congruence.
Qed.

(** The rest of [wrapped] once [intensity] is bound. *)
Definition type_glitched `{Host} (intensity : number) (typeFn : callback)
    (text : jsval) : M SanityState unit :=
  let* glitched := map_join (mutate intensity) (ToString text) in
  let* r := random in
  let finalOut :=
    if lt r (mul intensity (of_decimal 5 1)) then glitched ++ [8205%N]
    else glitched in
  call typeFn (DString finalOut).

(** C2. The function returned by [wrapTypeText(typeFn)] runs with the
    intensity [intensity_of_tier (tierFor value)] for the current value,
    and that is 0 for a value >= 60, 0.03 for a value in [40,60), 0.08 for
    a value in [20,40) and 0.14 for a value < 20. *)
Theorem intensity_step `{Host} (c : cfg SanityState) (typeFn : callback)
    (text : jsval) :
  let v := value (mod_state c) in
  let intensity := intensity_of_tier (tierFor v) in
  wrapTypeText (VObject (OFunction typeFn)) text c =
    type_glitched intensity typeFn text c
  /\ (ge v (of_Z 60) = true -> intensity = of_Z 0)
  /\ (ge v (of_Z 40) = true -> lt v (of_Z 60) = true ->
      intensity = of_decimal 3 2)
  /\ (ge v (of_Z 20) = true -> lt v (of_Z 40) = true ->
      intensity = of_decimal 8 2)
  /\ (lt v (of_Z 20) = true -> intensity = of_decimal 14 2).
Proof.
  intros v intensity. split; [reflexivity|].
  subst intensity. unfold tierFor. repeat split.
  - intros H60. destruct (ge v (of_Z 80)); [reflexivity|].
    rewrite H60. reflexivity.
  - intros H40 H60. apply lt_not_ge in H60.
    rewrite (not_ge_60_80 v H60), H60, H40. reflexivity.
  - intros H20 H40. apply lt_not_ge in H40.
    pose proof (not_ge_40_60 v H40) as H60.
    rewrite (not_ge_60_80 v H60), H60, H40, H20. reflexivity.
  - intros H20. apply lt_not_ge in H20.
    pose proof (not_ge_20_40 v H20) as H40.
    pose proof (not_ge_40_60 v H40) as H60.
    rewrite (not_ge_60_80 v H60), H60, H40, H20. reflexivity.
Qed.

(** The module with another value in [STATE]. *)
Definition loaded_at (v : number) : cfg SanityState :=
  Cfg (set_value v STATE0) World0.

Lemma intensity_step_witness :
  (ge (of_Z 60) (of_Z 60) = true
   /\ intensity_of_tier (tierFor (of_Z 60)) = of_Z 0)
  /\ (ge (of_Z 40) (of_Z 40) = true /\ lt (of_Z 40) (of_Z 60) = true
      /\ intensity_of_tier (tierFor (of_Z 40)) = of_decimal 3 2)
  /\ (ge (of_Z 39) (of_Z 20) = true /\ lt (of_Z 39) (of_Z 40) = true
      /\ intensity_of_tier (tierFor (of_Z 39)) = of_decimal 8 2)
  /\ (lt (of_Z 19) (of_Z 20) = true
      /\ intensity_of_tier (tierFor (of_Z 19)) = of_decimal 14 2).
Proof.
  pose proof (fun v => @intensity_step quiet (loaded_at v) 0%nat VNull) as Hstep.
  cbn [loaded_at mod_state set_value value] in Hstep.
  assert (H60 : ge (of_Z 60) (of_Z 60) = true) by (vm_compute; reflexivity).
  assert (H40 : ge (of_Z 40) (of_Z 40) = true) by (vm_compute; reflexivity).
  assert (H46 : lt (of_Z 40) (of_Z 60) = true) by (vm_compute; reflexivity).
  assert (H39 : ge (of_Z 39) (of_Z 20) = true) by (vm_compute; reflexivity).
  assert (H34 : lt (of_Z 39) (of_Z 40) = true) by (vm_compute; reflexivity).
  assert (H19 : lt (of_Z 19) (of_Z 20) = true) by (vm_compute; reflexivity).
  split; [split; [exact H60|]|split; [split; [exact H40|split; [exact H46|]]|
    split; [split; [exact H39|split; [exact H34|]]|split; [exact H19|]]]].
  - exact (proj1 (proj2 (Hstep (of_Z 60))) H60).
  - exact (proj1 (proj2 (proj2 (Hstep (of_Z 40)))) H40 H46).
  - exact (proj1 (proj2 (proj2 (proj2 (Hstep (of_Z 39))))) H39 H34).
  - exact (proj2 (proj2 (proj2 (proj2 (Hstep (of_Z 19))))) H19).
Defined.

(** Every non-NaN value falls in one of the four bands. *)
Lemma bands_cover (v : number) :
  is_nan v = false ->
  ge v (of_Z 60) = true
  \/ (ge v (of_Z 40) = true /\ lt v (of_Z 60) = true)
  \/ (ge v (of_Z 20) = true /\ lt v (of_Z 40) = true)
  \/ lt v (of_Z 20) = true.
Proof.
  intros Hv.
  destruct (ge v (of_Z 60)) eqn:H60; [by left|right].
  apply ge_false_lt in H60; [|done|by rewrite of_Z_60].
  destruct (ge v (of_Z 40)) eqn:H40; [by left|right].
  apply ge_false_lt in H40; [|done|by rewrite of_Z_40].
  destruct (ge v (of_Z 20)) eqn:H20; [by left|right].
  apply ge_false_lt in H20; [done|done|by rewrite of_Z_20].
Qed.

(** ** No glitch at intensity 0? *)

(** A browser whose [Math.random] returns 0 every time. *)
Definition zero_rolls : Host := example_host [] (fun _ => pos_zero).

(** C3, where the code departs from it.  With the value at 100 (tier 1,
    intensity 0) and [Math.random()] returning 0, the wrapped function
    does not forward the text ["a"]: the roll 0 is not above the
    intensity 0, so the character is distorted (duplicated, the first
    of [kinds]) and the render function receives ["aa"]. *)
Theorem zero_roll_glitches_at_intensity_zero :
  value (mod_state loaded) = of_Z 100
  /\ intensity_of_tier (tierFor (value (mod_state loaded))) = of_Z 0
  /\ @ToString zero_rolls (VString (str "a")) = str "a"
  /\ @wrapTypeText zero_rolls (VObject (OFunction 7%nat)) (VString (str "a"))
       loaded =
     (Cfg STATE0 (count_randoms 3 (add_trace [EvCall 7%nat (DString (str "aa"))] World0)),
      Ok tt).
Proof. repeat split. Qed.

(** With rolls that are never 0, intensity 0 does forward the text as it
    is: no character is distorted and no joiner is appended. *)
Lemma positive_rolls_forward_text `{Host} (c : cfg SanityState)
    (typeFn : callback) (text : jsval) :
  (forall n, gt (Math_random n) (of_Z 0) = true) ->
  ge (value (mod_state c)) (of_Z 60) = true ->
  exists k,
    (wrapTypeText (VObject (OFunction typeFn)) text c).1 =
    Cfg (mod_state c)
      (add_trace [EvCall typeFn (DString (ToString text))]
         (count_randoms k (world c))).
Proof.
  intros Hrolls H60.
  change (wrapTypeText (VObject (OFunction typeFn)) text c)
    with (type_glitched (intensity_of_tier (tierFor (value (mod_state c))))
            typeFn text c).
  assert (intensity_of_tier (tierFor (value (mod_state c))) = of_Z 0) as ->.
  { unfold tierFor. destruct (ge _ (of_Z 80)); [reflexivity|].
    by rewrite H60. }
  unfold type_glitched.
  erewrite bind_Ok by (apply map_join_zero_positive, Hrolls).
  erewrite bind_Ok by apply random_spec.
  change (mul (of_Z 0) (of_decimal 5 1)) with (of_Z 0).
  rewrite (gt_not_lt _ _ (Hrolls _)).
  rewrite call_spec.
  exists (S (length (filter (fun ch => glitchable ch = true) (ToString text)))).
  cbn [fst log_events mod_state world].
  f_equal. f_equal.
  generalize (length (filter (fun ch => glitchable ch = true) (ToString text))).
  intros n. generalize (world c). induction n as [|n IH]; intros w; [done|].
  cbn [count_randoms]. by rewrite IH.
Qed.

(** ** The start value *)

(** C6, where the code departs from it.  [init({start: 0})] on the
    loaded module stores 100, not [clamp(0, 0, 100) = 0]: the start value
    goes through [Number(start ?? 100) || 100], and 0 is falsy. *)
Theorem init_start_zero_stores_100 :
  let opts := Some {| opt_start := Some (VNumber (of_Z 0)); opt_mount := None |} in
  (get (@init quiet opts loaded).1).2 = Ok (of_Z 100)
  /\ clamp (of_Z 0) (of_Z 0) (of_Z 100) = of_Z 0.
Proof. split; vm_compute; reflexivity. Qed.

(** A start value that is a number other than 0 (and not NaN) is clamped
    and stored. *)
Lemma init_start_nonzero `{Host} (c : cfg SanityState) (x : number)
    (m : option jsval) :
  wf (mod_state c) -> truthy x = true ->
  (get (init (Some {| opt_start := Some (VNumber x); opt_mount := m |}) c).1).2
  = Ok (clamp x (of_Z 0) (of_Z 100)).
Proof.
  intros (Hmin & Hmax & _) Hx. rewrite get_spec. cbn [snd].
  rewrite init_value, Hmin, Hmax. cbn. unfold or_number. by rewrite Hx.
Qed.

(** The scenario of the specification. *)
Example init_50_scenario :
  let c1 := (@init quiet (Some {| opt_start := Some (VNumber (of_Z 50));
                                 opt_mount := None |}) loaded).1 in
  let c2 := (@add quiet (VNumber (of_Z (-70))) c1).1 in
  (get c1).2 = Ok (of_Z 50)
  /\ (@add quiet (VNumber (of_Z (-70))) c1).2 = Ok (of_Z 0)
  /\ (@add quiet (VNumber (of_Z 1000)) c2).2 = Ok (of_Z 100).
Proof. repeat split; vm_compute; reflexivity. Qed.

End SanityProps.

(* ================================================================== *)
(** * inventory.js: the properties *)
(* ================================================================== *)

Module InventoryProps.
Import Inventory InventoryFacts.

Section Mutations.
Context `{Host}.
Implicit Types (c : cfg InventoryState).

Lemma items_mutated f c :
  items (mod_state (mutated f c)) = f (items (mod_state c)).
Proof. reflexivity. Qed.

Lemma listeners_mutated f c :
  listeners (mod_state (mutated f c)) = listeners (mod_state c).
Proof. reflexivity. Qed.

Lemma new_events_mutated f c :
  new_events c (mutated f c) =
  dispatch_events (trace (world c)) change_type
    (DList (f (items (mod_state c)))) (listeners (mod_state c)).
Proof. unfold mutated. apply new_events_log_world, trace_saved. Qed.

Lemma localStorage_mutated f c :
  localStorage (world (mutated f c)) =
  if setItem_throws (trace (world c)) LS_KEY then localStorage (world c)
  else <[LS_KEY := f (items (mod_state c))]> (localStorage (world c)).
Proof.
  unfold mutated, saved. cbn.
  by destruct (setItem_throws _ _).
Qed.

Lemma inventory_add_spec (name : jsval) c :
  add name c =
  if ToBoolean name then (mutated (Set_add (ToString name)) c, Ok tt)
  else (c, Ok tt).
Proof.
  unfold add. destruct (ToBoolean name); cbn [negb]; [|reflexivity].
  apply modify_save_spec.
Qed.

Lemma remove_spec (name : jsval) c :
  remove name c = (mutated (Set_delete (ToString name)) c, Ok tt).
Proof. apply modify_save_spec. Qed.

Lemma clear_spec c : clear c = (mutated (fun _ => []) c, Ok tt).
Proof. apply (modify_save_spec (fun _ => [])). Qed.

Lemma use_spec (name : jsval) c :
  use name c =
  if Set_has (ToString name) (items (mod_state c))
  then (log_events
          (dispatch_events (trace (world c)) use_type
             (DItem (ToString name)) (listeners (mod_state c))) c,
        Ok tt)
  else (c, Ok tt).
Proof.
  unfold use. rewrite (bind_Ok _ _ c c (mod_state c)) by reflexivity.
  destruct (Set_has _ _); cbn [negb]; [apply dispatch_spec|reflexivity].
Qed.

Lemma has_spec (name : jsval) c :
  has name c = (c, Ok (Set_has (ToString name) (items (mod_state c)))).
Proof. reflexivity. Qed.

End Mutations.

(** C7. For a truthy [name], [add(name)] puts [String(name)] in the item
    set (so [has(name)] is true afterwards), tries to persist the list,
    and then notifies: every change listener is called with the new list
    and the window gets one ["inventory:change"] event (where the host
    has [CustomEvent]).  Nothing of this depends on whether the item was
    there already, in which case the set is the same and the
    notification still happens.  For a falsy [name], [add(name)] changes
    nothing at all. *)
Theorem add_truthy_or_falsy `{Host} (c : cfg InventoryState) (name : jsval) :
  let s := mod_state c in
  let l' := Set_add (ToString name) (items s) in
  let c' := (add name c).1 in
  (ToBoolean name = true ->
   (add name c).2 = Ok tt
   /\ mod_state c' = set_items l' s
   /\ (has name c').2 = Ok true
   /\ localStorage (world c') =
      (if setItem_throws (trace (world c)) LS_KEY then localStorage (world c)
       else <[LS_KEY := l']> (localStorage (world c)))
   /\ calls (new_events c c') =
      (fun cb => (cb, DList l')) <$> default [] (listeners s !! change_type)
   /\ filter (fun ev => is_window ev = true) (new_events c c') =
      (if CustomEvent_defined then [EvWindow change_type (DList l')] else [])
   /\ (ToString name ∈ items s -> l' = items s))
  /\ (ToBoolean name = false -> add name c = (c, Ok tt)).
Proof.
  intros s l' c'. subst c'. rewrite inventory_add_spec. split; intros ->; [|done].
  cbn [fst snd]. split; [done|]. split; [done|]. split.
  { rewrite has_spec. cbn [snd]. rewrite items_mutated.
    by rewrite Set_has_add. }
  split; [apply localStorage_mutated|].
  rewrite new_events_mutated. split; [apply calls_dispatch|].
  split; [apply windows_dispatch|]. apply Set_add_present.
Qed.

(** The store holding the item ["x"], with change listeners 1 and 2 and
    use listeners 2 and 3, in a browser where callback 2 always throws. *)
Definition stocked : cfg InventoryState :=
  Cfg {| items := [str "x"];
         listeners := <[change_type := [1; 2]%nat]> (<[use_type := [2; 3]%nat]> ∅) |}
    World0.

Definition rude : Host := example_host [2%nat] (fun _ => of_decimal 5 1).

(** Adding ["x"] again, and adding the empty string. *)
Lemma add_truthy_or_falsy_witness :
  (@ToBoolean (VString (str "x")) = true
   /\ (@has rude (VString (str "x"))
         (@add rude (VString (str "x")) stocked).1).2 = Ok true
   /\ calls (new_events stocked (@add rude (VString (str "x")) stocked).1) =
      [(1%nat, DList [str "x"]); (2%nat, DList [str "x"])])
  /\ (@ToBoolean (VString []) = false
      /\ @add rude (VString []) stocked = (stocked, Ok tt)).
Proof.
  destruct (@add_truthy_or_falsy rude stocked (VString (str "x")))
    as [Htruthy _].
  destruct (@add_truthy_or_falsy rude stocked (VString [])) as [_ Hfalsy].
  assert (Ht : @ToBoolean (VString (str "x")) = true) by reflexivity.
  assert (Hf : @ToBoolean (VString []) = false) by reflexivity.
  destruct (Htruthy Ht) as (_ & _ & Hhas & _ & Hcalls & _).
  split; [split; [exact Ht|split; [exact Hhas|]]|split; [exact Hf|exact (Hfalsy Hf)]].
  rewrite Hcalls. vm_compute. reflexivity.
Defined.

(** C8. [use(name)] notifies exactly when [String(name)] is in the item
    set: then every use listener is called once with [{item}] and the
    window gets one ["inventory:use"] event with that payload (where the
    host has [CustomEvent]); when the item is absent nothing happens.
    In both cases the item set, the listeners and the storage are as
    before, and [use] returns normally. *)
Theorem use_notifies_iff_present `{Host} (c : cfg InventoryState) (name : jsval) :
  let s := mod_state c in
  let item := ToString name in
  let c' := (use name c).1 in
  (Set_has item (items s) = true ->
   calls (new_events c c') =
     (fun cb => (cb, DItem item)) <$> default [] (listeners s !! use_type)
   /\ filter (fun ev => is_window ev = true) (new_events c c') =
      (if CustomEvent_defined then [EvWindow use_type (DItem item)] else []))
  /\ (Set_has item (items s) = false -> use name c = (c, Ok tt))
  /\ (use name c).2 = Ok tt
  /\ mod_state c' = s
  /\ localStorage (world c') = localStorage (world c).
Proof.
  intros s item c'. subst s item c'. rewrite use_spec.
  split; [|split]; [intros ->|by intros ->|by destruct (Set_has _ _)].
  cbn [fst]. rewrite new_events_log.
  split; [apply calls_dispatch|apply windows_dispatch].
Qed.

(** Using the item that is there, and one that is not. *)
Lemma use_notifies_iff_present_witness :
  (Set_has (@ToString rude (VString (str "x"))) (items (mod_state stocked)) = true
   /\ new_events stocked (@use rude (VString (str "x")) stocked).1 =
      [EvCall 2%nat (DItem (str "x")); EvConsoleError (Thrown 2%nat);
       EvCall 3%nat (DItem (str "x"));
       EvWindow use_type (DItem (str "x"))]
   /\ calls (new_events stocked (@use rude (VString (str "x")) stocked).1) =
      [(2%nat, DItem (str "x")); (3%nat, DItem (str "x"))])
  /\ (Set_has (@ToString rude (VString (str "y"))) (items (mod_state stocked)) = false
      /\ @use rude (VString (str "y")) stocked = (stocked, Ok tt)).
Proof.
  destruct (@use_notifies_iff_present rude stocked (VString (str "x")))
    as (Hpresent & _).
  destruct (@use_notifies_iff_present rude stocked (VString (str "y")))
    as (_ & Habsent & _).
  assert (Hx : Set_has (@ToString rude (VString (str "x")))
                 (items (mod_state stocked)) = true) by (vm_compute; reflexivity).
  assert (Hy : Set_has (@ToString rude (VString (str "y")))
                 (items (mod_state stocked)) = false) by (vm_compute; reflexivity).
  destruct (Hpresent Hx) as [Hcalls _].
  split; [split; [exact Hx|split]|split; [exact Hy|exact (Habsent Hy)]].
  - vm_compute. reflexivity.
  - rewrite Hcalls. vm_compute. reflexivity.
Defined.

(** C10. [remove(name)] has no guard: for every [name], falsy or not, it
    deletes [String(name)] from the item set, tries to persist the list,
    and notifies (every change listener is called with the new list, and
    the window gets one ["inventory:change"] event where the host has
    [CustomEvent]), also when the item was absent and the set is
    unchanged. *)
Theorem remove_always_notifies `{Host} (c : cfg InventoryState) (name : jsval) :
  let s := mod_state c in
  let item := ToString name in
  let l' := Set_delete item (items s) in
  let c' := (remove name c).1 in
  (remove name c).2 = Ok tt
  /\ mod_state c' = set_items l' s
  /\ (has name c').2 = Ok false
  /\ localStorage (world c') =
     (if setItem_throws (trace (world c)) LS_KEY then localStorage (world c)
      else <[LS_KEY := l']> (localStorage (world c)))
  /\ calls (new_events c c') =
     (fun cb => (cb, DList l')) <$> default [] (listeners s !! change_type)
  /\ filter (fun ev => is_window ev = true) (new_events c c') =
     (if CustomEvent_defined then [EvWindow change_type (DList l')] else [])
  /\ (item ∉ items s -> l' = items s).
Proof.
  intros s item l' c'. subst c'. rewrite remove_spec. cbn [fst snd].
  split; [done|]. split; [done|]. split.
  { rewrite has_spec. cbn [snd]. rewrite items_mutated.
    by rewrite Set_has_delete. }
  split; [apply localStorage_mutated|].
  rewrite new_events_mutated. split; [apply calls_dispatch|].
  split; [apply windows_dispatch|]. apply Set_delete_absent.
Qed.

(** Removing [undefined] from the stocked store: the item ["undefined"]
    is not there, the set stays as it is, the list is written to the
    storage and both change listeners are called. *)
Lemma remove_always_notifies_witness :
  @ToBoolean VUndefined = false
  /\ @ToString rude VUndefined = str "undefined"
  /\ items (mod_state (@remove rude VUndefined stocked).1) = [str "x"]
  /\ localStorage (world (@remove rude VUndefined stocked).1) !! LS_KEY =
     Some [str "x"]
  /\ calls (new_events stocked (@remove rude VUndefined stocked).1) =
     [(1%nat, DList [str "x"]); (2%nat, DList [str "x"])].
Proof.
  destruct (@remove_always_notifies rude stocked VUndefined)
    as (_ & Hstate & _ & Hls & Hcalls & _).
  split; [reflexivity|]. split; [reflexivity|].
  split; [by rewrite Hstate|]. split.
  - rewrite Hls. vm_compute. reflexivity.
  - rewrite Hcalls. vm_compute. reflexivity.
Defined.

End InventoryProps.

(* ================================================================== *)
(** * Both stores: callbacks that throw *)
(* ================================================================== *)

Module FanoutProps.
Import SanityFacts InventoryFacts InventoryProps.

Section Fanout.
Context `{Host}.

Lemma calls_notify_events (s : Sanity.SanityState) (tr : list event) :
  calls (notify_events s tr) =
  (fun cb => (cb, DNumber (Sanity.value s))) <$> Sanity.subscribers s.
Proof.
  unfold notify_events, badge_events.
  rewrite !calls_app, calls_fmap_call, calls_window_events.
  destruct (Sanity.mountedBadge s) as [badge|]; [|by rewrite !app_nil_r].
  destruct (badge_value_node _ _); by rewrite !app_nil_r.
Qed.

(** [set] and [add] after the new value is computed. *)
Lemma store_fanout (nv : number) (c : cfg Sanity.SanityState) :
  (exists r, (store nv c).2 = Ok r)
  /\ Sanity.subscribers (mod_state (store nv c).1) =
     Sanity.subscribers (mod_state c)
  /\ calls (new_events c (store nv c).1) =
     if strict_eq nv (Sanity.value (mod_state c)) then []
     else (fun cb => (cb, DNumber nv)) <$> Sanity.subscribers (mod_state c).
Proof.
  unfold store. destruct (strict_eq nv _); cbn [fst snd].
  - split; [eauto|]. split; [done|].
    unfold new_events. by rewrite drop_all.
  - split; [eauto|]. split; [done|].
    rewrite new_events_log_world by done.
    by rewrite calls_notify_events.
Qed.

End Fanout.

(** C9. Whatever the callbacks do (the host decides which calls throw):
    - [notify] returns normally, leaves [STATE] (so the subscribers) as it
      is, and calls every subscriber, in order, with the value;
    - so [set] and [add] return normally with the subscribers unchanged,
      and when they change the value every subscriber is called with the
      new one;
    - [dispatch] returns normally, leaves the items and the listeners as
      they are, and calls every listener of the type, in order, with the
      payload;
    - so [add], [remove], [clear] and [use] of the inventory return
      normally and leave the listeners unchanged. *)
Theorem throwing_callbacks_are_contained `{Host} :
  (forall c : cfg Sanity.SanityState,
      (Sanity.notify c).2 = Ok tt
      /\ mod_state (Sanity.notify c).1 = mod_state c
      /\ calls (new_events c (Sanity.notify c).1) =
         (fun cb => (cb, DNumber (Sanity.value (mod_state c))))
           <$> Sanity.subscribers (mod_state c))
  /\ (forall (c : cfg Sanity.SanityState) (v : jsval),
        let s := mod_state c in
        let nv := Sanity.clamp (or_number (ToNumber v) (of_Z 0))
                    (Sanity.min s) (Sanity.max s) in
        (exists r, (Sanity.set v c).2 = Ok r)
        /\ Sanity.subscribers (mod_state (Sanity.set v c).1) = Sanity.subscribers s
        /\ calls (new_events c (Sanity.set v c).1) =
           if strict_eq nv (Sanity.value s) then []
           else (fun cb => (cb, DNumber nv)) <$> Sanity.subscribers s)
  /\ (forall (c : cfg Sanity.SanityState) (v : jsval),
        let s := mod_state c in
        let nv := Sanity.clamp
                    (Num.add (Sanity.value s) (or_number (ToNumber v) (of_Z 0)))
                    (Sanity.min s) (Sanity.max s) in
        (exists r, (Sanity.add v c).2 = Ok r)
        /\ Sanity.subscribers (mod_state (Sanity.add v c).1) = Sanity.subscribers s
        /\ calls (new_events c (Sanity.add v c).1) =
           if strict_eq nv (Sanity.value s) then []
           else (fun cb => (cb, DNumber nv)) <$> Sanity.subscribers s)
  /\ (forall (c : cfg Inventory.InventoryState) (type : jsstring) (d : detail),
        (Inventory.dispatch type d c).2 = Ok tt
        /\ mod_state (Inventory.dispatch type d c).1 = mod_state c
        /\ calls (new_events c (Inventory.dispatch type d c).1) =
           (fun cb => (cb, d))
             <$> default [] (Inventory.listeners (mod_state c) !! type))
  /\ (forall (c : cfg Inventory.InventoryState) (name : jsval),
        let ls := Inventory.listeners (mod_state c) in
        ((Inventory.add name c).2 = Ok tt
         /\ Inventory.listeners (mod_state (Inventory.add name c).1) = ls)
        /\ ((Inventory.remove name c).2 = Ok tt
            /\ Inventory.listeners (mod_state (Inventory.remove name c).1) = ls)
        /\ ((Inventory.clear c).2 = Ok tt
            /\ Inventory.listeners (mod_state (Inventory.clear c).1) = ls)
        /\ ((Inventory.use name c).2 = Ok tt
            /\ Inventory.listeners (mod_state (Inventory.use name c).1) = ls)).
Proof.
  split; [|split; [|split; [|split]]].
  - intros c. rewrite notify_spec. cbn [fst snd].
    rewrite new_events_log. split; [done|]. split; [done|].
    apply calls_notify_events.
  - intros c v s nv. rewrite sanity_set_spec. apply store_fanout.
  - intros c v s nv. rewrite sanity_add_spec. apply store_fanout.
  - intros c type d. rewrite dispatch_spec. cbn [fst snd].
    rewrite new_events_log. split; [done|]. split; [done|].
    apply calls_dispatch.
  - intros c name ls. rewrite inventory_add_spec, remove_spec, clear_spec, use_spec.
    repeat split; try done.
    + by destruct (ToBoolean name).
    + by destruct (ToBoolean name).
    + by destruct (Set_has _ _).
    + by destruct (Set_has _ _).
Qed.

(** Three subscribers of the sanity value, the second of which throws. *)
Definition three_subscribers : cfg Sanity.SanityState :=
  Cfg (Sanity.set_subscribers [1; 2; 3]%nat Sanity.STATE0) World0.

Lemma throwing_callbacks_are_contained_witness :
  @callback_throws rude [] 2%nat (DNumber (of_Z 42)) = true
  /\ (@Sanity.set rude (VNumber (of_Z 42)) three_subscribers).2 = Ok (of_Z 42)
  /\ calls (new_events three_subscribers
             (@Sanity.set rude (VNumber (of_Z 42)) three_subscribers).1) =
     [(1%nat, DNumber (of_Z 42)); (2%nat, DNumber (of_Z 42));
      (3%nat, DNumber (of_Z 42))]
  /\ (@Inventory.dispatch rude Inventory.use_type (DItem (str "x")) stocked).2
     = Ok tt
  /\ calls (new_events stocked
             (@Inventory.dispatch rude Inventory.use_type (DItem (str "x"))
                stocked).1) =
     [(2%nat, DItem (str "x")); (3%nat, DItem (str "x"))].
Proof.
  destruct (@throwing_callbacks_are_contained rude)
    as (_ & Hset & _ & Hdispatch & _).
  destruct (Hset three_subscribers (VNumber (of_Z 42))) as (_ & _ & Hcalls).
  destruct (Hdispatch stocked Inventory.use_type (DItem (str "x")))
    as (Hok & _ & Hcalls').
  split; [reflexivity|]. split; [vm_compute; reflexivity|].
  split; [rewrite Hcalls; vm_compute; reflexivity|].
  split; [exact Hok|]. rewrite Hcalls'. vm_compute. reflexivity.
Defined.

End FanoutProps.

(* ================================================================== *)
(** * sanity.js: more of the interface *)
(* ================================================================== *)

Module SanityMore.
Import Sanity SanityFacts SanityProps.

(** ** Numbers once more *)

Lemma add_pos_zero (x : number) :
  is_nan x = false -> is_neg_zero x = false -> Num.add x pos_zero = x.
Proof. destruct x as [[]|[]| |[]]; try reflexivity; discriminate. Qed.

Section Repeating.
Context `{Host}.
Implicit Types (c : cfg SanityState).

(** [set(v)] twice in a row: the second call finds the value in place,
    changes nothing and notifies nobody. *)
Theorem set_twice_is_quiet c (v : jsval) :
  wf (mod_state c) ->
  let c1 := (set v c).1 in
  set v c1 = (c1, Ok (clamp (or_number (ToNumber v) (of_Z 0)) (of_Z 0) (of_Z 100))).
Proof.
  intros Hwf c1.
  assert (Hx : is_nan (or_number (ToNumber v) (of_Z 0)) = false)
    by apply or_zero_not_nan.
  assert (Hwf1 : wf (mod_state c1)) by (by apply wf_set).
  assert (Hval : value (mod_state c1) =
                 clamp (or_number (ToNumber v) (of_Z 0)) (of_Z 0) (of_Z 100)).
  { subst c1. destruct Hwf as (Hmin & Hmax & ?).
    rewrite sanity_set_spec, Hmin, Hmax.
    by destruct (store_value _ c (conj Hmin (conj Hmax H0)) Hx) as [_ ->]. }
  destruct Hwf1 as (Hmin1 & Hmax1 & _).
  rewrite sanity_set_spec, Hmin1, Hmax1. unfold store. rewrite Hval.
  rewrite strict_eq_refl; [done|]. by apply clamp_range_not_nan.
Qed.

(** A delta that coerces to 0 or to NaN ([add()], [add("abc")], [add(0)],
    [add(null)]) leaves everything as it is: no change, no notification. *)
Theorem add_nothing_is_quiet c (delta : jsval) :
  wf (mod_state c) ->
  truthy (ToNumber delta) = false ->
  add delta c = (c, Ok (value (mod_state c))).
Proof.
  intros (Hmin & Hmax & Hr & Hz) Hfalsy.
  rewrite sanity_add_spec, Hmin, Hmax. unfold or_number. rewrite Hfalsy.
  pose proof (in_range_not_nan _ Hr) as Hnan.
  rewrite of_Z_0 at 1. rewrite add_pos_zero, clamp_in_range_id by done.
  unfold store. by rewrite strict_eq_refl.
Qed.

End Repeating.

Lemma set_twice_is_quiet_witness :
  wf (mod_state loaded)
  /\ @set quiet (VNumber (of_Z 30)) (@set quiet (VNumber (of_Z 30)) loaded).1 =
     ((@set quiet (VNumber (of_Z 30)) loaded).1,
      Ok (clamp (or_number (@ToNumber quiet (VNumber (of_Z 30))) (of_Z 0))
            (of_Z 0) (of_Z 100))).
Proof.
  assert (Hwf : wf (mod_state loaded)) by (repeat split; vm_compute; reflexivity).
  split; [exact Hwf|].
  exact (@set_twice_is_quiet quiet loaded (VNumber (of_Z 30)) Hwf).
Defined.

Lemma add_nothing_is_quiet_witness :
  wf (mod_state loaded)
  /\ truthy (@ToNumber quiet (VString (str "abc"))) = false
  /\ @add quiet (VString (str "abc")) loaded = (loaded, Ok (of_Z 100)).
Proof.
  assert (Hwf : wf (mod_state loaded)) by (repeat split; vm_compute; reflexivity).
  assert (Hf : truthy (@ToNumber quiet (VString (str "abc"))) = false)
    by (vm_compute; reflexivity).
  split; [exact Hwf|]. split; [exact Hf|].
  exact (@add_nothing_is_quiet quiet loaded (VString (str "abc")) Hwf Hf).
Defined.

(** ** Subscriptions *)

Section Subscriptions.
Context `{Host}.
Implicit Types (c : cfg SanityState) (f : callback).

(** The function returned by [subscribe] removes exactly one registration
    of the callback, the first one: what stood before it and what stood
    after it, later registrations of the same callback included, stay in
    place; when the callback is not registered the list stays as it is.
    It never touches the value or the world and never throws. *)
Theorem unsubscribe_removes_one c f :
  let l := subscribers (mod_state c) in
  let c' := (unsubscribe f c).1 in
  let l' := subscribers (mod_state c') in
  (unsubscribe f c).2 = Ok tt
  /\ world c' = world c
  /\ value (mod_state c') = value (mod_state c)
  /\ (f ∉ l -> l' = l)
  /\ (forall l1 l2, l = l1 ++ f :: l2 -> f ∉ l1 -> l' = l1 ++ l2)
  /\ filter (fun g => g <> f) l' = filter (fun g => g <> f) l
  /\ length (filter (fun g => g = f) l') = pred (length (filter (fun g => g = f) l)).
Proof.
  intros l c' l'. subst c' l'.
  destruct (decide (f ∈ l)) as [Hin|Hin].
  - destruct (list_elem_of_split_l _ _ Hin) as (l1 & l2 & Hl & Hl1).
    rewrite (unsubscribe_first f l1 l2 c Hl Hl1). cbn [fst snd mod_state world].
    split; [done|]. split; [done|]. split; [done|].
    cbn [subscribers set_subscribers]. fold l.
    split; [by intros Hnot|]. split.
    + intros k1 k2 Hk Hk1. rewrite Hl in Hk.
      assert (Hlen : length l1 = length k1).
      { destruct (Nat.lt_trichotomy (length l1) (length k1)) as [Hlt|[?|Hlt]];
          [|done|]; exfalso.
        - apply Hk1. apply (list_elem_of_lookup_2 _ (length l1)).
          rewrite <- (lookup_app_l k1 (f :: k2)) by done.
          rewrite <- Hk. by rewrite list_lookup_middle.
        - apply Hl1. apply (list_elem_of_lookup_2 _ (length k1)).
          rewrite <- (lookup_app_l l1 (f :: l2)) by done.
          rewrite Hk. by rewrite list_lookup_middle. }
      apply app_inj_1 in Hk as [-> Hk]; [|done]. by injection Hk as ->.
    + rewrite Hl. split.
      * rewrite !filter_app, filter_cons_False by (intros ?; congruence). done.
      * rewrite !filter_app, filter_cons_True by done.
        rewrite !length_app. cbn [length]. lia.
  - rewrite (unsubscribe_absent f c Hin). cbn [fst snd].
    split; [done|]. split; [done|]. split; [done|]. split; [done|]. split.
    + intros l1 l2 Hl _. exfalso. apply Hin. fold l. rewrite Hl.
      apply elem_of_app. right. by left.
    + split; [done|]. fold l.
      assert (filter (fun g => g = f) l = []) as ->; [|done].
      clear -Hin. induction l as [|g l IH]; [done|].
      apply not_elem_of_cons in Hin as [Hne Hin].
      rewrite filter_cons_False by congruence. auto.
Qed.

(** Subscribing and at once unsubscribing: a callback that was not
    subscribed leaves the list exactly as it was; one that was already
    subscribed ends up moved from its first place to the end. *)
Theorem subscribe_then_unsubscribe c f :
  exists unsub : M SanityState unit,
    (subscribe (VObject (OFunction f)) c).2 = Ok unsub
    /\ let l := subscribers (mod_state c) in
       let l' := subscribers
                   (mod_state (unsub (subscribe (VObject (OFunction f)) c).1).1) in
       (f ∉ l -> l' = l)
       /\ (forall l1 l2, l = l1 ++ f :: l2 -> f ∉ l1 -> l' = l1 ++ l2 ++ [f]).
Proof.
  exists (unsubscribe f). rewrite subscribe_spec. split; [done|].
  intros l l'. subst l'. cbn [fst]. split.
  - intros Hin.
    rewrite (unsubscribe_first f l []); [| |done].
    + cbn. by rewrite app_nil_r.
    + reflexivity.
  - intros l1 l2 Hl Hl1.
    rewrite (unsubscribe_first f l1 (l2 ++ [f])); [|cbn; fold l|done].
    + reflexivity.
    + by rewrite Hl, <- app_assoc.
Qed.

Lemma calls_to_fmap_call f (l : list callback) d :
  calls_to f ((fun cb => EvCall cb d) <$> l) =
  replicate (length (filter (fun g => g = f) l)) d.
Proof.
  induction l as [|g l IH]; [done|]. cbn [fmap list_fmap]. unfold calls_to in *.
  cbn [omap list_omap]. destruct (decide (g = f)) as [->|Hne].
  - rewrite bool_decide_true, filter_cons_True by done. cbn. by rewrite IH.
  - rewrite bool_decide_false, filter_cons_False by done. exact IH.
Qed.

Lemma calls_to_notify_events f (s : SanityState) tr :
  calls_to f (notify_events s tr) =
  replicate (length (filter (fun g => g = f) (subscribers s))) (DNumber (value s)).
Proof.
  unfold notify_events, badge_events.
  rewrite !calls_to_app, calls_to_fmap_call.
  assert (calls_to f (window_events (str "sanity:change") (DNumber (value s))) = [])
    as -> by (unfold window_events; by destruct CustomEvent_defined).
  destruct (mountedBadge s) as [badge|]; [|by rewrite !app_nil_r].
  destruct (badge_value_node _ _); by rewrite !app_nil_r.
Qed.

(** The subscribers are a list, not a set: on a change of the value a
    callback is called once for each time it is registered (so twice after
    subscribing it twice), every time with the new value. *)
Theorem called_once_per_registration c (v : jsval) f :
  let s := mod_state c in
  let nv := clamp (or_number (ToNumber v) (of_Z 0)) (min s) (max s) in
  strict_eq nv (value s) = false ->
  calls_to f (new_events c (set v c).1) =
  replicate (length (filter (fun g => g = f) (subscribers s))) (DNumber nv).
Proof.
  intros s nv Hchange. rewrite sanity_set_spec. unfold store. fold s nv.
  rewrite Hchange. cbn [fst].
  rewrite new_events_log_world by done.
  by rewrite calls_to_notify_events.
Qed.

(** What is not a function is not subscribed: nothing changes, nothing is
    called, and the function handed back does nothing.  And
    [addEventListener] subscribes for the type ["change"] only. *)
Theorem only_functions_subscribe c (cb type : jsval) :
  (is_function cb = None ->
   exists noop, subscribe cb c = (c, Ok noop)
                /\ addEventListener type cb c = (c, Ok noop)
                /\ forall c2, noop c2 = (c2, Ok tt))
  /\ (type <> VString (str "change") ->
      exists noop, addEventListener type cb c = (c, Ok noop)
                   /\ forall c2, noop c2 = (c2, Ok tt))
  /\ addEventListener (VString (str "change")) cb c = subscribe cb c.
Proof.
  unfold addEventListener, subscribe. split; [|split].
  - intros ->. exists (ret tt). by case_bool_decide.
  - intros Hne. exists (ret tt). by rewrite bool_decide_false.
  - by rewrite bool_decide_true.
Qed.

End Subscriptions.

Lemma unsubscribe_removes_one_witness :
  let c := Cfg (set_subscribers [7; 1; 7]%nat STATE0) World0 in
  (7%nat ∉ @nil nat)
  /\ subscribers (mod_state (unsubscribe 7%nat c).1) = [1; 7]%nat.
Proof.
  intros c.
  assert (H2 : 7%nat ∉ @nil nat) by apply not_elem_of_nil.
  split; [done|].
  exact (proj1 (proj2 (proj2 (proj2 (proj2
           (unsubscribe_removes_one c 7%nat)))))
           [] [1; 7]%nat eq_refl H2).
Defined.

Lemma subscribe_then_unsubscribe_witness :
  let c := Cfg (set_subscribers [4; 9]%nat STATE0) World0 in
  (4%nat ∉ @nil nat)
  /\ subscribers
       (mod_state (unsubscribe 4%nat
                     (@subscribe quiet (VObject (OFunction 4%nat)) c).1).1)
     = [9; 4]%nat.
Proof.
  intros c.
  assert (H2 : 4%nat ∉ @nil nat) by apply not_elem_of_nil.
  split; [done|].
  destruct (@subscribe_then_unsubscribe quiet c 4%nat) as (unsub & Hsub & _ & Hmove).
  rewrite subscribe_spec in Hsub. cbn in Hsub. injection Hsub as <-.
  exact (Hmove [] [9%nat] eq_refl H2).
Defined.

Lemma called_once_per_registration_witness :
  let c := Cfg (set_subscribers [4; 9; 4]%nat STATE0) World0 in
  strict_eq (clamp (or_number (@ToNumber quiet (VNumber (of_Z 30))) (of_Z 0))
               (min (mod_state c)) (max (mod_state c)))
    (value (mod_state c)) = false
  /\ calls_to 4%nat (new_events c (@set quiet (VNumber (of_Z 30)) c).1) =
     [DNumber (of_Z 30); DNumber (of_Z 30)].
Proof.
  intros c.
  assert (Hne : strict_eq (clamp (or_number (@ToNumber quiet (VNumber (of_Z 30))) (of_Z 0))
               (min (mod_state c)) (max (mod_state c)))
    (value (mod_state c)) = false) by (vm_compute; reflexivity).
  split; [exact Hne|].
  rewrite (@called_once_per_registration quiet c (VNumber (of_Z 30)) 4%nat Hne).
  vm_compute. reflexivity.
Defined.

Lemma only_functions_subscribe_witness :
  @is_function (VString (str "f")) = None
  /\ VString (str "click") <> VString (str "change")
  /\ (@subscribe quiet (VString (str "f")) loaded).1 = loaded
  /\ (@addEventListener quiet (VString (str "click")) (VObject (OFunction 1%nat))
        loaded).1 = loaded.
Proof.
  destruct (@only_functions_subscribe quiet loaded (VString (str "f"))
              (VString (str "click"))) as (Hnf & _).
  destruct (@only_functions_subscribe quiet loaded (VObject (OFunction 1%nat))
              (VString (str "click"))) as (_ & Hty & _).
  assert (H1 : @is_function (VString (str "f")) = None) by reflexivity.
  assert (H2 : VString (str "click") <> VString (str "change")) by discriminate.
  split; [exact H1|]. split; [exact H2|]. split.
  - destruct (Hnf H1) as (noop & -> & _). reflexivity.
  - destruct (Hty H2) as (noop & -> & _). reflexivity.
Defined.

(** ** What each call may change in [STATE] *)

Definition keeps_inv {A} (J : SanityState -> Prop) (m : M SanityState A) : Prop :=
  forall c, J (mod_state c) -> J (mod_state (m c).1).

Definition is_init (a : api_call) : bool :=
  match a with CallInit _ => true | _ => false end.

Definition touches_subscribers (a : api_call) : bool :=
  match a with
  | CallSubscribe _ | CallOnChange _ | CallUnsubscribe _ => true
  | _ => false
  end.

Section StateInvariant.
Context `{Host} (J : SanityState -> Prop).
Hypothesis J_value : forall v s, J s -> J (set_value v s).
Hypothesis J_badge : forall b s, J s -> J (set_mountedBadge b s).

Lemma keeps_inv_bind {A B} (m : M SanityState A) (k : A -> M SanityState B) :
  keeps_inv J m -> (forall a, keeps_inv J (k a)) -> keeps_inv J (bind m k).
Proof.
  intros Hm Hk c HJ. unfold bind. specialize (Hm c HJ).
  destruct (m c) as [c' [a|e]]; cbn [fst] in *; [|done].
  by apply Hk.
Qed.

Lemma keeps_inv_state {A} (m : M SanityState A) : keeps_state m -> keeps_inv J m.
Proof. intros Hm c HJ. by rewrite Hm. Qed.

Lemma keeps_inv_modify (f : SanityState -> SanityState) :
  (forall s, J s -> J (f s)) -> keeps_inv J (modify f).
Proof. intros Hf c HJ. by apply Hf. Qed.

Lemma keeps_inv_store (nv : number) c :
  J (mod_state c) -> J (mod_state (store nv c).1).
Proof. intros HJ. unfold store. destruct (strict_eq _ _); [done|]. by apply J_value. Qed.

Lemma keeps_inv_ensureBadge o : keeps_inv J (ensureBadge o).
Proof.
  destruct o as [container|]; [|by intros ? ?]. unfold ensureBadge.
  apply keeps_inv_bind; [by intros ? ?|]. intros w.
  pose proof (keeps_inv_state _ keeps_state_notify) as Hnotify.
  destruct (existing_pill _ _).
  - apply keeps_inv_bind; [apply keeps_inv_modify, J_badge|intros _].
    apply keeps_inv_bind; [apply Hnotify|by intros ? ?].
  - apply keeps_inv_bind; [by intros ? ?|intros _].
    apply keeps_inv_bind; [apply keeps_inv_modify, J_badge|intros _].
    apply keeps_inv_bind; [apply Hnotify|by intros ? ?].
Qed.

(** [init] after its two assignments to [STATE]. *)
Lemma init_keeps_from opts c :
  let s1 := set_options
              (assign (options (mod_state c))
                 (default {| opt_start := None; opt_mount := None |} opts))
              (mod_state c) in
  let s2 := set_value
              (clamp
                 (or_number
                    (ToNumber (nullish (start (options s1)) (VNumber (of_Z 100))))
                    (of_Z 100))
                 (min s1) (max s1)) s1 in
  J s2 -> J (mod_state (init opts c).1).
Proof.
  intros s1 s2 HJ. unfold init.
  erewrite bind_Ok by apply sanity_modify_spec.
  erewrite bind_Ok by apply sanity_modify_spec.
  match goal with
  | |- J (mod_state (bind ?m ?k ?c').1) =>
      assert (Hk : keeps_inv J (bind m k)); [|exact (Hk c' HJ)]
  end.
  apply keeps_inv_bind; [by intros ? ?|]. intros s.
  apply keeps_inv_bind; [|intros; apply keeps_inv_state, keeps_state_notify].
  destruct (ToBoolean _); [|by intros ? ?].
  apply keeps_inv_bind.
  - destruct (mount (options s)) as [| | | | selector|[| |]]; try (by intros ? ?).
    apply keeps_inv_bind; [by intros ? ?|]. intros w.
    destruct (document_querySelector _ _); by intros ? ?.
  - intros [container|]; [|by intros ? ?].
    apply keeps_inv_bind; [apply keeps_inv_ensureBadge|by intros ? ?].
Qed.

Lemma keeps_inv_init opts :
  (forall o s, J s -> J (set_options o s)) -> keeps_inv J (init opts).
Proof.
  intros J_options c HJ. apply init_keeps_from. by apply J_value, J_options.
Qed.

Lemma keeps_inv_subscribe cb :
  (forall l s, J s -> J (set_subscribers l s)) -> keeps_inv J (subscribe cb).
Proof.
  intros J_subs. unfold subscribe. destruct (is_function cb) as [f|]; [|by intros ? ?].
  apply keeps_inv_bind; [apply keeps_inv_modify; intros; by apply J_subs|intros _].
  apply keeps_inv_bind; [by intros ? ?|]. intros s.
  apply keeps_inv_bind; [|by intros ? ?].
  apply keeps_inv_state. intros c. by rewrite try_call_spec.
Qed.

Lemma keeps_inv_unsubscribe f :
  (forall l s, J s -> J (set_subscribers l s)) -> keeps_inv J (unsubscribe f).
Proof.
  intros J_subs. unfold unsubscribe. apply keeps_inv_bind; [by intros ? ?|].
  intros s. destruct (0 <=? _); [|by intros ? ?].
  apply keeps_inv_modify. intros. by apply J_subs.
Qed.

Lemma perform_keeps (a : api_call) c :
  (is_init a = true -> forall o s, J s -> J (set_options o s)) ->
  (touches_subscribers a = true -> forall l s, J s -> J (set_subscribers l s)) ->
  J (mod_state c) -> J (mod_state (perform a c)).
Proof.
  intros J_options J_subs.
  destruct a; cbn [perform is_init touches_subscribers] in *.
  - by apply keeps_inv_init, J_options.
  - done.
  - rewrite sanity_set_spec. apply keeps_inv_store.
  - rewrite sanity_add_spec. apply keeps_inv_store.
  - unfold change. rewrite sanity_add_spec. apply keeps_inv_store.
  - by apply keeps_inv_subscribe, J_subs.
  - by apply keeps_inv_subscribe, J_subs.
  - by apply keeps_inv_unsubscribe, J_subs.
  - apply keeps_inv_state, keeps_state_wrapTypeText.
Qed.

End StateInvariant.

Section Frames.
Context `{Host}.
Implicit Types (c : cfg SanityState) (a : api_call).

(** Only [subscribe] (with its alias) and the functions it returns change
    the subscriber list; only [init] changes the options; nothing changes
    the bounds or the timer handle. *)
Theorem calls_change_only_their_part a c :
  let s := mod_state c in
  let s' := mod_state (perform a c) in
  (touches_subscribers a = false -> subscribers s' = subscribers s)
  /\ (is_init a = false -> options s' = options s)
  /\ min s' = min s /\ max s' = max s /\ effectTimer s' = effectTimer s.
Proof.
  intros s s'. subst s'. repeat split.
  - intros Hsub.
    apply (perform_keeps (fun s' => subscribers s' = subscribers s)); try done.
    by rewrite Hsub.
  - intros Hinit.
    apply (perform_keeps (fun s' => options s' = options s)); try done.
    by rewrite Hinit.
  - by apply (perform_keeps (fun s' => min s' = min s)).
  - by apply (perform_keeps (fun s' => max s' = max s)).
  - by apply (perform_keeps (fun s' => effectTimer s' = effectTimer s)).
Qed.

(** [init] remembers its start value: after [init({start: x})] for a
    number [x] other than 0 and NaN, whatever is set, added, subscribed or
    typed in between, a later [init()] or [init({})] puts the value back
    to [clamp(x, 0, 100)]. *)
Theorem init_again_restores_start c (x : number) (m m' : option jsval)
    (between : list api_call) (again : option InitOptions) :
  wf (mod_state c) ->
  truthy x = true ->
  Forall (fun a => is_init a = false) between ->
  again = None \/ again = Some {| opt_start := None; opt_mount := m' |} ->
  let c1 := (init (Some {| opt_start := Some (VNumber x); opt_mount := m |}) c).1 in
  let c2 := foldl (fun c a => perform a c) c1 between in
  (get (init again c2).1).2 = Ok (clamp x (of_Z 0) (of_Z 100)).
Proof.
  intros Hwf Hx Hbetween Hagain c1 c2.
  assert (Hinv : forall l c0,
             Forall (fun a => is_init a = false) l ->
             wf (mod_state c0) ->
             wf (mod_state (foldl (fun c a => perform a c) c0 l))
             /\ start (options (mod_state (foldl (fun c a => perform a c) c0 l)))
                = start (options (mod_state c0))).
  { induction l as [|a l IH]; intros c0 Hl Hwf0; [done|].
    apply Forall_cons in Hl as [Ha Hl]. cbn [foldl].
    destruct (IH (perform a c0) Hl (perform_wf a c0 Hwf0)) as [? ->].
    split; [done|].
    apply (perform_keeps
             (fun s' => start (options s') = start (options (mod_state c0))));
      try done.
    by rewrite Ha. }
  assert (Hwf1 : wf (mod_state c1)) by (by apply keeps_wf_init).
  destruct (Hinv between c1 Hbetween Hwf1) as [(Hmin & Hmax & _) Hstart].
  fold c2 in Hmin, Hmax, Hstart.
  rewrite get_spec. cbn [snd]. rewrite init_value, Hmin, Hmax.
  assert (start (options (mod_state c1)) = VNumber x) as Hs1.
  { subst c1.
    by apply (init_keeps_from (fun s => start (options s) = VNumber x)). }
  assert (start (assign (options (mod_state c2))
                   (default {| opt_start := None; opt_mount := None |} again))
          = VNumber x) as ->.
  { destruct Hagain as [-> | ->]; cbn; by rewrite Hstart, Hs1. }
  cbn. unfold or_number. by rewrite Hx.
Qed.

End Frames.

(** ** [init] and the mount point *)

Definition is_append (ev : event) : bool :=
  match ev with EvAppendChild _ _ => true | _ => false end.

Section Mounting.
Context `{Host}.
Implicit Types (c : cfg SanityState).

(** The options and the value [init] stores before it looks at the mount
    point. *)
Definition init_options (opts : option InitOptions) (s : SanityState) : Options :=
  assign (options s) (default {| opt_start := None; opt_mount := None |} opts).

Definition init_state (opts : option InitOptions) (s : SanityState) : SanityState :=
  let s1 := set_options (init_options opts s) s in
  set_value
    (clamp
       (or_number
          (ToNumber (nullish (start (options s1)) (VNumber (of_Z 100))))
          (of_Z 100))
       (min s1) (max s1)) s1.

(** A selector that [document.querySelector] rejects: [init] throws what
    the query threw, after it has stored the options and the value and
    before it notifies anybody, so no subscriber learns of the new value. *)
Theorem init_bad_selector_throws c opts (selector : jsstring) (e : exn) :
  mount (init_options opts (mod_state c)) = VString selector ->
  selector <> [] ->
  document_querySelector (trace (world c)) selector = Throw e ->
  init opts c = (Cfg (init_state opts (mod_state c)) (world c), Throw e).
Proof.
  intros Hmount Hsel Hthrow. unfold init.
  erewrite bind_Ok by apply sanity_modify_spec.
  erewrite bind_Ok by apply sanity_modify_spec.
  erewrite bind_Ok by reflexivity.
  cbn [mod_state world]. fold (init_options opts (mod_state c)).
  change (mount (options (set_value _ (set_options ?o _)))) with (mount o).
  rewrite Hmount. cbn [ToBoolean]. rewrite bool_decide_false by done.
  cbn [negb]. apply bind_Throw. apply bind_Throw.
  erewrite bind_Ok by reflexivity. cbn [world]. by rewrite Hthrow.
Qed.

Lemma ensureBadge_spec (container : element) c :
  let tr := trace (world c) in
  ensureBadge (Some container) c =
  match existing_pill tr container with
  | Some pill =>
      let s' := set_mountedBadge (Some pill) (mod_state c) in
      (log_events (notify_events s' tr) (Cfg s' (world c)), Ok (Some pill))
  | None =>
      let pill := createElement tr in
      let s' := set_mountedBadge (Some pill) (mod_state c) in
      let ev := EvAppendChild container pill in
      (log_events (ev :: notify_events s' (tr ++ [ev])) (Cfg s' (world c)),
       Ok (Some pill))
  end.
Proof.
  intros tr. unfold ensureBadge.
  erewrite bind_Ok by reflexivity. fold tr.
  destruct (existing_pill tr container) as [pill|].
  - erewrite bind_Ok by apply sanity_modify_spec.
    erewrite bind_Ok by apply notify_spec. reflexivity.
  - erewrite bind_Ok by apply emit_spec.
    erewrite bind_Ok by apply sanity_modify_spec.
    erewrite bind_Ok by apply notify_spec.
    cbn [mod_state world log_events add_trace trace ret].
    unfold log_events. cbn [mod_state world]. by rewrite add_trace_app.
Qed.

(** An element as mount point: the badge becomes the pill already in the
    container if there is one, and a new pill appended to it otherwise
    (one [appendChild] at most); [init] returns normally, and every
    subscriber has been called twice with the value, once when the badge
    was mounted and once at the end. *)
Theorem init_mounts_one_badge c opts (container : element) :
  mount (init_options opts (mod_state c)) = VObject (OElement container) ->
  let tr := trace (world c) in
  let s2 := init_state opts (mod_state c) in
  let pill := default (createElement tr) (existing_pill tr container) in
  let told := (fun cb => (cb, DNumber (value s2))) <$> subscribers s2 in
  let c' := (init opts c).1 in
  (init opts c).2 = Ok tt
  /\ mod_state c' = set_mountedBadge (Some pill) s2
  /\ calls (new_events c c') = told ++ told
  /\ filter (fun ev => is_append ev = true) (new_events c c') =
     (if existing_pill tr container is Some _ then []
      else [EvAppendChild container pill]).
Proof.
  intros Hmount tr s2 pill told c'. subst c'. unfold init.
  erewrite bind_Ok by apply sanity_modify_spec.
  erewrite bind_Ok by apply sanity_modify_spec.
  erewrite bind_Ok by reflexivity.
  cbn [mod_state world]. fold (init_options opts (mod_state c)).
  change (mount (options (set_value _ (set_options ?o _)))) with (mount o).
  rewrite Hmount. cbn [ToBoolean].
  assert (Hfilter : forall s tr', filter (fun ev => is_append ev = true)
                                    (notify_events s tr') = []).
  { intros s tr'. unfold notify_events, badge_events, window_events.
    rewrite !filter_app.
    assert (filter (fun ev => is_append ev = true)
              ((fun cb => EvCall cb (DNumber (value s))) <$> subscribers s) = [])
      as -> by (by induction (subscribers s)).
    destruct CustomEvent_defined, (mountedBadge s) as [badge|]; cbn; try done;
      by destruct (badge_value_node _ _). }
  fold (init_state opts (mod_state c)). fold s2.
  pose proof (ensureBadge_spec container (Cfg s2 (world c))) as Hbadge.
  cbn [world mod_state] in Hbadge. fold tr in Hbadge.
  destruct (existing_pill tr container) as [p|] eqn:Hex; cbn [default] in pill;
    subst pill; cbv zeta in Hbadge.
  - erewrite bind_Ok; cycle 1.
    { erewrite bind_Ok by reflexivity. cbv beta iota.
      erewrite bind_Ok by apply Hbadge. reflexivity. }
    rewrite notify_spec. cbn [fst snd]. rewrite log_events_app. cbn [mod_state].
    rewrite new_events_log_world by done.
    repeat split.
    + by rewrite calls_app, !FanoutProps.calls_notify_events.
    + by rewrite filter_app, !Hfilter.
  - erewrite bind_Ok; cycle 1.
    { erewrite bind_Ok by reflexivity. cbv beta iota.
      erewrite bind_Ok by apply Hbadge. reflexivity. }
    rewrite notify_spec. cbn [fst snd]. rewrite log_events_app. cbn [mod_state].
    rewrite new_events_log_world by done.
    repeat split.
    + change (?e :: ?l) with ([e] ++ l) at 1.
      by rewrite !calls_app, !FanoutProps.calls_notify_events.
    + by rewrite filter_app, filter_cons_True, !Hfilter by done.
Qed.

End Mounting.

(** ** What subscribers get to see *)

(** A number carried to a callback or to the window is in [0,100]. *)
Definition carries_in_range (ev : event) : Prop :=
  match ev with
  | EvCall _ (DNumber x) | EvWindow _ (DNumber x) => in_range x
  | _ => True
  end.

Definition sound (c : cfg SanityState) : Prop :=
  wf (mod_state c) /\ Forall carries_in_range (trace (world c)).

Definition keeps_sound {A} (m : M SanityState A) : Prop :=
  forall c, sound c -> sound (m c).1.

Section Soundness.
Context `{Host}.
Implicit Types (c : cfg SanityState).

Lemma keeps_sound_bind {A B} (m : M SanityState A) (k : A -> M SanityState B) :
  keeps_sound m -> (forall a, keeps_sound (k a)) -> keeps_sound (bind m k).
Proof.
  intros Hm Hk c Hc. unfold bind. specialize (Hm c Hc).
  destruct (m c) as [c' [a|e]]; cbn [fst] in *; [|done].
  by apply Hk.
Qed.

Lemma sound_log (evs : list event) (s' : SanityState) c :
  sound c -> wf s' -> Forall carries_in_range evs ->
  sound (log_events evs (Cfg s' (world c))).
Proof.
  intros [_ Htr] Hwf Hevs. split; [done|]. cbn. by apply Forall_app.
Qed.

Lemma notify_events_in_range (s : SanityState) tr :
  wf s -> Forall carries_in_range (notify_events s tr).
Proof.
  intros (_ & _ & Hr & _). unfold notify_events, badge_events, window_events.
  repeat apply Forall_app_2.
  - apply Forall_fmap, Forall_forall. by intros cb _.
  - destruct CustomEvent_defined; [by apply Forall_singleton|constructor].
  - destruct (mountedBadge s) as [badge|]; [|constructor].
    destruct (badge_value_node _ _); [by apply Forall_singleton|constructor].
Qed.

Lemma keeps_sound_notify : keeps_sound notify.
Proof.
  intros c Hc. rewrite notify_spec. cbn [fst]. destruct c as [s w].
  apply (sound_log _ s (Cfg s w)); [done|apply Hc|].
  apply notify_events_in_range, Hc.
Qed.

Lemma keeps_sound_modify (f : SanityState -> SanityState) :
  (forall s, wf s -> wf (f s)) -> keeps_sound (modify f).
Proof. intros Hf c [Hwf Htr]. split; [by apply Hf|done]. Qed.

Lemma keeps_sound_emit ev : carries_in_range ev -> keeps_sound (emit ev).
Proof.
  intros Hev c [Hwf Htr]. split; [done|]. cbn. apply Forall_app.
  split; [done|by apply Forall_singleton].
Qed.

Lemma keeps_sound_quiet {A} (m : M SanityState A) :
  (forall c, mod_state (m c).1 = mod_state c
             /\ trace (world (m c).1) = trace (world c)) ->
  keeps_sound m.
Proof. intros Hm c [Hwf Htr]. destruct (Hm c) as [Hs Ht]. split; congruence. Qed.

Lemma keeps_sound_call_number (f : callback) (x : number) :
  in_range x -> keeps_sound (try_catch (call f (DNumber x)) (fun _ => ret tt)).
Proof.
  intros Hx c [Hwf Htr]. rewrite try_call_spec. split; [done|].
  cbn. apply Forall_app. split; [done|by apply Forall_singleton].
Qed.

Lemma keeps_sound_store (x : number) c :
  sound c -> is_nan x = false ->
  sound (store (clamp x (min (mod_state c)) (max (mod_state c))) c).1.
Proof.
  intros Hc Hx. unfold store. destruct (strict_eq _ _); [done|]. cbn [fst].
  assert (wf (set_value (clamp x (min (mod_state c)) (max (mod_state c)))
                (mod_state c))) as Hwf' by (apply wf_set_value; [apply Hc|done]).
  apply sound_log; [done|done|]. by apply notify_events_in_range.
Qed.

Lemma keeps_sound_ensureBadge o : keeps_sound (ensureBadge o).
Proof.
  destruct o as [container|]; [|by intros ? ?]. unfold ensureBadge.
  apply keeps_sound_bind; [by intros ? ?|]. intros w.
  destruct (existing_pill _ _).
  - apply keeps_sound_bind; [by apply keeps_sound_modify|intros _].
    apply keeps_sound_bind; [apply keeps_sound_notify|by intros ? ?].
  - apply keeps_sound_bind; [by apply keeps_sound_emit|intros _].
    apply keeps_sound_bind; [by apply keeps_sound_modify|intros _].
    apply keeps_sound_bind; [apply keeps_sound_notify|by intros ? ?].
Qed.

Lemma keeps_sound_init opts : keeps_sound (init opts).
Proof.
  unfold init.
  apply keeps_sound_bind; [by apply keeps_sound_modify|intros _].
  apply keeps_sound_bind.
  { apply keeps_sound_modify. intros s Hwf. apply wf_set_value; [done|].
    by apply or_number_not_nan. }
  intros _. apply keeps_sound_bind; [by intros ? ?|]. intros s.
  apply keeps_sound_bind; [|intros; apply keeps_sound_notify].
  destruct (ToBoolean _); [|by intros ? ?].
  apply keeps_sound_bind.
  - destruct (mount (options s)) as [| | | | selector|[| |]]; try (by intros ? ?).
    apply keeps_sound_bind; [by intros ? ?|]. intros w.
    destruct (document_querySelector _ _); by intros ? ?.
  - intros [container|]; [|by intros ? ?].
    apply keeps_sound_bind; [apply keeps_sound_ensureBadge|by intros ? ?].
Qed.

Lemma keeps_sound_subscribe cb : keeps_sound (subscribe cb).
Proof.
  unfold subscribe. destruct (is_function cb) as [f|]; [|by intros ? ?].
  intros c Hc.
  pose proof (subscribe_spec f c) as Hspec. unfold subscribe in Hspec.
  cbn [is_function] in Hspec. rewrite Hspec. cbn [fst].
  destruct Hc as [Hwf Htr]. split; [done|]. cbn.
  apply Forall_app. split; [done|]. apply Forall_singleton. apply Hwf.
Qed.

Lemma keeps_sound_unsubscribe f : keeps_sound (unsubscribe f).
Proof.
  unfold unsubscribe. apply keeps_sound_bind; [by intros ? ?|]. intros s.
  destruct (0 <=? _); [|by intros ? ?]. by apply keeps_sound_modify.
Qed.

Lemma keeps_sound_mutate intensity ch : keeps_sound (mutate intensity ch).
Proof.
  unfold mutate. destruct (negb _); [by intros ? ?|].
  apply keeps_sound_bind; [by intros ? ?|]. intros roll.
  destruct (gt _ _); [by intros ? ?|].
  apply keeps_sound_bind; [by intros ? ?|]. intros r.
  destruct (index _ _) as [[]|]; by intros ? ?.
Qed.

Lemma keeps_sound_wrapTypeText typeFn text : keeps_sound (wrapTypeText typeFn text).
Proof.
  unfold wrapTypeText. destruct (is_function typeFn) as [f|]; [|by intros ? ?].
  unfold wrapped. apply keeps_sound_bind; [by intros ? ?|]. intros v.
  apply keeps_sound_bind.
  { generalize (ToString text). intros t.
    induction t as [|ch t IH]; [by intros ? ?|]. cbn [map_join].
    apply keeps_sound_bind; [apply keeps_sound_mutate|]. intros a.
    apply keeps_sound_bind; [exact IH|by intros ? ?]. }
  intros glitched. apply keeps_sound_bind; [by intros ? ?|]. intros r.
  intros c [Hwf Htr]. rewrite call_spec. split; [done|]. cbn.
  apply Forall_app. split; [done|by apply Forall_singleton].
Qed.

Lemma perform_sound (a : api_call) c : sound c -> sound (perform a c).
Proof.
  destruct a; cbn [perform].
  - apply keeps_sound_init.
  - done.
  - intros Hc. rewrite sanity_set_spec. apply keeps_sound_store; [done|].
    apply or_zero_not_nan.
  - intros Hc. rewrite sanity_add_spec. apply keeps_sound_store; [done|].
    apply sum_not_nan, Hc.
  - intros Hc. unfold change. rewrite sanity_add_spec.
    apply keeps_sound_store; [done|]. apply sum_not_nan, Hc.
  - apply keeps_sound_subscribe.
  - apply keeps_sound_subscribe.
  - apply keeps_sound_unsubscribe.
  - apply keeps_sound_wrapTypeText.
Qed.

(** From the loaded module on, whatever the page calls and in whatever
    order, every number a subscriber is called with and every number sent
    with a ["sanity:change"] event lies in [0,100] (given that this held of
    the trace at the start, as it does of the empty one). *)
Theorem subscribers_see_only_the_range (w : World) (l : list api_call) :
  Forall carries_in_range (trace w) ->
  Forall carries_in_range
    (trace (world (foldl (fun c a => perform a c) (Cfg STATE0 w) l))).
Proof.
  intros Hw.
  assert (forall c0, sound c0 -> sound (foldl (fun c a => perform a c) c0 l)) as Hall.
  { induction l as [|a l IH]; intros c0 Hc0; [done|].
    cbn [foldl]. by apply IH, perform_sound. }
  apply Hall. split; [apply wf_STATE0|done].
Qed.

End Soundness.

(** ** The severity tiers *)

Lemma le_trans_from_pos (ma : positive) (ea : Z) (v v' : number) :
  le (S754_finite false ma ea) v = true -> le v v' = true ->
  le (S754_finite false ma ea) v' = true.
Proof.
  unfold le, SFleb.
  destruct v as [[]|[]| |[] m e], v' as [[]|[]| |[] m' e'];
    cbn [SFcompare]; try congruence.
  change (Pos.compare_cont Eq ma m) with (Pos.compare ma m).
  change (Pos.compare_cont Eq m m') with (Pos.compare m m').
  change (Pos.compare_cont Eq ma m') with (Pos.compare ma m').
  destruct (Z.compare_spec ea e), (Z.compare_spec e e'), (Z.compare_spec ea e');
    try lia; try congruence; subst;
    destruct (Pos.compare_spec ma m), (Pos.compare_spec m m'),
      (Pos.compare_spec ma m'); try lia; congruence.
Qed.

Lemma ge_mono (a : Z) (v v' : number) :
  a = 20 \/ a = 40 \/ a = 60 \/ a = 80 ->
  le v v' = true -> ge v (of_Z a) = true -> ge v' (of_Z a) = true.
Proof.
  unfold ge. intros Ha Hle.
  destruct Ha as [-> | [-> | [-> | ->]]];
    rewrite ?of_Z_20, ?of_Z_40, ?of_Z_60, ?of_Z_80;
    intros Hge; by apply (le_trans_from_pos _ _ v).
Qed.

(** The tier is one of 1..5, and it never rises with the value: a lower
    value has the same or a higher tier, and the same or a higher glitch
    intensity. *)
Theorem tier_falls_as_value_rises (v v' : number) :
  le v v' = true ->
  1 <= tierFor v <= 5
  /\ tierFor v' <= tierFor v
  /\ le (intensity_of_tier (tierFor v')) (intensity_of_tier (tierFor v)) = true.
Proof.
  intros Hle.
  pose proof (ge_mono 80 v v' ltac:(auto) Hle) as H80.
  pose proof (ge_mono 60 v v' ltac:(auto) Hle) as H60.
  pose proof (ge_mono 40 v v' ltac:(auto) Hle) as H40.
  pose proof (ge_mono 20 v v' ltac:(auto) Hle) as H20.
  unfold tierFor.
  destruct (ge v (of_Z 80)); [rewrite H80 by done|];
    [|destruct (ge v (of_Z 60)); [rewrite H60 by done|];
      [|destruct (ge v (of_Z 40)); [rewrite H40 by done|];
        [|destruct (ge v (of_Z 20)); [rewrite H20 by done|]]]];
    repeat match goal with
      | |- context [if ge v' ?a then _ else _] => destruct (ge v' a)
      end;
    (split; [lia|split; [lia|vm_compute; reflexivity]]).
Qed.

Lemma tier_falls_as_value_rises_witness :
  le (of_Z 35) (of_Z 70) = true
  /\ tierFor (of_Z 35) = 4 /\ tierFor (of_Z 70) = 2
  /\ le (intensity_of_tier (tierFor (of_Z 70)))
        (intensity_of_tier (tierFor (of_Z 35))) = true.
Proof.
  assert (Hle : le (of_Z 35) (of_Z 70) = true) by (vm_compute; reflexivity).
  split; [exact Hle|]. split; [vm_compute; reflexivity|].
  split; [vm_compute; reflexivity|].
  exact (proj2 (proj2 (tier_falls_as_value_rises _ _ Hle))).
Defined.

(** ** The typewriter wrapper *)

Section Typing.
Context `{Host}.
Implicit Types (c : cfg SanityState).

Lemma count_randoms_add (a b : nat) (w : World) :
  count_randoms b (count_randoms a w) = count_randoms (a + b) w.
Proof. revert w. induction a as [|a IH]; intros w; [done|]. cbn. apply IH. Qed.

Lemma trace_count_randoms (k : nat) (w : World) :
  trace (count_randoms k w) = trace w.
Proof. revert w. induction k as [|k IH]; intros w; [done|]. cbn. by rewrite IH. Qed.

Lemma localStorage_count_randoms (k : nat) (w : World) :
  localStorage (count_randoms k w) = localStorage w.
Proof. revert w. induction k as [|k IH]; intros w; [done|]. cbn. by rewrite IH. Qed.

Lemma random_calls_count_randoms (k : nat) (w : World) :
  random_calls (count_randoms k w) = (random_calls w + k)%nat.
Proof.
  revert w. induction k as [|k IH]; intros w; cbn; [lia|]. rewrite IH. cbn. lia.
Qed.

(** One character: up to three rolls, one or two code units out, and a
    character outside the class untouched without a roll. *)
Lemma mutate_spec (intensity : number) (ch : N) c :
  exists (k : nat) (out : jsstring),
    mutate intensity ch c =
      (Cfg (mod_state c) (count_randoms k (world c)), Ok out)
    /\ (k <= 3)%nat
    /\ (1 <= length out <= 2)%nat
    /\ (glitchable ch = false -> k = 0%nat /\ out = [ch]).
Proof.
  unfold mutate. destruct (glitchable ch) eqn:Hg; cbn [negb].
  2:{ exists 0%nat, [ch]. destruct c. cbn. repeat split; lia. }
  erewrite bind_Ok by apply random_spec.
  destruct (gt _ _).
  { exists 1%nat, [ch]. cbn. repeat split; try lia; done. }
  erewrite bind_Ok by apply random_spec.
  destruct (index _ _) as [[]|].
  - exists 2%nat, [ch; ch]. cbn. repeat split; try lia; done.
  - erewrite bind_Ok by apply random_spec.
    eexists 3%nat, _. split; [reflexivity|].
    destruct (lt _ _); cbn; repeat split; try lia; done.
  - exists 2%nat, [183%N]. cbn. repeat split; try lia; done.
  - exists 2%nat, [126%N]. cbn. repeat split; try lia; done.
  - exists 2%nat, [ch; 8202%N]. cbn. repeat split; try lia; done.
  - exists 2%nat, [ch]. cbn. repeat split; try lia; done.
Qed.

Lemma map_join_spec (intensity : number) (text : jsstring) c :
  exists (k : nat) (out : jsstring),
    map_join (mutate intensity) text c =
      (Cfg (mod_state c) (count_randoms k (world c)), Ok out)
    /\ (k <= 3 * length text)%nat
    /\ (length text <= length out <= 2 * length text)%nat
    /\ (Forall (fun ch => glitchable ch = false) text -> k = 0%nat /\ out = text).
Proof.
  revert c. induction text as [|ch text IH]; intros c; cbn [map_join].
  - exists 0%nat, []. destruct c. cbn. repeat split; lia.
  - destruct (mutate_spec intensity ch c) as (k1 & o1 & Hm & Hk1 & Ho1 & Hplain1).
    erewrite bind_Ok by apply Hm.
    destruct (IH (Cfg (mod_state c) (count_randoms k1 (world c))))
      as (k2 & o2 & Hj & Hk2 & Ho2 & Hplain2).
    erewrite bind_Ok by apply Hj.
    exists (k1 + k2)%nat, (o1 ++ o2). cbn [mod_state world ret].
    rewrite count_randoms_add. split; [done|].
    rewrite length_app. cbn [length].
    split; [lia|]. split; [lia|].
    intros Hall. apply Forall_cons in Hall as [Hch Hall].
    destruct (Hplain1 Hch) as [-> ->], (Hplain2 Hall) as [-> ->]. done.
Qed.

(** Everything the wrapped function does. *)
Lemma wrapped_spec (typeFn : callback) (text : jsval) c :
  let t := ToString text in
  exists (k : nat) (out : jsstring),
    wrapTypeText (VObject (OFunction typeFn)) text c =
      (Cfg (mod_state c)
         (add_trace [EvCall typeFn (DString out)] (count_randoms k (world c))),
       if callback_throws (trace (world c)) typeFn (DString out)
       then Throw (Thrown typeFn) else Ok tt)
    /\ (1 <= k <= 3 * length t + 1)%nat
    /\ (length t <= length out <= 2 * length t + 1)%nat
    /\ (Forall (fun ch => glitchable ch = false) t ->
        k = 1%nat /\ (out = t \/ out = t ++ [8205%N])).
Proof.
  intros t. cbn [wrapTypeText is_function]. unfold wrapped.
  erewrite bind_Ok by apply get_spec.
  destruct (map_join_spec (intensity_of_tier (tierFor (value (mod_state c)))) t c)
    as (k & o & Hj & Hk & Ho & Hplain).
  fold t. erewrite bind_Ok by apply Hj.
  erewrite bind_Ok by apply random_spec.
  rewrite call_spec. cbn [mod_state world log_events].
  change (count_random (count_randoms k (world c)))
    with (count_randoms 1 (count_randoms k (world c))).
  rewrite count_randoms_add.
  change (trace (count_random (count_randoms k (world c))))
    with (trace (count_randoms 1 (count_randoms k (world c)))).
  rewrite !trace_count_randoms.
  eexists (k + 1)%nat, _. split; [reflexivity|].
  split; [lia|].
  destruct (lt _ _); rewrite ?length_app; cbn [length]; (split; [lia|]);
    intros Hall; destruct (Hplain Hall) as [-> ->]; auto.
Qed.

(** Whatever the rolls, the wrapped function calls the render function
    exactly once and does nothing else one could observe: [STATE] and the
    storage are untouched, and it fails exactly when the render function
    throws.  The text handed over is at least as long as the input and at
    most twice as long plus one (the joiner), and at most three rolls per
    character plus one are consumed. *)
Theorem render_called_exactly_once (typeFn : callback) (text : jsval) c :
  let n := length (ToString text) in
  let r := wrapTypeText (VObject (OFunction typeFn)) text c in
  exists out : jsstring,
    new_events c r.1 = [EvCall typeFn (DString out)]
    /\ (n <= length out <= 2 * n + 1)%nat
    /\ mod_state r.1 = mod_state c
    /\ localStorage (world r.1) = localStorage (world c)
    /\ (random_calls (world c) + 1 <= random_calls (world r.1)
        <= random_calls (world c) + 3 * n + 1)%nat
    /\ r.2 = (if callback_throws (trace (world c)) typeFn (DString out)
              then Throw (Thrown typeFn) else Ok tt).
Proof.
  intros n r. subst r.
  destruct (wrapped_spec typeFn text c) as (k & out & -> & Hk & Hout & _).
  exists out. cbn [fst snd mod_state world].
  split.
  { unfold new_events. cbn. rewrite trace_count_randoms. apply drop_app_length. }
  split; [done|]. split; [done|].
  split; [cbn; apply localStorage_count_randoms|].
  split; [|done]. cbn. rewrite random_calls_count_randoms. fold n in Hk. lia.
Qed.

(** A text with no character of the class (spaces, brackets, line breaks)
    is never distorted, at any sanity value: the render function gets it
    as it is, or with the joiner appended, after a single roll. *)
Theorem plain_text_is_not_distorted (typeFn : callback) (text : jsval) c :
  Forall (fun ch => glitchable ch = false) (ToString text) ->
  let r := wrapTypeText (VObject (OFunction typeFn)) text c in
  (new_events c r.1 = [EvCall typeFn (DString (ToString text))]
   \/ new_events c r.1 = [EvCall typeFn (DString (ToString text ++ [8205%N]))])
  /\ random_calls (world r.1) = (random_calls (world c) + 1)%nat.
Proof.
  intros Hplain r. subst r.
  destruct (wrapped_spec typeFn text c) as (k & out & -> & _ & _ & Hp).
  destruct (Hp Hplain) as [-> Hout]. cbn [fst]. split.
  - unfold new_events. cbn. rewrite drop_app_length.
    destruct Hout as [-> | ->]; auto.
  - cbn. lia.
Qed.

End Typing.

Lemma plain_text_is_not_distorted_witness :
  Forall (fun ch => glitchable ch = false) (@ToString quiet (VString (str " ()")))
  /\ new_events (loaded_at (of_Z 5))
       (@wrapTypeText quiet (VObject (OFunction 7%nat)) (VString (str " ()"))
          (loaded_at (of_Z 5))).1
     = [EvCall 7%nat (DString (str " ()"))].
Proof.
  assert (Hplain : Forall (fun ch => glitchable ch = false)
                     (@ToString quiet (VString (str " ()"))))
    by (repeat constructor).
  split; [exact Hplain|].
  destruct (@plain_text_is_not_distorted quiet 7%nat (VString (str " ()"))
              (loaded_at (of_Z 5)) Hplain) as [[Hsame | Hjoin] _].
  - exact Hsame.
  - vm_compute. reflexivity.
Defined.

(** ** Examples for the properties above *)

(** A browser like [quiet] whose [document.querySelector] rejects the
    selector ["##"]. *)
Definition picky : Host :=
  {| StringToNumber := @StringToNumber quiet;
     NumberToString := @NumberToString quiet;
     ObjectToNumber := @ObjectToNumber quiet;
     ObjectToString := @ObjectToString quiet;
     callback_throws := @callback_throws quiet;
     Math_random := @Math_random quiet;
     CustomEvent_defined := true;
     setItem_throws := @setItem_throws quiet;
     document_querySelector := fun _ selector =>
       if bool_decide (selector = str "##") then Throw SyntaxError else Ok None;
     existing_pill := @existing_pill quiet;
     createElement := @createElement quiet;
     badge_value_node := @badge_value_node quiet |}.

Lemma reachable_wf_witness :
  @reachable quiet (@perform quiet (CallAdd (VNumber (of_Z (-30)))) loaded)
  /\ wf (mod_state (@perform quiet (CallAdd (VNumber (of_Z (-30)))) loaded)).
Proof.
  assert (Hr : @reachable quiet (@perform quiet (CallAdd (VNumber (of_Z (-30)))) loaded))
    by (exists World0, [CallAdd (VNumber (of_Z (-30)))]; reflexivity).
  split; [exact Hr|]. exact (@reachable_wf quiet _ Hr).
Defined.

Lemma calls_change_only_their_part_witness :
  touches_subscribers (CallSet (VNumber (of_Z 1))) = false
  /\ is_init (CallSet (VNumber (of_Z 1))) = false
  /\ subscribers (mod_state (@perform quiet (CallSet (VNumber (of_Z 1)))
                               FanoutProps.three_subscribers)) = [1; 2; 3]%nat.
Proof.
  split; [reflexivity|]. split; [reflexivity|].
  exact (proj1 (@calls_change_only_their_part quiet (CallSet (VNumber (of_Z 1)))
                  FanoutProps.three_subscribers) eq_refl).
Defined.

Lemma init_again_restores_start_witness :
  wf (mod_state loaded)
  /\ truthy (of_Z 50) = true
  /\ Forall (fun a => is_init a = false) [CallSet (VNumber (of_Z 10))]
  /\ (get (@init quiet None
             (foldl (fun c a => @perform quiet a c)
                (@init quiet (Some {| opt_start := Some (VNumber (of_Z 50));
                                      opt_mount := None |}) loaded).1
                [CallSet (VNumber (of_Z 10))])).1).2
     = Ok (clamp (of_Z 50) (of_Z 0) (of_Z 100)).
Proof.
  assert (Hwf : wf (mod_state loaded)) by (repeat split; vm_compute; reflexivity).
  assert (Hx : truthy (of_Z 50) = true) by reflexivity.
  assert (Hb : Forall (fun a => is_init a = false) [CallSet (VNumber (of_Z 10))])
    by (by repeat constructor).
  split; [exact Hwf|]. split; [exact Hx|]. split; [exact Hb|].
  exact (@init_again_restores_start quiet loaded (of_Z 50) None None
           [CallSet (VNumber (of_Z 10))] None Hwf Hx Hb (or_introl eq_refl)).
Defined.

Lemma init_bad_selector_throws_witness :
  let opts := Some {| opt_start := Some (VNumber (of_Z 20));
                      opt_mount := Some (VString (str "##")) |} in
  mount (@init_options opts (mod_state FanoutProps.three_subscribers))
    = VString (str "##")
  /\ str "##" <> []
  /\ @document_querySelector picky (trace (world FanoutProps.three_subscribers))
       (str "##") = Throw SyntaxError
  /\ (@init picky opts FanoutProps.three_subscribers).2 = Throw SyntaxError
  /\ (get (@init picky opts FanoutProps.three_subscribers).1).2 = Ok (of_Z 20)
  /\ trace (world (@init picky opts FanoutProps.three_subscribers).1) = [].
Proof.
  intros opts.
  assert (H1 : mount (@init_options opts (mod_state FanoutProps.three_subscribers))
               = VString (str "##")) by reflexivity.
  assert (H2 : str "##" <> []) by discriminate.
  assert (H3 : @document_querySelector picky
                 (trace (world FanoutProps.three_subscribers)) (str "##")
               = Throw SyntaxError) by reflexivity.
  split; [exact H1|]. split; [exact H2|]. split; [exact H3|].
  rewrite (@init_bad_selector_throws picky FanoutProps.three_subscribers opts
             (str "##") SyntaxError H1 H2 H3).
  repeat split.
Defined.

Lemma init_mounts_one_badge_witness :
  let opts := Some {| opt_start := None;
                      opt_mount := Some (VObject (OElement 12%nat)) |} in
  mount (@init_options opts (mod_state FanoutProps.three_subscribers))
    = VObject (OElement 12%nat)
  /\ mountedBadge (mod_state (@init quiet opts FanoutProps.three_subscribers).1)
     = Some 0%nat
  /\ filter (fun ev => is_append ev = true)
       (new_events FanoutProps.three_subscribers
          (@init quiet opts FanoutProps.three_subscribers).1)
     = [EvAppendChild 12%nat 0%nat].
Proof.
  intros opts.
  assert (H1 : mount (@init_options opts (mod_state FanoutProps.three_subscribers))
               = VObject (OElement 12%nat)) by reflexivity.
  split; [exact H1|].
  destruct (@init_mounts_one_badge quiet FanoutProps.three_subscribers opts
              12%nat H1) as (_ & Hstate & _ & Happend).
  split; [by rewrite Hstate|]. by rewrite Happend.
Defined.

Lemma subscribers_see_only_the_range_witness :
  Forall carries_in_range (trace World0)
  /\ Forall carries_in_range
       (trace (world (foldl (fun c a => @perform InventoryProps.rude a c) (Cfg STATE0 World0)
                        [CallSubscribe (VObject (OFunction 2%nat));
                         CallAdd (VNumber (of_Z (-500)))]))).
Proof.
  assert (H0 : Forall carries_in_range (trace World0)) by constructor.
  split; [exact H0|].
  exact (@subscribers_see_only_the_range InventoryProps.rude World0 _ H0).
Defined.

End SanityMore.

(* ================================================================== *)
(** * sanity.js: [effect] *)
(* ================================================================== *)

Module Effect.
Import Sanity.

(** What [effect] works on besides [STATE]: the body's class list and the
    timeouts it has set that have not fired yet (each one removes a
    class).  Timeout ids are handed out in increasing order. *)
Record Page := {
  body : bool;                           (* is there a [document.body]? *)
  classList : list jsstring;             (* its tokens, a set in order *)
  timers : gmap nat (jsstring * number); (* id to (class to remove, delay) *)
  next_timer : nat
}.

Record EffectState := { STATE : SanityState; page : Page }.

Definition set_effectTimer (t : option nat) (s : SanityState) : SanityState :=
  {| value := value s; min := min s; max := max s;
     subscribers := subscribers s; mountedBadge := mountedBadge s;
     options := options s; effectTimer := t |}.

(** ASCII white space, which a class token may not contain. *)
Definition is_space (ch : N) : bool :=
  ((ch =? 9) || (ch =? 10) || (ch =? 12) || (ch =? 13) || (ch =? 32))%N.

Definition valid_token (token : jsstring) : bool :=
  negb (bool_decide (token = [])) && forallb (fun ch => negb (is_space ch)) token.

(** [document.body.classList.add(cls)]; [None] when it throws: there is no
    body, or the token is empty or has white space in it. *)
Definition classList_add (cls : jsstring) (p : Page) : option Page :=
  if body p && valid_token cls then
    Some {| body := body p; classList := Set_add cls (classList p);
            timers := timers p; next_timer := next_timer p |}
  else None.

(** [clearTimeout(t)], where [t] may be [null]. *)
Definition clearTimeout (t : option nat) (p : Page) : Page :=
  match t with
  | Some id => {| body := body p; classList := classList p;
                  timers := delete id (timers p); next_timer := next_timer p |}
  | None => p
  end.

(** [setTimeout(() => document.body.classList.remove(cls), dur)]. *)
Definition setTimeout (cls : jsstring) (dur : number) (p : Page) : Page * nat :=
  ({| body := body p; classList := classList p;
      timers := <[next_timer p := (cls, dur)]> (timers p);
      next_timer := S (next_timer p) |},
   next_timer p).

Section Operations.
Context `{Host}.

Definition effect_class (name : jsval) : jsstring :=
  if bool_decide (name = VString (str "shake")) then str "san-effect-shake"
  else str "san-effect-" ++ ToString name.

Definition effect (name ms : jsval) (e : EffectState) : EffectState :=
  let dur := or_number (ToNumber ms) (of_Z 450) in
  let cls := effect_class name in
  match classList_add cls (page e) with
  | Some p1 =>
      let p2 := clearTimeout (effectTimer (STATE e)) p1 in
      let '(p3, id) := setTimeout cls dur p2 in
      {| STATE := set_effectTimer (Some id) (STATE e); page := p3 |}
  | None => e      (* catch(_) {} *)
  end.

End Operations.

(** The timeout [id] is due: if it is still pending its callback runs,
    removing the class (or failing, unnoticed, when the body is gone). *)
Definition timeout_fires (id : nat) (e : EffectState) : EffectState :=
  match timers (page e) !! id with
  | Some (cls, _) =>
      {| STATE := STATE e;
         page := {| body := body (page e);
                    classList := if body (page e)
                                 then Set_delete cls (classList (page e))
                                 else classList (page e);
                    timers := delete id (timers (page e));
                    next_timer := next_timer (page e) |} |}
  | None => e
  end.

(** What can happen to the page's effect: a call, or a timeout coming due. *)
Inductive step :=
| DoEffect (name ms : jsval)
| Fires (id : nat).

Definition run_step `{Host} (st : step) (e : EffectState) : EffectState :=
  match st with
  | DoEffect name ms => effect name ms e
  | Fires id => timeout_fires id e
  end.

(** The only timeout pending, if any, is the one in [STATE.effectTimer],
    and ids not handed out yet are not pending. *)
Definition single_timer (e : EffectState) : Prop :=
  (forall id, is_Some (timers (page e) !! id) -> effectTimer (STATE e) = Some id)
  /\ (forall id, is_Some (timers (page e) !! id) -> (id < next_timer (page e))%nat).

Section Facts.
Context `{Host}.
Implicit Types (e : EffectState).

Lemma effect_class_prefix (name : jsval) :
  effect_class name = str "san-effect-" ++ ToString name.
Proof. unfold effect_class. case_bool_decide as Hn; [by subst|done]. Qed.

Lemma clearTimeout_keeps (t : option nat) (p : Page) :
  body (clearTimeout t p) = body p
  /\ classList (clearTimeout t p) = classList p
  /\ next_timer (clearTimeout t p) = next_timer p.
Proof. by destruct t. Qed.

Lemma clearTimeout_single e (p : Page) :
  single_timer e -> timers p = timers (page e) ->
  timers (clearTimeout (effectTimer (STATE e)) p) = ∅.
Proof.
  intros [Hone _] Hp. apply map_empty. intros i.
  destruct (effectTimer (STATE e)) as [t|] eqn:Ht; cbn [clearTimeout timers];
    rewrite Hp.
  - destruct (decide (t = i)) as [->|Hne]; [apply lookup_delete_eq|].
    rewrite lookup_delete_ne by done.
    destruct (timers (page e) !! i) eqn:Hi; [|done].
    specialize (Hone i ltac:(eauto)). congruence.
  - destruct (timers (page e) !! i) eqn:Hi; [|done].
    specialize (Hone i ltac:(eauto)). congruence.
Qed.

(** What a call that gets through leaves behind. *)
Lemma effect_spec (name ms : jsval) e :
  body (page e) = true -> valid_token (effect_class name) = true ->
  single_timer e ->
  let cls := effect_class name in
  let id := next_timer (page e) in
  effect name ms e =
  {| STATE := set_effectTimer (Some id) (STATE e);
     page := {| body := true;
                classList := Set_add cls (classList (page e));
                timers := {[ id := (cls, or_number (ToNumber ms) (of_Z 450)) ]};
                next_timer := S id |} |}.
Proof.
  intros Hbody Hvalid Hone cls id. unfold effect, classList_add.
  rewrite Hbody, Hvalid. cbn [andb]. fold cls. unfold setTimeout.
  match goal with
  | |- context [clearTimeout ?t ?p] =>
      destruct (clearTimeout_keeps t p) as (Hb & Hc & Hn);
      pose proof (clearTimeout_single e p Hone eq_refl) as Ht;
      rewrite Hb, Hc, Hn, Ht
  end.
  cbn [body classList next_timer]. by rewrite insert_empty.
Qed.

Lemma single_timer_effect (name ms : jsval) e :
  single_timer e -> single_timer (effect name ms e).
Proof.
  intros Hone.
  destruct (body (page e) && valid_token (effect_class name)) eqn:Hok.
  - apply andb_prop in Hok as [Hbody Hvalid].
    rewrite effect_spec by done. split; cbn; intros id [x Hx].
    + apply lookup_singleton_Some in Hx as [<- _]. done.
    + apply lookup_singleton_Some in Hx as [<- _]. lia.
  - unfold effect, classList_add. by rewrite Hok.
Qed.

Lemma single_timer_fires (id : nat) e :
  single_timer e -> single_timer (timeout_fires id e).
Proof.
  intros [Hone Hfresh]. unfold timeout_fires.
  destruct (timers (page e) !! id) as [[cls dur]|] eqn:Hid; [|done].
  split; cbn; intros i [x Hx].
  - destruct (decide (id = i)) as [->|Hne]; [by rewrite lookup_delete_eq in Hx|].
    rewrite lookup_delete_ne in Hx by done. apply Hone. eauto.
  - destruct (decide (id = i)) as [->|Hne]; [by rewrite lookup_delete_eq in Hx|].
    rewrite lookup_delete_ne in Hx by done. apply Hfresh. eauto.
Qed.

Lemma single_timer_steps (l : list step) e :
  single_timer e -> single_timer (foldl (fun e st => run_step st e) e l).
Proof.
  revert e. induction l as [|st l IH]; intros e He; [done|]. cbn [foldl].
  apply IH. destruct st; [by apply single_timer_effect|by apply single_timer_fires].
Qed.

Lemma Set_add_elem (x : jsstring) (l : list jsstring) : x ∈ Set_add x l.
Proof.
  unfold Set_add, Set_has. case_bool_decide; [done|].
  apply elem_of_app. right. by left.
Qed.

Lemma Set_add_keeps (x y : jsstring) (l : list jsstring) : y ∈ l -> y ∈ Set_add x l.
Proof.
  intros Hy. unfold Set_add. destruct (Set_has x l); [done|].
  apply elem_of_app. by left.
Qed.

Lemma Set_delete_elem (x y : jsstring) (l : list jsstring) :
  y ∈ Set_delete x l <-> y ∈ l /\ y <> x.
Proof. unfold Set_delete. rewrite list_elem_of_filter. tauto. Qed.

(** A call that gets through puts the class on the body and leaves one
    timeout pending, its own, for [Number(ms) || 450] milliseconds; when
    that timeout comes due the class is off the body again and nothing is
    pending. *)
Theorem effect_then_timeout (name ms : jsval) e :
  body (page e) = true ->
  valid_token (effect_class name) = true ->
  single_timer e ->
  let cls := effect_class name in
  let e1 := effect name ms e in
  exists id : nat,
    effectTimer (STATE e1) = Some id
    /\ timers (page e1) = {[ id := (cls, or_number (ToNumber ms) (of_Z 450)) ]}
    /\ (cls ∈ classList (page e1))
    /\ (cls ∉ classList (page (timeout_fires id e1)))
    /\ timers (page (timeout_fires id e1)) = ∅.
Proof.
  intros Hbody Hvalid Hone cls e1. subst e1. rewrite effect_spec by done.
  fold cls. exists (next_timer (page e)). cbn [STATE page effectTimer
    set_effectTimer timers classList].
  split; [done|]. split; [done|]. split; [apply Set_add_elem|].
  unfold timeout_fires. cbn [page timers]. rewrite lookup_singleton_eq.
  cbn [page body classList timers]. split.
  - rewrite Set_delete_elem. tauto.
  - by rewrite delete_singleton_eq.
Qed.

(** However calls and timeouts interleave, at most one timeout of
    [effect] is pending, and it is the one in [STATE.effectTimer]. *)
Theorem one_timeout_at_most (l : list step) e :
  single_timer e ->
  let e' := foldl (fun e st => run_step st e) e l in
  forall id1 id2,
    is_Some (timers (page e') !! id1) -> is_Some (timers (page e') !! id2) ->
    id1 = id2 /\ effectTimer (STATE e') = Some id1.
Proof.
  intros Hone e' id1 id2 H1 H2.
  destruct (single_timer_steps l e Hone) as [Hone' _]. fold e' in Hone'.
  pose proof (Hone' id1 H1). pose proof (Hone' id2 H2). split; congruence.
Qed.

(** A second effect with another class before the first timeout is due
    cancels that timeout: the first class is never taken off the body
    again, whichever timeouts come due afterwards. *)
Theorem superseded_class_stays (n1 m1 n2 m2 : jsval) (due : list nat) e :
  body (page e) = true ->
  single_timer e ->
  valid_token (effect_class n1) = true ->
  valid_token (effect_class n2) = true ->
  effect_class n1 <> effect_class n2 ->
  effect_class n1
    ∈ classList (page (foldl (fun e id => timeout_fires id e)
                         (effect n2 m2 (effect n1 m1 e)) due)).
Proof.
  intros Hbody Hone Hv1 Hv2 Hne.
  set (K := fun e' : EffectState =>
              (effect_class n1 ∈ classList (page e'))
              /\ forall id c d, timers (page e') !! id = Some (c, d) ->
                                c = effect_class n2).
  assert (HK : K (effect n2 m2 (effect n1 m1 e))).
  { pose proof (single_timer_effect n1 m1 e Hone) as Hone1.
    assert (Hb1 : body (page (effect n1 m1 e)) = true)
      by (by rewrite effect_spec).
    rewrite (effect_spec n2 m2 _ Hb1 Hv2 Hone1).
    rewrite (effect_spec n1 m1) by done. split; cbn.
    - apply Set_add_keeps, Set_add_elem.
    - intros id c d Hid. apply lookup_singleton_Some in Hid as [_ Hid]. congruence. }
  assert (Hstep : forall id e', K e' -> K (timeout_fires id e')).
  { intros id e' [Hin Hcls]. unfold timeout_fires.
    destruct (timers (page e') !! id) as [[c d]|] eqn:Hid; [|done].
    split; cbn.
    - destruct (body (page e')); [|done].
      rewrite Set_delete_elem. split; [done|].
      rewrite (Hcls id c d Hid). done.
    - intros i c' d' Hi. destruct (decide (id = i)) as [->|Hd].
      + by rewrite lookup_delete_eq in Hi.
      + rewrite lookup_delete_ne in Hi by done. eauto. }
  assert (forall e', K e' -> K (foldl (fun e id => timeout_fires id e) e' due)) as Hall.
  { induction due as [|id due IH]; intros e' He'; [done|]. cbn [foldl]. auto. }
  apply Hall, HK.
Qed.

(** Without a body, or with a name whose string has white space in it
    (which makes an invalid class token), [effect] does nothing at all and
    does not throw. *)
Theorem effect_gives_up_quietly (name ms : jsval) e :
  body (page e) = false \/ existsb is_space (ToString name) = true ->
  effect name ms e = e.
Proof.
  intros Hbad. unfold effect, classList_add.
  assert (body (page e) && valid_token (effect_class name) = false) as ->; [|done].
  destruct Hbad as [-> | Hsp]; [done|]. apply andb_false_intro2.
  rewrite effect_class_prefix. unfold valid_token.
  apply andb_false_intro2. rewrite forallb_app. apply andb_false_intro2.
  clear -Hsp. induction (ToString name) as [|ch t IH]; [done|].
  cbn in *. destruct (is_space ch); [done|]. cbn in *. auto.
Qed.

End Facts.

(** A page with a body and nothing on it, and the loaded [STATE]. *)
Definition fresh : EffectState :=
  {| STATE := STATE0;
     page := {| body := true; classList := []; timers := ∅; next_timer := 1 |} |}.

Lemma single_timer_fresh : single_timer fresh.
Proof. split; intros id [x Hx]; cbn in Hx; by rewrite lookup_empty in Hx. Qed.

Lemma effect_then_timeout_witness :
  body (page fresh) = true
  /\ valid_token (@effect_class SanityProps.quiet (VString (str "shake"))) = true
  /\ single_timer fresh
  /\ let cls := @effect_class SanityProps.quiet (VString (str "shake")) in
     let e1 := @effect SanityProps.quiet (VString (str "shake")) VUndefined fresh in
     exists id : nat,
       effectTimer (STATE e1) = Some id
       /\ timers (page e1) =
          {[ id := (cls, or_number (@ToNumber SanityProps.quiet VUndefined) (of_Z 450)) ]}
       /\ (cls ∈ classList (page e1))
       /\ (cls ∉ classList (page (timeout_fires id e1)))
       /\ timers (page (timeout_fires id e1)) = ∅.
Proof.
  assert (H1 : body (page fresh) = true) by reflexivity.
  assert (H2 : valid_token (@effect_class SanityProps.quiet (VString (str "shake")))
               = true) by (vm_compute; reflexivity).
  pose proof single_timer_fresh as H3.
  split; [exact H1|]. split; [exact H2|]. split; [exact H3|].
  exact (@effect_then_timeout SanityProps.quiet (VString (str "shake"))
           VUndefined fresh H1 H2 H3).
Defined.

Lemma one_timeout_at_most_witness :
  single_timer fresh
  /\ forall id1 id2,
       let e' := foldl (fun e st => @run_step SanityProps.quiet st e) fresh
                   [DoEffect (VString (str "shake")) VUndefined;
                    DoEffect (VString (str "blur")) (VNumber (of_Z 100))] in
       is_Some (timers (page e') !! id1) -> is_Some (timers (page e') !! id2) ->
       id1 = id2 /\ effectTimer (STATE e') = Some id1.
Proof.
  pose proof single_timer_fresh as H1. split; [exact H1|].
  intros id1 id2.
  exact (@one_timeout_at_most SanityProps.quiet _ fresh H1 id1 id2).
Defined.

Lemma superseded_class_stays_witness :
  body (page fresh) = true
  /\ single_timer fresh
  /\ valid_token (@effect_class SanityProps.quiet (VString (str "shake"))) = true
  /\ valid_token (@effect_class SanityProps.quiet (VString (str "blur"))) = true
  /\ @effect_class SanityProps.quiet (VString (str "shake"))
     <> @effect_class SanityProps.quiet (VString (str "blur"))
  /\ (@effect_class SanityProps.quiet (VString (str "shake"))
      ∈ classList (page (foldl (fun e id => timeout_fires id e)
                           (@effect SanityProps.quiet (VString (str "blur")) VUndefined
                              (@effect SanityProps.quiet (VString (str "shake"))
                                 VUndefined fresh))
                           [1%nat; 2%nat]))).
Proof.
  assert (H1 : body (page fresh) = true) by reflexivity.
  pose proof single_timer_fresh as H2.
  assert (H3 : valid_token (@effect_class SanityProps.quiet (VString (str "shake")))
               = true) by (vm_compute; reflexivity).
  assert (H4 : valid_token (@effect_class SanityProps.quiet (VString (str "blur")))
               = true) by (vm_compute; reflexivity).
  assert (H5 : @effect_class SanityProps.quiet (VString (str "shake"))
               <> @effect_class SanityProps.quiet (VString (str "blur")))
    by (vm_compute; discriminate).
  repeat (split; [assumption|]).
  exact (@superseded_class_stays SanityProps.quiet _ VUndefined _ VUndefined
           [1%nat; 2%nat] fresh H1 H2 H3 H4 H5).
Defined.

Lemma effect_gives_up_quietly_witness :
  existsb is_space (@ToString SanityProps.quiet (VString (str "fade out"))) = true
  /\ @effect SanityProps.quiet (VString (str "fade out")) VUndefined fresh = fresh.
Proof.
  assert (H1 : existsb is_space
                 (@ToString SanityProps.quiet (VString (str "fade out"))) = true)
    by (vm_compute; reflexivity).
  split; [exact H1|].
  exact (@effect_gives_up_quietly SanityProps.quiet (VString (str "fade out"))
           VUndefined fresh (or_intror H1)).
Defined.

End Effect.

(* ================================================================== *)
(** * inventory.js: reading the storage back, and the listeners *)
(* ================================================================== *)

(** Whether reading a key fails: [localStorage.getItem] throws, or what is
    stored under the key is not the JSON text of something iterable.  When
    the read works, the cell gives the strings that iterating the parsed
    value yields (for what this code writes, the items of the array). *)
Class StorageReader := {
  getItem_fails : list event -> jsstring -> bool
}.

(** [new Set(iterable)]: the members in the order of their first
    occurrence. *)
Definition Set_of {A} `{EqDecision A} (l : list A) : list A :=
  foldl (fun s x => Set_add x s) [] l.

Module InventoryMore.
Import Inventory InventoryFacts InventoryProps.

Definition empty_store : InventoryState := {| items := []; listeners := ∅ |}.

Section Operations.
Context `{Host} `{StorageReader}.

(** [JSON.parse(localStorage.getItem(LS_KEY) || "[]")]; [None] when the
    [try] block throws. *)
Definition read_stored (w : World) : option (list jsstring) :=
  if getItem_fails (trace w) LS_KEY then None
  else Some (default [] (localStorage w !! LS_KEY)).

Definition loadFromLS : M InventoryState unit :=
  let* w := get_world in
  modify (set_items
            match read_stored w with
            | Some l => Set_of l
            | None => []          (* catch(e) { items = new Set(); } *)
            end) ;;
  let* l := list_items in
  dispatch change_type (DList l).

(** The listener for the window's ["storage"] event, given [e.key]. *)
Definition on_storage (key : jsval) : M InventoryState unit :=
  if bool_decide (key = VString LS_KEY) then loadFromLS else ret tt.

(** Running the script in a world: the first read of the storage and the
    announcement at its end are what [loadFromLS] does from the empty
    store. *)
Definition start (w : World) : cfg InventoryState :=
  (loadFromLS (Cfg empty_store w)).1.

(** The function returned by [on(type, cb)] for a function [cb]. *)
Definition off (type : jsstring) (f : callback) : M InventoryState unit :=
  modify (fun s =>
    match listeners s !! type with
    | Some set => set_listeners (<[type := Set_delete f set]> (listeners s)) s
    | None => s
    end).

End Operations.

(** Another tab stores a list under a key. *)
Definition other_tab_writes (key : jsstring) (doc : list jsstring)
    (c : cfg InventoryState) : cfg InventoryState :=
  Cfg (mod_state c) (set_localStorage (<[key := doc]> (localStorage (world c))) (world c)).

(** ** Sets in insertion order *)

Section Sets.
Context {A : Type} `{EqDecision A}.
Implicit Types (x y : A) (l : list A).

Lemma Set_add_NoDup x l : NoDup l -> NoDup (Set_add x l).
Proof.
  intros Hl. unfold Set_add, Set_has. case_bool_decide as Hin; [done|].
  apply NoDup_app. split; [done|]. split; [|apply NoDup_singleton].
  intros y Hy Hy'. apply list_elem_of_singleton in Hy'. by subst.
Qed.

Lemma Set_delete_NoDup x l : NoDup l -> NoDup (Set_delete x l).
Proof. apply NoDup_filter. Qed.

Lemma elem_of_Set_add x y l : y ∈ Set_add x l <-> y = x \/ y ∈ l.
Proof.
  unfold Set_add, Set_has. case_bool_decide as Hin.
  - split; [auto|]. intros [-> | ?]; done.
  - rewrite elem_of_app, list_elem_of_singleton. tauto.
Qed.

Lemma elem_of_Set_delete x y l : y ∈ Set_delete x l <-> y ∈ l /\ y <> x.
Proof. unfold Set_delete. rewrite list_elem_of_filter. tauto. Qed.

Lemma Set_delete_id x l : x ∉ l -> Set_delete x l = l.
Proof.
  intros Hin. unfold Set_delete. induction l as [|y l IH]; [done|].
  apply not_elem_of_cons in Hin as [Hne Hin].
  rewrite filter_cons_True by congruence. by rewrite IH.
Qed.

Lemma Set_delete_add_new x l : x ∉ l -> Set_delete x (Set_add x l) = l.
Proof.
  intros Hin. unfold Set_add, Set_has. rewrite bool_decide_false by done.
  unfold Set_delete. rewrite filter_app, filter_cons_False, filter_nil by (by intros ?).
  rewrite app_nil_r. by apply Set_delete_id.
Qed.

Lemma Set_add_twice x l : Set_add x (Set_add x l) = Set_add x l.
Proof.
  unfold Set_add at 1. unfold Set_has.
  rewrite bool_decide_true; [done|]. apply elem_of_Set_add. by left.
Qed.

Lemma foldl_Set_add_NoDup l s :
  NoDup s -> NoDup (foldl (fun s x => Set_add x s) s l).
Proof.
  revert s. induction l as [|x l IH]; intros s Hs; [done|].
  cbn [foldl]. by apply IH, Set_add_NoDup.
Qed.

Lemma Set_of_NoDup l : NoDup (Set_of l).
Proof. apply foldl_Set_add_NoDup, NoDup_nil_2. Qed.

Lemma foldl_Set_add_fresh l s :
  NoDup (s ++ l) -> foldl (fun s x => Set_add x s) s l = s ++ l.
Proof.
  revert s. induction l as [|x l IH]; intros s Hs; cbn [foldl].
  - by rewrite app_nil_r.
  - assert (x ∉ s) as Hx.
    { apply NoDup_app in Hs as (_ & Hdisj & _). intros Hin.
      apply (Hdisj x Hin). by left. }
    unfold Set_add at 2. unfold Set_has. rewrite bool_decide_false by done.
    rewrite IH; by rewrite <- app_assoc.
Qed.

(** A list without duplicates is the set made from it. *)
Lemma Set_of_NoDup_id l : NoDup l -> Set_of l = l.
Proof. intros Hl. unfold Set_of. by rewrite foldl_Set_add_fresh. Qed.

Lemma elem_of_foldl_Set_add l s y :
  y ∈ foldl (fun s x => Set_add x s) s l <-> y ∈ s \/ y ∈ l.
Proof.
  revert s. induction l as [|x l IH]; intros s; cbn [foldl].
  - rewrite elem_of_nil. tauto.
  - rewrite IH, elem_of_Set_add, elem_of_cons. tauto.
Qed.

Lemma elem_of_Set_of l y : y ∈ Set_of l <-> y ∈ l.
Proof. unfold Set_of. rewrite elem_of_foldl_Set_add, elem_of_nil. tauto. Qed.

End Sets.

(** ** What the operations do *)

Section Specs.
Context `{Host} `{StorageReader}.
Implicit Types (c : cfg InventoryState) (s : InventoryState).

(** The items [loadFromLS] ends up with in a world. *)
Definition loaded_items (w : World) : list jsstring :=
  match read_stored w with
  | Some l => Set_of l
  | None => []
  end.

Lemma loadFromLS_spec c :
  loadFromLS c =
  (log_events
     (dispatch_events (trace (world c)) change_type
        (DList (loaded_items (world c))) (listeners (mod_state c)))
     (Cfg (set_items (loaded_items (world c)) (mod_state c)) (world c)),
   Ok tt).
Proof.
  unfold loadFromLS. erewrite bind_Ok by reflexivity.
  erewrite bind_Ok by apply inventory_modify_spec.
  erewrite bind_Ok by reflexivity.
  by rewrite dispatch_spec.
Qed.

Lemma on_spec (type : jsstring) (f : callback) (immediateValue : option detail) c :
  on type (VObject (OFunction f)) immediateValue c =
  (Cfg (set_listeners
          (<[type := Set_add f (default [] (listeners (mod_state c) !! type))]>
             (listeners (mod_state c)))
          (mod_state c))
     (add_trace (match immediateValue with Some d => [EvCall f d] | None => [] end)
        (world c)),
   Ok (off type f)).
Proof.
  unfold on. cbn [is_function].
  erewrite bind_Ok by apply inventory_modify_spec.
  erewrite bind_Ok by apply inventory_modify_spec.
  cbn [mod_state world].
  assert (Htail : forall s' : InventoryState,
    (match immediateValue with
     | Some d => try_catch (call f d) (fun _ => ret tt)
     | None => ret tt
     end ;; ret (off type f)) (Cfg s' (world c)) =
    (Cfg s' (add_trace (match immediateValue with
                        | Some d => [EvCall f d] | None => [] end) (world c)),
     Ok (off type f))).
  { intros s'. destruct immediateValue as [d|].
    - erewrite bind_Ok by apply try_call_spec. reflexivity.
    - erewrite bind_Ok by reflexivity. cbn [ret]. by rewrite add_trace_nil. }
  destruct (listeners (mod_state c) !! type) as [set|] eqn:Hl.
  - rewrite bool_decide_true by eauto. rewrite Hl. apply Htail.
  - rewrite bool_decide_false by (intros [? ?]; congruence).
    cbn [listeners set_listeners items].
    rewrite lookup_insert_eq, insert_insert_eq. apply Htail.
Qed.

Lemma off_spec (type : jsstring) (f : callback) c :
  off type f c =
  (Cfg match listeners (mod_state c) !! type with
       | Some set =>
           set_listeners (<[type := Set_delete f set]> (listeners (mod_state c)))
             (mod_state c)
       | None => mod_state c
       end (world c),
   Ok tt).
Proof. reflexivity. Qed.

(** ** The store stays tidy *)

(** No item and no listener is held twice. *)
Definition tidy s : Prop :=
  NoDup (items s)
  /\ forall type set, listeners s !! type = Some set -> NoDup set.

Lemma tidy_empty : tidy empty_store.
Proof. split; [apply NoDup_nil_2|]. intros type set Hl. change (listeners empty_store) with (∅ : gmap jsstring (list nat)) in Hl.
  by rewrite lookup_empty in Hl.
Qed.

Lemma tidy_set_items (l : list jsstring) s : tidy s -> NoDup l -> tidy (set_items l s).
Proof. intros [_ Hls] Hl. by split. Qed.

Lemma tidy_insert (type : jsstring) (set : list callback) s :
  tidy s -> NoDup set -> tidy (set_listeners (<[type := set]> (listeners s)) s).
Proof.
  intros [Hit Hls] Hset. split; [done|]. intros ty st. cbn.
  destruct (decide (type = ty)) as [->|Hne].
  - rewrite lookup_insert_eq. by intros [= <-].
  - rewrite lookup_insert_ne by done. apply Hls.
Qed.

End Specs.

(** ** Everything that can happen to the store *)

Inductive inv_call :=
| InvAdd (name : jsval)
| InvRemove (name : jsval)
| InvHas (name : jsval)
| InvList
| InvClear
| InvUse (name : jsval)
| InvOnChange (cb : jsval)
| InvOnUse (cb : jsval)
| InvSubscribe (cb : jsval)
| InvOff (type : jsstring) (f : callback)  (* a function [on] returned *)
| InvStorageEvent (key : jsval)            (* a ["storage"] event arrives *)
| InvOtherTab (doc : list jsstring).       (* another tab saves and the event
                                              is handled before anything else *)

Section Reachability.
Context `{Host} `{StorageReader}.
Implicit Types (c : cfg InventoryState) (s : InventoryState).

Definition inv_perform (a : inv_call) c : cfg InventoryState :=
  match a with
  | InvAdd name => (add name c).1
  | InvRemove name => (remove name c).1
  | InvHas name => (has name c).1
  | InvList => (list_items c).1
  | InvClear => (clear c).1
  | InvUse name => (use name c).1
  | InvOnChange cb => (onChange cb c).1
  | InvOnUse cb => (onUse cb c).1
  | InvSubscribe cb => (subscribe cb c).1
  | InvOff type f => (off type f c).1
  | InvStorageEvent key => (on_storage key c).1
  | InvOtherTab doc =>
      (on_storage (VString LS_KEY) (other_tab_writes LS_KEY doc c)).1
  end.

(** The store after the script has run in the world [w] and the calls and
    events [l] have happened. *)
Definition after (w : World) (l : list inv_call) : cfg InventoryState :=
  foldl (fun c a => inv_perform a c) (start w) l.

Lemma tidy_mutated (f : list jsstring -> list jsstring) c :
  tidy (mod_state c) -> NoDup (f (items (mod_state c))) ->
  tidy (mod_state (mutated f c)).
Proof. intros Ht Hf. by apply tidy_set_items. Qed.

Lemma tidy_loadFromLS c : tidy (mod_state c) -> tidy (mod_state (loadFromLS c).1).
Proof.
  intros Ht. rewrite loadFromLS_spec. cbn [fst log_events mod_state].
  apply tidy_set_items; [done|]. unfold loaded_items.
  destruct (read_stored _); [apply Set_of_NoDup|apply NoDup_nil_2].
Qed.

Lemma tidy_on (type : jsstring) (cb : jsval) (d : option detail) c :
  tidy (mod_state c) -> tidy (mod_state (on type cb d c).1).
Proof.
  intros Ht. destruct cb as [| | | | |[f| |]]; try done.
  rewrite on_spec. cbn [fst mod_state]. apply tidy_insert; [done|].
  apply Set_add_NoDup. destruct (listeners (mod_state c) !! type) eqn:Hl.
  - eapply Ht, Hl.
  - apply NoDup_nil_2.
Qed.

Lemma tidy_perform (a : inv_call) c :
  tidy (mod_state c) -> tidy (mod_state (inv_perform a c)).
Proof.
  intros Ht. destruct a; cbn [inv_perform]; try done.
  - rewrite inventory_add_spec. destruct (ToBoolean name); [|done].
    apply tidy_mutated; [done|]. apply Set_add_NoDup, Ht.
  - rewrite remove_spec. apply tidy_mutated; [done|]. apply Set_delete_NoDup, Ht.
  - rewrite clear_spec. apply tidy_mutated; [done|]. apply NoDup_nil_2.
  - rewrite use_spec. by destruct (Set_has _ _).
  - by apply (tidy_on change_type).
  - by apply (tidy_on use_type).
  - by apply (tidy_on change_type).
  - rewrite off_spec. cbn [fst mod_state].
    destruct (listeners (mod_state c) !! type) eqn:Hl; [|done].
    apply tidy_insert; [done|]. apply Set_delete_NoDup. eapply Ht, Hl.
  - unfold on_storage. case_bool_decide; [by apply tidy_loadFromLS|done].
  - unfold on_storage. rewrite bool_decide_true by done.
    by apply tidy_loadFromLS.
Qed.

Lemma tidy_after (w : World) (l : list inv_call) : tidy (mod_state (after w l)).
Proof.
  unfold after.
  assert (forall c0, tidy (mod_state c0) ->
            tidy (mod_state (foldl (fun c a => inv_perform a c) c0 l))) as Hall.
  { induction l as [|a l IH]; intros c0 Hc0; [done|].
    cbn [foldl]. by apply IH, tidy_perform. }
  apply Hall. unfold start. apply tidy_loadFromLS, tidy_empty.
Qed.

(** Whatever is called and whatever arrives, in whatever world the script
    started: no item is listed twice and no listener is registered twice
    for a type. *)
Theorem store_stays_tidy (w : World) (l : list inv_call) :
  NoDup (items (mod_state (after w l)))
  /\ forall type set,
       listeners (mod_state (after w l)) !! type = Some set -> NoDup set.
Proof. apply tidy_after. Qed.

(** ** Memory and storage *)


Hypothesis writes_work : forall tr, setItem_throws tr LS_KEY = false.
Hypothesis reads_work : forall tr, getItem_fails tr LS_KEY = false.








End Reachability.

(** ** Reading the storage *)

Section Loading.
Context `{Host} `{StorageReader}.
Implicit Types (c : cfg InventoryState).

(** Another tab saves a list and the ["storage"] event arrives: this tab
    takes over that list (as a set, in its order) and tells every change
    listener; an event for any other key is ignored. *)
Theorem storage_event_syncs (doc : list jsstring) (key : jsval) c :
  let c1 := other_tab_writes LS_KEY doc c in
  let c2 := (on_storage (VString LS_KEY) c1).1 in
  (getItem_fails (trace (world c)) LS_KEY = false ->
   items (mod_state c2) = Set_of doc
   /\ (NoDup doc -> items (mod_state c2) = doc)
   /\ calls (new_events c1 c2) =
      (fun cb => (cb, DList (Set_of doc)))
        <$> default [] (listeners (mod_state c) !! change_type))
  /\ (key <> VString LS_KEY -> on_storage key c = (c, Ok tt)).
Proof.
  intros c1 c2. split.
  - intros Hread. subst c2. unfold on_storage. rewrite bool_decide_true by done.
    rewrite loadFromLS_spec. cbn [fst]. rewrite new_events_log_world by done.
    assert (loaded_items (world c1) = Set_of doc) as ->.
    { unfold loaded_items, read_stored. subst c1.
      cbn [world other_tab_writes set_localStorage trace localStorage].
      rewrite Hread. by rewrite lookup_insert_eq. }
    split; [done|]. split; [apply Set_of_NoDup_id|]. apply calls_dispatch.
  - intros Hkey. unfold on_storage. by rewrite bool_decide_false.
Qed.

(** When the storage cannot be read, or has nothing under the key,
    [loadFromLS] empties the store, tells the change listeners so, and
    returns normally. *)
Theorem failed_read_empties_the_store c :
  getItem_fails (trace (world c)) LS_KEY = true
  \/ localStorage (world c) !! LS_KEY = None ->
  (loadFromLS c).2 = Ok tt
  /\ items (mod_state (loadFromLS c).1) = []
  /\ calls (new_events c (loadFromLS c).1) =
     (fun cb => (cb, DList [])) <$> default [] (listeners (mod_state c) !! change_type).
Proof.
  intros Hbad. rewrite loadFromLS_spec. cbn [fst snd].
  rewrite new_events_log_world by done.
  assert (loaded_items (world c) = []) as ->.
  { unfold loaded_items, read_stored.
    destruct (getItem_fails _ _); [done|].
    destruct Hbad as [? | ->]; done. }
  split; [done|]. split; [done|]. apply calls_dispatch.
Qed.

End Loading.

(** ** Items *)

Section Items.
Context `{Host}.
Implicit Types (c : cfg InventoryState).

(** Adding an item that was not there and removing it again leaves the
    list exactly as it was, order included. *)
Theorem add_then_remove_restores (name : jsval) c :
  ToBoolean name = true ->
  ToString name ∉ items (mod_state c) ->
  items (mod_state (remove name (add name c).1).1) = items (mod_state c).
Proof.
  intros Ht Hnew. rewrite inventory_add_spec, Ht, remove_spec. cbn [fst].
  rewrite !items_mutated. by apply Set_delete_add_new.
Qed.

(** Adding twice is adding once as far as the items go (each call still
    notifies), and adding or removing one item leaves the membership of
    every other name alone. *)
Theorem add_and_remove_touch_one_item (name other : jsval) c :
  items (mod_state (add name (add name c).1).1) = items (mod_state (add name c).1)
  /\ (ToString other <> ToString name ->
      (has other (add name c).1).2 = (has other c).2
      /\ (has other (remove name c).1).2 = (has other c).2).
Proof.
  split.
  - rewrite !inventory_add_spec. destruct (ToBoolean name); [|done]. cbn [fst].
    rewrite !items_mutated. apply Set_add_twice.
  - intros Hne. rewrite !has_spec, inventory_add_spec, remove_spec. cbn [snd fst].
    split; f_equal.
    + destruct (ToBoolean name); [|done]. cbn [fst]. rewrite items_mutated.
      unfold Set_has. apply bool_decide_ext. rewrite elem_of_Set_add.
      split; [intros [?|?]; [done|done]|auto].
    + rewrite items_mutated. unfold Set_has. apply bool_decide_ext.
      rewrite elem_of_Set_delete. tauto.
Qed.

(** After [clear()] nothing is in the store, whatever name is asked for;
    the empty list is what is stored (when the write works) and what every
    change listener is told. *)
Theorem clear_empties_everything (name : jsval) c :
  let c' := (clear c).1 in
  (clear c).2 = Ok tt
  /\ (list_items c').2 = Ok []
  /\ (has name c').2 = Ok false
  /\ (setItem_throws (trace (world c)) LS_KEY = false ->
      localStorage (world c') !! LS_KEY = Some [])
  /\ calls (new_events c c') =
     (fun cb => (cb, DList [])) <$> default [] (listeners (mod_state c) !! change_type).
Proof.
  intros c'. subst c'. rewrite clear_spec. cbn [fst snd].
  split; [done|]. split; [done|]. split; [done|]. split.
  - intros Hw. rewrite localStorage_mutated, Hw. apply lookup_insert_eq.
  - rewrite new_events_mutated. apply calls_dispatch.
Qed.

End Items.

(** ** Listeners *)

Section Listeners.
Context `{Host} `{StorageReader}.
Implicit Types (c : cfg InventoryState) (f g : callback).

Lemma calls_to_fanout f (tr : list event) (d : detail) (cbs : list callback) :
  calls_to f (fanout_events tr d cbs) =
  replicate (length (filter (fun g => g = f) cbs)) d.
Proof.
  revert tr. induction cbs as [|g cbs IH]; intros tr; [done|].
  cbn [fanout_events]. rewrite calls_to_app, IH. unfold guarded_call, calls_to.
  destruct (decide (g = f)) as [->|Hne].
  - rewrite filter_cons_True by done.
    destruct (callback_throws _ _ _); cbn; by rewrite bool_decide_true.
  - rewrite filter_cons_False by done.
    destruct (callback_throws _ _ _); cbn; by rewrite bool_decide_false.
Qed.

Lemma calls_to_dispatch f (tr : list event) (type : jsstring) (d : detail)
    (ls : gmap jsstring (list callback)) :
  calls_to f (dispatch_events tr type d ls) =
  replicate (length (filter (fun g => g = f) (default [] (ls !! type)))) d.
Proof.
  unfold dispatch_events. rewrite calls_to_app, calls_to_fanout.
  unfold window_events. destruct CustomEvent_defined; by rewrite app_nil_r.
Qed.

Lemma count_in_NoDup f (l : list callback) :
  NoDup l ->
  length (filter (fun g => g = f) l) = if bool_decide (f ∈ l) then 1%nat else 0%nat.
Proof.
  induction 1 as [|g l Hg Hl IH]; [done|].
  destruct (decide (g = f)) as [->|Hne].
  - rewrite filter_cons_True by done. rewrite bool_decide_true by (by left).
    cbn. rewrite IH. by rewrite bool_decide_false.
  - rewrite filter_cons_False by done. rewrite IH.
    assert (bool_decide (f ∈ g :: l) = bool_decide (f ∈ l)) as ->; [|done].
    apply bool_decide_ext. rewrite elem_of_cons. split; [|auto].
    intros [? | ?]; [congruence|done].
Qed.

Lemma heard_once f (tr : list event) (type : jsstring) (d : detail)
    (ls : gmap jsstring (list callback)) :
  (forall set, ls !! type = Some set -> NoDup set) ->
  calls_to f (dispatch_events tr type d ls) =
  if bool_decide (f ∈ default [] (ls !! type)) then [d] else [].
Proof.
  intros Hls. rewrite calls_to_dispatch, count_in_NoDup.
  - by case_bool_decide.
  - destruct (ls !! type) eqn:Hl; [by apply Hls|apply NoDup_nil_2].
Qed.

(** In every state the store can be in, a change is heard exactly once by
    each listener registered for changes, however often it was registered,
    and by nobody else (not by a listener for uses only); and a use is
    heard exactly once by each use listener and by nobody else. *)
Theorem everyone_hears_once (w : World) (l : list inv_call) (name : jsval) f :
  let c := after w l in
  let on_change := default [] (listeners (mod_state c) !! change_type) in
  let on_use := default [] (listeners (mod_state c) !! use_type) in
  (ToBoolean name = true ->
   calls_to f (new_events c (add name c).1) =
   if bool_decide (f ∈ on_change)
   then [DList (items (mod_state (add name c).1))] else [])
  /\ calls_to f (new_events c (remove name c).1) =
     (if bool_decide (f ∈ on_change)
      then [DList (items (mod_state (remove name c).1))] else [])
  /\ (Set_has (ToString name) (items (mod_state c)) = true ->
      calls_to f (new_events c (use name c).1) =
      if bool_decide (f ∈ on_use) then [DItem (ToString name)] else []).
Proof.
  intros c on_change on_use.
  destruct (tidy_after w l) as [_ Hls]. fold c in Hls.
  split; [|split].
  - intros Ht. rewrite inventory_add_spec, Ht. cbn [fst].
    rewrite new_events_mutated, items_mutated. apply heard_once, Hls.
  - rewrite remove_spec. cbn [fst].
    rewrite new_events_mutated, items_mutated. apply heard_once, Hls.
  - intros Hp. rewrite use_spec, Hp. cbn [fst].
    rewrite new_events_log. apply heard_once, Hls.
Qed.

(** [onChange(f)] registers [f] for changes and calls it at once, exactly
    once, with the current list; [onUse(f)] registers [f] for uses and
    calls nothing.  Either adds [f] to the listeners of its own type and
    touches nothing else: not the listeners of any other type, not the
    items, not the storage.  The function either one returns takes [f]
    off that type's listeners, and only [f]: the other listeners of the
    type keep their order, and the listeners of every other type, the
    items and the world stay as they are. *)
Theorem registering_and_leaving f c :
  let fn := VObject (OFunction f) in
  (exists leave, onChange fn c = ((onChange fn c).1, Ok leave)
     /\ new_events c (onChange fn c).1 = [EvCall f (DList (items (mod_state c)))]
     /\ (f ∈ default [] (listeners (mod_state (onChange fn c).1) !! change_type))
     /\ items (mod_state (onChange fn c).1) = items (mod_state c)
     /\ leave = off change_type f
     /\ default [] (listeners (mod_state (onChange fn c).1) !! change_type)
        = Set_add f (default [] (listeners (mod_state c) !! change_type))
     /\ (forall type', type' <> change_type ->
           listeners (mod_state (onChange fn c).1) !! type'
           = listeners (mod_state c) !! type')
     /\ localStorage (world (onChange fn c).1) = localStorage (world c))
  /\ (exists leave, onUse fn c = ((onUse fn c).1, Ok leave)
       /\ new_events c (onUse fn c).1 = []
       /\ (f ∈ default [] (listeners (mod_state (onUse fn c).1) !! use_type))
       /\ items (mod_state (onUse fn c).1) = items (mod_state c)
       /\ leave = off use_type f
       /\ default [] (listeners (mod_state (onUse fn c).1) !! use_type)
          = Set_add f (default [] (listeners (mod_state c) !! use_type))
       /\ (forall type', type' <> use_type ->
             listeners (mod_state (onUse fn c).1) !! type'
             = listeners (mod_state c) !! type')
       /\ localStorage (world (onUse fn c).1) = localStorage (world c))
  /\ (forall type c2,
        let c3 := (off type f c2).1 in
        (off type f c2).2 = Ok tt
        /\ world c3 = world c2
        /\ items (mod_state c3) = items (mod_state c2)
        /\ (f ∉ default [] (listeners (mod_state c3) !! type))
        /\ (forall g, g <> f ->
             (g ∈ default [] (listeners (mod_state c3) !! type)
              <-> g ∈ default [] (listeners (mod_state c2) !! type)))
        /\ default [] (listeners (mod_state c3) !! type)
           = Set_delete f (default [] (listeners (mod_state c2) !! type))
        /\ (forall type', type' <> type ->
              listeners (mod_state c3) !! type'
              = listeners (mod_state c2) !! type')).
Proof.
  intros fn. split; [|split].
  - exists (off change_type f). unfold onChange.
    erewrite bind_Ok by reflexivity. subst fn. rewrite on_spec.
    cbn [fst mod_state world listeners set_listeners items].
    split; [done|]. split.
    { unfold new_events. cbn. apply drop_app_length. }
    rewrite lookup_insert_eq. unfold default; cbn [from_option id].
    split; [apply elem_of_Set_add; by left|].
    split; [done|]. split; [done|]. split; [done|]. split; [|done].
    intros type' Hne. by rewrite lookup_insert_ne.
  - exists (off use_type f). unfold onUse. subst fn. rewrite on_spec.
    cbn [fst mod_state world listeners set_listeners items].
    split; [done|]. split.
    { unfold new_events. cbn. rewrite app_nil_r. apply drop_all. }
    rewrite lookup_insert_eq. unfold default; cbn [from_option id].
    split; [apply elem_of_Set_add; by left|].
    split; [done|]. split; [done|]. split; [done|]. split.
    + intros type' Hne. by rewrite lookup_insert_ne.
    + reflexivity.
  - intros type c2 c3. subst c3. rewrite off_spec. cbn [fst snd mod_state world].
    split; [done|]. split; [done|].
    destruct (listeners (mod_state c2) !! type) as [set|] eqn:Hl.
    + cbn [items set_items set_listeners listeners]. split; [done|].
      rewrite lookup_insert_eq. unfold default; cbn [from_option id]. split.
      { rewrite elem_of_Set_delete. tauto. }
      split.
      { intros g Hg. rewrite elem_of_Set_delete. tauto. }
      split; [done|].
      intros type' Hne. by rewrite lookup_insert_ne.
    + rewrite Hl. unfold default; cbn [from_option id].
      split; [done|]. split; [apply not_elem_of_nil|]. split; [done|].
      split; [reflexivity|done].
Qed.

End Listeners.

(** ** Examples for the properties above *)

(** A storage that can always be read. *)
Definition readable : StorageReader := {| getItem_fails := fun _ _ => false |}.

(** A storage that cannot be read. *)
Definition unreadable : StorageReader := {| getItem_fails := fun _ _ => true |}.

(** A world in which an earlier visit left two items behind. *)
Definition revisited : World :=
  {| trace := [];
     localStorage := {[ LS_KEY := [str "key"; str "map"] ]};
     random_calls := 0 |}.

Definition some_calls : list inv_call :=
  [InvOnChange (VObject (OFunction 1%nat));
   InvAdd (VString (str "lamp"));
   InvRemove (VString (str "key"));
   InvOnChange (VObject (OFunction 1%nat));
   InvOnUse (VObject (OFunction 3%nat))].

Lemma registering_and_leaving_witness :
  let c := (@onUse rude (VObject (OFunction 3%nat)) (Cfg empty_store World0)).1 in
  let c1 := (@onChange rude (VObject (OFunction 1%nat)) c).1 in
  use_type <> change_type
  /\ listeners (mod_state c1) !! use_type = Some [3%nat]
  /\ listeners (mod_state (off change_type 1%nat c1).1) !! use_type = Some [3%nat]
  /\ default [] (listeners (mod_state (off change_type 1%nat c1).1) !! change_type)
     = [].
Proof.
  intros c c1.
  assert (Hne : use_type <> change_type) by (vm_compute; discriminate).
  destruct (@registering_and_leaving rude 1%nat c)
    as ((leave & _ & _ & _ & _ & _ & Hset & Hothers & _) & _ & _).
  destruct (@registering_and_leaving rude 1%nat c) as (_ & _ & Hoff).
  destruct (Hoff change_type c1) as (_ & _ & _ & _ & _ & Hgone & Hkept).
  split; [exact Hne|]. split; [|split].
  - unfold c1. rewrite (Hothers use_type Hne). reflexivity.
  - rewrite (Hkept use_type Hne). unfold c1.
    rewrite (Hothers use_type Hne). reflexivity.
  - rewrite Hgone. unfold c1. rewrite Hset. reflexivity.
Defined.



Lemma storage_event_syncs_witness :
  @getItem_fails readable (trace (world stocked)) LS_KEY = false
  /\ VString (str "theme") <> VString LS_KEY
  /\ items (mod_state
             (@on_storage rude readable (VString LS_KEY)
                (other_tab_writes LS_KEY [str "a"; str "b"; str "a"] stocked)).1)
     = [str "a"; str "b"]
  /\ @on_storage rude readable (VString (str "theme")) stocked = (stocked, Ok tt).
Proof.
  assert (H1 : @getItem_fails readable (trace (world stocked)) LS_KEY = false)
    by reflexivity.
  assert (H2 : VString (str "theme") <> VString LS_KEY) by discriminate.
  destruct (@storage_event_syncs rude readable [str "a"; str "b"; str "a"]
              (VString (str "theme")) stocked) as [Hsync Hother].
  destruct (Hsync H1) as (Hitems & _).
  split; [exact H1|]. split; [exact H2|].
  split; [rewrite Hitems; vm_compute; reflexivity|exact (Hother H2)].
Defined.

Lemma failed_read_empties_the_store_witness :
  @getItem_fails unreadable (trace (world stocked)) LS_KEY = true
  /\ items (mod_state (@loadFromLS rude unreadable stocked).1) = []
  /\ calls (new_events stocked (@loadFromLS rude unreadable stocked).1)
     = [(1%nat, DList []); (2%nat, DList [])].
Proof.
  assert (H1 : @getItem_fails unreadable (trace (world stocked)) LS_KEY = true)
    by reflexivity.
  destruct (@failed_read_empties_the_store rude unreadable stocked (or_introl H1))
    as (_ & Hitems & Hcalls).
  split; [exact H1|]. split; [exact Hitems|].
  rewrite Hcalls. vm_compute. reflexivity.
Defined.

Lemma add_then_remove_restores_witness :
  @ToBoolean (VString (str "rope")) = true
  /\ (@ToString rude (VString (str "rope")) ∉ items (mod_state stocked))
  /\ items (mod_state (@remove rude (VString (str "rope"))
                         (@add rude (VString (str "rope")) stocked).1).1)
     = [str "x"].
Proof.
  assert (H1 : @ToBoolean (VString (str "rope")) = true) by reflexivity.
  assert (H2 : @ToString rude (VString (str "rope")) ∉ items (mod_state stocked)).
  { intros Hin. apply list_elem_of_singleton in Hin. discriminate. }
  split; [exact H1|]. split; [exact H2|].
  exact (@add_then_remove_restores rude (VString (str "rope")) stocked H1 H2).
Defined.

Lemma add_and_remove_touch_one_item_witness :
  @ToString rude (VString (str "x")) <> @ToString rude (VString (str "rope"))
  /\ (@has rude (VString (str "x")) (@add rude (VString (str "rope")) stocked).1).2
     = Ok true
  /\ (@has rude (VString (str "x")) (@remove rude (VString (str "rope")) stocked).1).2
     = Ok true.
Proof.
  assert (H1 : @ToString rude (VString (str "x"))
               <> @ToString rude (VString (str "rope"))) by discriminate.
  destruct (@add_and_remove_touch_one_item rude (VString (str "rope"))
              (VString (str "x")) stocked) as [_ Hframe].
  destruct (Hframe H1) as [-> ->]. split; [exact H1|]. split; reflexivity.
Defined.

Lemma clear_empties_everything_witness :
  @setItem_throws rude (trace (world stocked)) LS_KEY = false
  /\ (@has rude (VString (str "x")) (@clear rude stocked).1).2 = Ok false
  /\ localStorage (world (@clear rude stocked).1) !! LS_KEY = Some [].
Proof.
  assert (H1 : @setItem_throws rude (trace (world stocked)) LS_KEY = false)
    by reflexivity.
  destruct (@clear_empties_everything rude (VString (str "x")) stocked)
    as (_ & _ & Hhas & Hls & _).
  split; [exact H1|]. split; [exact Hhas|exact (Hls H1)].
Defined.

Lemma everyone_hears_once_witness :
  @ToBoolean (VString (str "rope")) = true
  /\ calls_to 1%nat
       (new_events (@after rude readable revisited some_calls)
          (@add rude (VString (str "rope"))
             (@after rude readable revisited some_calls)).1)
     = [DList [str "map"; str "lamp"; str "rope"]]
  /\ calls_to 3%nat
       (new_events (@after rude readable revisited some_calls)
          (@add rude (VString (str "rope"))
             (@after rude readable revisited some_calls)).1)
     = [].
Proof.
  assert (H1 : @ToBoolean (VString (str "rope")) = true) by reflexivity.
  split; [exact H1|]. split.
  - rewrite (proj1 (@everyone_hears_once rude readable revisited some_calls
                      (VString (str "rope")) 1%nat) H1).
    vm_compute. reflexivity.
  - rewrite (proj1 (@everyone_hears_once rude readable revisited some_calls
                      (VString (str "rope")) 3%nat) H1).
    vm_compute. reflexivity.
Defined.

End InventoryMore.
